(** * github-to-discourse: checkpointed migration of GitHub issues

    A shallow embedding of the issue-migration tool: the batch function
    [process], the checkpoint writer [saveState] and the resume branch of
    [main] (all in main.go), and the two run modes [dryRun] and [liveRun]
    (the run-mode file of package main).

    Go strings are byte strings and are modelled as [string]; Go [int] is
    the 64-bit signed integer, modelled as [Z] with its wrap-around written
    out where the program does arithmetic on it. *)

From Stdlib Require Import ZArith String Ascii List Lia Bool.
From stdpp Require Import base gmap strings list.

Local Open Scope string_scope.
Local Open Scope Z_scope.

(** ** The parts of Go's standard library the program uses *)

Module GoLib.

(** [len(s)] of a Go string, as an [int]. *)
Definition len (s : string) : Z := Z.of_nat (String.length s).

(** Does byte [c] occur in [s] ([strings.IndexByte(s, c) >= 0])? *)
Fixpoint hasByte (s : string) (c : ascii) : bool :=
  match s with
  | EmptyString => false
  | String a r => Ascii.eqb a c || hasByte r c
  end.

(** [strings.Split(s, sep)] for a separator of one byte, the only kind the
    program uses ([" "], ["\n"], ["/"]).  The result always has at least
    one element: splitting the empty string gives one empty field. *)
Fixpoint Split (s : string) (sep : ascii) : list string :=
  match s with
  | EmptyString => [EmptyString]
  | String c r =>
      if Ascii.eqb c sep then EmptyString :: Split r sep
      else match Split r sep with
           | [] => [String c EmptyString]
           | f :: fs => String c f :: fs
           end
  end.

(** Go's [int]: 64 bits, two's complement. *)
Definition intMin : Z := - 2 ^ 63.
Definition intMax : Z := 2 ^ 63 - 1.
Definition wrapInt (z : Z) : Z := (z + 2 ^ 63) mod 2 ^ 64 - 2 ^ 63.

(** [x++] on an [int]. *)
Definition incr (x : Z) : Z := wrapInt (x + 1).

Definition isDigit (c : ascii) : bool :=
  let n := nat_of_ascii c in (48 <=? n)%nat && (n <=? 57)%nat.

Definition digitVal (c : ascii) : Z := Z.of_nat (nat_of_ascii c) - 48.

Definition digitChar (d : Z) : ascii := ascii_of_nat (Z.to_nat (48 + d)).

Inductive NumError := ErrSyntax | ErrRange.

(** The largest [uint64]. *)
Definition maxUint64 : Z := 2 ^ 64 - 1.

(** The digit loop of [strconv.ParseUint] in base 10 and 64 bits, byte by
    byte from the left: a byte that is not a decimal digit is a syntax
    error; a digit that takes the number beyond [maxUint64] is a range
    error, whatever follows it. *)
Fixpoint parseDigits (n : Z) (s : string) : Z + NumError :=
  match s with
  | EmptyString => inl n
  | String c r =>
      if isDigit c then
        if maxUint64 / 10 + 1 <=? n then inr ErrRange
        else if maxUint64 <? 10 * n + digitVal c then inr ErrRange
        else parseDigits (10 * n + digitVal c) r
      else inr ErrSyntax
  end.

(** [strconv.Atoi]: an optional sign, then one or more decimal digits.  A
    syntax error returns 0; a value out of the [int] range returns the
    nearest bound, in both cases with an error. *)
Definition Atoi (s : string) : Z * option NumError :=
  let '(neg, body) :=
    match s with
    | String c r =>
        if Ascii.eqb c "-" then (true, r)
        else if Ascii.eqb c "+" then (false, r)
        else (false, s)
    | EmptyString => (false, s)
    end in
  match body with
  | EmptyString => (0, Some ErrSyntax)
  | _ =>
      match parseDigits 0 body with
      | inr ErrSyntax => (0, Some ErrSyntax)
      | inr ErrRange => (if neg then intMin else intMax, Some ErrRange)
      | inl un =>
          if neg then
            if 2 ^ 63 <? un then (intMin, Some ErrRange) else (- un, None)
          else
            if 2 ^ 63 <=? un then (intMax, Some ErrRange) else (un, None)
      end
  end.

(** The digit loop of [strconv.FormatInt]: digits are produced from the
    least significant one and put in front of what is already there. *)
Fixpoint formatBits (fuel : nat) (u : Z) (acc : string) : string :=
  match fuel with
  | O => acc
  | S fuel' =>
      let acc' := String (digitChar (u mod 10)) acc in
      if u / 10 =? 0 then acc' else formatBits fuel' (u / 10) acc'
  end.

(** [strconv.Itoa], which is also what the verb [%d] prints for an [int].
    An [int] has at most 19 decimal digits. *)
Definition Itoa (n : Z) : string :=
  if n <? 0 then String "-" (formatBits 20 (- n) EmptyString)
  else formatBits 20 n EmptyString.

(** Operands of [fmt.Sprintf]: the program formats strings and ints. *)
Inductive Arg :=
| AStr (s : string)
| AInt (n : Z).

Definition argType (a : Arg) : string :=
  match a with AStr _ => "string" | AInt _ => "int" end.

Definition argValue (a : Arg) : string :=
  match a with AStr s => s | AInt n => Itoa n end.

(** One verb applied to one operand.  [%s] on a string and [%d] on an int
    print the value; a verb that does not fit its operand prints Go's
    bad-verb form [%!verb(type=value)].  Only [%s] and [%d] occur in the
    program's format strings. *)
Definition formatVerb (verb : ascii) (a : Arg) : string :=
  match verb, a with
  | "s"%char, AStr s => s
  | "d"%char, AInt n => Itoa n
  | _, _ => "%!" +:+ String verb ("(" +:+ argType a +:+ "=" +:+ argValue a +:+ ")")
  end.

Fixpoint extraArgs (args : list Arg) : string :=
  match args with
  | [] => ""
  | [a] => argType a +:+ "=" +:+ argValue a
  | a :: rest => argType a +:+ "=" +:+ argValue a +:+ ", " +:+ extraArgs rest
  end.

(** [fmt.Sprintf(format, args...)].  A verb with no operand left prints
    [%!verb(MISSING)]; operands left over at the end are reported as
    [%!(EXTRA type=value, ...)]. *)
Fixpoint Sprintf (format : string) (args : list Arg) : string :=
  match format with
  | EmptyString =>
      match args with
      | [] => ""
      | _ => "%!(EXTRA " +:+ extraArgs args +:+ ")"
      end
  | String "%" EmptyString => "%!(NOVERB)"
  | String "%" (String "%" rest) => String "%" (Sprintf rest args)
  | String "%" (String verb rest) =>
      match args with
      | [] => "%!" +:+ String verb "(MISSING)" +:+ Sprintf rest []
      | a :: args' => formatVerb verb a +:+ Sprintf rest args'
      end
  | String c rest => String c (Sprintf rest args)
  end.

(** The line feed byte, Go's ["\n"]. *)
Definition nl : string := String (ascii_of_nat 10) EmptyString.

Fixpoint joinSpace (l : list string) : string :=
  match l with
  | [] => ""
  | [x] => x
  | x :: rest => x +:+ " " +:+ joinSpace rest
  end.

(** The line [fmt.Println(args...)] prints: the operands in their default
    format, a space between any two of them, and a line feed. *)
Definition Println (args : list Arg) : string :=
  joinSpace (map argValue args) +:+ nl.

End GoLib.

Import GoLib.


(** ** Issues, events and the outside world *)

(** The fields of [github.Issue] that the program reads.  [time.Time]
    values are instants on a line, here nanoseconds since the Unix epoch;
    [IsPullRequest] is go-github's test [PullRequestLinks != nil]. *)
Record Issue := mkIssue {
  HTMLURL : string;
  Number : Z;
  UserLogin : string;
  RepoOwnerLogin : string;
  Title : string;
  Body : string;
  IssueState : string;
  UpdatedAt : Z;
  IsPullRequest : bool
}.

(** What the program does to the outside world, in the order it does it.
    [DiscoursePost] is the call of main.go, [discourse(tc, i, mode)];
    [DiscourseTopic] the call of the run modes,
    [discourse(i, title, body, category)]; [Sleep] is [time.Sleep];
    [LogWrite] is a write to the checkpoint log that succeeded. *)
Inductive Event :=
| DiscoursePost (i : Issue) (mode : string)
| DiscourseTopic (i : Issue) (title body : string) (category : Z)
| Comment (i : Issue) (body : string)
| Close (i : Issue)
| Lock (i : Issue)
| IssuesGet (owner repo : string) (num : Z)
| ListByRepo (owner name : string)
| Sleep (nanoseconds : Z)
| LogWrite (data : string).

(** The answer of [client.Issues.Get]: an error, or an issue with the
    status code of the response and its body (or the error of reading it). *)
Inductive GetResult :=
| GetError (err : string)
| GetResponse (iss : Issue) (statusCode : Z) (body : string + string).

(** The collaborators the program calls but does not define: the clock,
    Discourse, the GitHub client and the operating system's file calls.
    Every answer may depend on what has happened so far.  An [option string]
    answer is a Go [error]: [None] is [nil], [Some msg] an error whose
    [Error()] is [msg]. *)
Record World := mkWorld {
  (** [time.Now()] *)
  now : list Event -> Z;
  (** [t.AddDate(0, -3, 0)] *)
  threeMonthsBefore : Z -> Z;
  discoursePost : list Event -> Issue -> string -> string + string;
  discourseTopic : list Event -> Issue -> string -> string -> Z -> string + string;
  commentIssue : list Event -> Issue -> string -> option string;
  closeIssue : list Event -> Issue -> option string;
  lockIssue : list Event -> Issue -> option string;
  issuesGet : list Event -> string -> string -> Z -> GetResult;
  listByRepo : list Event -> string -> string -> list Issue;
  (** [os.OpenFile] of the checkpoint log and of err.txt, [ioutil.ReadFile],
      [f.WriteString] and [f.Sync], given the file's content *)
  openLogErr : option string -> option string;
  openErrTxtErr : option string;
  readLogErr : option string -> option string;
  writeErr : list Event -> string -> string -> option string;
  syncErr : list Event -> string -> option string
}.

(** The state the program acts on: the calls made so far (latest last),
    the checkpoint log on disk ([None] while the file does not exist) and
    the offset of the open handle on it. *)
Record St := mkSt {
  trace : list Event;
  disk : option string;
  pos : nat
}.

Definition emit (e : Event) (st : St) : St :=
  mkSt (trace st ++ [e]) (disk st) (pos st).

Definition content (st : St) : string :=
  match disk st with Some c => c | None => "" end.

(** How a Go function can end: it returns, the process exits through
    [os.Exit], or the runtime panics. *)
Inductive PanicKind :=
| IndexOutOfRange (index length : Z)
| NilDereference.

Inductive Outcome (A : Type) :=
| Ret (a : A)
| Exit (code : Z)
| Panic (p : PanicKind).
Arguments Ret {A} a.
Arguments Exit {A} code.
Arguments Panic {A} p.

Definition obind {A B} (o : Outcome A) (k : A -> Outcome B) : Outcome B :=
  match o with
  | Ret a => k a
  | Exit c => Exit c
  | Panic p => Panic p
  end.

Notation "x <~ c ;; k" := (obind c (fun x => k))
  (at level 100, c at next level, right associativity).

(** [l[i]] on a slice: out of range, the runtime panics. *)
Definition index {A} (l : list A) (i : nat) : Outcome A :=
  match l !! i with
  | Some x => Ret x
  | None => Panic (IndexOutOfRange (Z.of_nat i) (Z.of_nat (length l)))
  end.

(** ** Files *)

Module OS.

(** The flags of [os.OpenFile] that decide where writes go. *)
Record Flags := mkFlags {
  O_APPEND : bool;
  O_CREATE : bool;
  O_TRUNC : bool
}.

(** An open [*os.File]: only its append flag is fixed; its offset is in
    the state. *)
Record File := mkFile { append : bool }.

(** [take n s] and [drop n s] on byte strings. *)
Fixpoint takeS (n : nat) (s : string) : string :=
  match n, s with
  | S n', String c r => String c (takeS n' r)
  | _, _ => EmptyString
  end.

Fixpoint dropS (n : nat) (s : string) : string :=
  match n, s with
  | S n', String _ r => dropS n' r
  | _, _ => s
  end.

(** [os.OpenFile(name, flags, 0644)] on the checkpoint log, once the
    operating system has granted it: the file is created when absent and
    [O_CREATE] is given, emptied under [O_TRUNC] and otherwise left as it
    is; the new handle's offset is 0.  [None]: the file does not exist and
    is not to be created. *)
Definition OpenFile (fl : Flags) (st : St) : option (File * St) :=
  match disk st with
  | None =>
      if O_CREATE fl then Some (mkFile (O_APPEND fl), mkSt (trace st) (Some "") 0%nat)
      else None
  | Some c =>
      Some (mkFile (O_APPEND fl),
            mkSt (trace st) (Some (if O_TRUNC fl then "" else c)) 0%nat)
  end.

(** The bytes of the file after a write of [data]: at the end under
    [O_APPEND], otherwise at the handle's offset, over what is there. *)
Definition written (f : File) (c : string) (off : nat) (data : string) : string * nat :=
  if append f then (c +:+ data, String.length (c +:+ data))
  else (takeS off c +:+ data +:+ dropS (off + String.length data) c,
        (off + String.length data)%nat).

(** [f.WriteString(data)]; a failed write leaves the file as it was. *)
Definition WriteString (w : World) (f : File) (data : string) (st : St)
  : option string * St :=
  match writeErr w (trace st) (content st) data with
  | Some err => (Some err, st)
  | None =>
      let '(c', off') := written f (content st) (pos st) data in
      (None, mkSt (trace st ++ [LogWrite data]) (Some c') off')
  end.

(** [f.Sync()] *)
Definition Sync (w : World) (f : File) (st : St) : option string :=
  syncErr w (trace st) (content st).

End OS.

(** [time.Duration] counts nanoseconds. *)
Module time.
Definition Millisecond : Z := 1000000.
Definition Second : Z := 1000 * Millisecond.
End time.

(** ** Control flow of a loop body

    A loop body runs on a state [S] and either reaches its end or leaves
    early: [continue], [break], or a [return] of the enclosing function
    with an error. *)

Inductive Flow :=
| ContinueLoop
| BreakLoop
| ReturnErr (err : string).

Inductive Res (A : Type) :=
| Val (a : A)
| Jump (fl : Flow).
Arguments Val {A} a.
Arguments Jump {A} fl.

Definition M (S A : Type) : Type := S -> Res A * S.

Definition ret {S A} (a : A) : M S A := fun s => (Val a, s).

Definition bind {S A B} (c : M S A) (k : A -> M S B) : M S B :=
  fun s =>
    match c s with
    | (Val a, s') => k a s'
    | (Jump fl, s') => (Jump fl, s')
    end.

Definition jump {S A} (fl : Flow) : M S A := fun s => (Jump fl, s).

Notation "x <- c ;; k" := (bind c (fun x => k))
  (at level 100, c at next level, right associativity).
Notation "c ;;; k" := (bind c (fun _ => k))
  (at level 100, right associativity).

(** The external calls, as actions on [St]: the world answers from what has
    happened so far, and the call is added to the trace. *)
Section Calls.
Variable w : World.

Definition callSleep (d : Z) (st : St) : unit * St := (tt, emit (Sleep d) st).

Definition callDiscoursePost (i : Issue) (mode : string) (st : St)
  : (string + string) * St :=
  (discoursePost w (trace st) i mode, emit (DiscoursePost i mode) st).

Definition callDiscourseTopic (i : Issue) (title body : string) (cat : Z) (st : St)
  : (string + string) * St :=
  (discourseTopic w (trace st) i title body cat,
   emit (DiscourseTopic i title body cat) st).

Definition callComment (i : Issue) (body : string) (st : St) : option string * St :=
  (commentIssue w (trace st) i body, emit (Comment i body) st).

Definition callClose (i : Issue) (st : St) : option string * St :=
  (closeIssue w (trace st) i, emit (Close i) st).

Definition callLock (i : Issue) (st : St) : option string * St :=
  (lockIssue w (trace st) i, emit (Lock i) st).

Definition callIssuesGet (owner repo : string) (num : Z) (st : St) : GetResult * St :=
  (issuesGet w (trace st) owner repo num, emit (IssuesGet owner repo num) st).

Definition callListByRepo (owner name : string) (st : St) : list Issue * St :=
  (listByRepo w (trace st) owner name, emit (ListByRepo owner name) st).

(** [isStale]: [i.GetUpdatedAt().Before(time.Now().AddDate(0, -3, 0))] *)
Definition isStale (i : Issue) (st : St) : bool :=
  UpdatedAt i <? threeMonthsBefore w (now w (trace st)).

End Calls.

(** ** main.go *)

Module MainGo.

Definition staffCategory : Z := 29.
Definition buildIssuesCat : Z := 11.
Definition discourseDone : Z := 1.
Definition commentDone : Z := 2.
Definition closeDone : Z := 3.
Definition lockDone : Z := 4.
Definition maxCount : Z := 1.
Definition activeTpl : string :=
  "Hi %s! We are migrating our GitHub issues to Discourse (https://discuss.bitrise.io/c/issues/build-issues). From now on, you can track this issue at: %s".
Definition staleTpl : string :=
  "Hi %s! We are migrating our GitHub issues to Discourse (https://discuss.bitrise.io/c/issues/build-issues). Because this issue has been inactive for more than three months, we will be closing it. If you feel it is still relevant, please open a ticket on Discourse!".
Definition defaultMode : string := "test".

Record RestoredIssue := mkRestored {
  URL : string;
  Owner : string;
  Repo : string;
  IssNum : Z;
  Done : Z;
  Extra : string
}.

Record Repository := mkRepo {
  RepoOwner : string;
  RepoName : string
}.

Record RunStats := mkStats {
  Processed : Z;
  Stale : Z;
  Active : Z;
  PullRequest : Z
}.

Definition zeroStats : RunStats := mkStats 0 0 0 0.

Definition incProcessed (s : RunStats) : RunStats :=
  mkStats (incr (Processed s)) (Stale s) (Active s) (PullRequest s).
Definition incStale (s : RunStats) : RunStats :=
  mkStats (Processed s) (incr (Stale s)) (Active s) (PullRequest s).
Definition incActive (s : RunStats) : RunStats :=
  mkStats (Processed s) (Stale s) (incr (Active s)) (PullRequest s).
Definition incPullRequest (s : RunStats) : RunStats :=
  mkStats (Processed s) (Stale s) (Active s) (incr (PullRequest s)).

Section Program.
Variable w : World.

(** [saveState(f, i, state, extra, logmsg)]: one line
    [<issueURL> <state> <extra>] is written to the log and synced.  The
    message [logmsg] only goes to the console, which is not modelled. *)
Definition saveState (f : OS.File) (i : Issue) (state : Z) (extra : string) (st : St)
  : option string * St :=
  let line :=
    Sprintf ("%s %d %s" +:+ nl) [AStr (HTMLURL i); AInt state; AStr extra] in
  match OS.WriteString w f line st with
  | (Some err, st') => (Some (Sprintf "save state: %s" [AStr err]), st')
  | (None, st') =>
      match OS.Sync w f st' with
      | Some err => (Some (Sprintf "save state: sync file: %s" [AStr err]), st')
      | None => (None, st')
      end
  end.

(** The body of the loop of [process] works on the stats behind the
    pointer [stats] and on the world. *)
Definition lift {A} (c : St -> A * St) : M (RunStats * St) A :=
  fun s => let '(a, st') := c (snd s) in (Val a, (fst s, st')).

Definition getStats : M (RunStats * St) RunStats :=
  fun s => (Val (fst s), s).

Definition modStats (g : RunStats -> RunStats) : M (RunStats * St) unit :=
  fun s => (Val tt, (g (fst s), snd s)).

(** [if err != nil { printIssueLog(err.Error()); continue }] *)
Definition orContinue (e : option string) : M (RunStats * St) unit :=
  match e with
  | Some _ => jump ContinueLoop
  | None => ret tt
  end.

(** [if err != nil { return nil, fmt.Errorf("process: %s", err) }] *)
Definition orReturn (e : option string) : M (RunStats * St) unit :=
  match e with
  | Some err => jump (ReturnErr (Sprintf "process: %s" [AStr err]))
  | None => ret tt
  end.

(** One iteration of the loop of [process] (main.go, lines 94-181). *)
Definition processBody (f : OS.File) (mode : string) (i : Issue)
  : M (RunStats * St) unit :=
  lift (callSleep (time.Millisecond + 1000)) ;;;
  if IsPullRequest i then
    modStats incPullRequest ;;; jump ContinueLoop
  else
    stats <- getStats ;;
    if Processed stats =? maxCount then jump BreakLoop
    else
      stale <- lift (fun st => (isStale w i st, st)) ;;
      (if negb stale then
         modStats incActive ;;;
         r <- lift (callDiscoursePost w i mode) ;;
         match r with
         | inr _ => jump ContinueLoop
         | inl url =>
             e <- lift (saveState f i discourseDone url) ;;
             orReturn e ;;;
             e <- lift (callComment w i (Sprintf activeTpl [AStr url])) ;;
             orContinue e
         end
       else
         modStats incStale ;;;
         e <- lift (callComment w i (Sprintf staleTpl [])) ;;
         orContinue e) ;;;
      e <- lift (saveState f i commentDone "") ;;
      orReturn e ;;;
      e <- lift (callClose w i) ;;
      orContinue e ;;;
      e <- lift (saveState f i closeDone "") ;;
      orReturn e ;;;
      e <- lift (callLock w i) ;;
      orContinue e ;;;
      e <- lift (saveState f i lockDone "") ;;
      orReturn e ;;;
      modStats incProcessed.

(** The loop of [process] over the rest of the issues. *)
Fixpoint processLoop (f : OS.File) (mode : string) (issues : list Issue)
    (stats : RunStats) (st : St) : (option RunStats * option string) * St :=
  match issues with
  | [] => ((Some stats, None), st)
  | i :: rest =>
      match processBody f mode i (stats, st) with
      | (Val _, (stats', st')) => processLoop f mode rest stats' st'
      | (Jump ContinueLoop, (stats', st')) => processLoop f mode rest stats' st'
      | (Jump BreakLoop, (stats', st')) => ((Some stats', None), st')
      | (Jump (ReturnErr err), (_, st')) => ((None, Some err), st')
      end
  end.

(** [process(tc, issues, f, mode)] *)
Definition process (issues : list Issue) (f : OS.File) (mode : string) (st : St)
  : (option RunStats * option string) * St :=
  processLoop f mode issues zeroStats st.

(** *** The branch "continue" of [main]: resuming from the log *)

(** The line [could not read stored state: <err>] on the console, for the
    error [err] that [strconv.Atoi] gave on [input]. *)
Inductive Report :=
| CouldNotReadStoredState (input : string) (e : NumError).

Definition reportOf (input : string) (e : option NumError) : list Report :=
  match e with
  | Some ne => [CouldNotReadStoredState input ne]
  | None => []
  end.

(** The parsing of one line of the log (main.go, lines 337-367).  An
    [Atoi] error is printed and the value it returned is used. *)
Definition parseLine (l : string) : Outcome (list Report * RestoredIssue) :=
  let fields := Split l " " in
  url <~ index fields 0 ;;
  let fragments := Split url "/" in
  owner <~ index fragments 3 ;;
  repo <~ index fragments 4 ;;
  numField <~ index fragments 6 ;;
  let '(num, numErr) := Atoi numField in
  doneField <~ index fields 1 ;;
  let '(done, doneErr) := Atoi doneField in
  extra <~ (if done =? discourseDone then index fields 2 else Ret "") ;;
  Ret ((reportOf numField numErr ++ reportOf doneField doneErr)%list,
       mkRestored url owner repo num done extra).

Definition setDone (i : RestoredIssue) (done : Z) : RestoredIssue :=
  mkRestored (URL i) (Owner i) (Repo i) (IssNum i) done (Extra i).

(** "populate map: update or insert value" (lines 369-376).  The map holds
    pointers: [i.Done = done] changes the entry in place. *)
Definition populate (issueStates : gmap string RestoredIssue) (iss : RestoredIssue)
  : gmap string RestoredIssue :=
  match issueStates !! URL iss with
  | Some i =>
      if Done i <? Done iss then <[URL iss := setDone i (Done iss)]> issueStates
      else issueStates
  | None => <[URL iss := iss]> issueStates
  end.

(** The loop over the lines of the log (lines 332-378). *)
Fixpoint restoreLines (lines : list string) (issueStates : gmap string RestoredIssue)
    (reports : list Report) : Outcome (list Report * gmap string RestoredIssue) :=
  match lines with
  | [] => Ret (reports, issueStates)
  | l :: rest =>
      if len l =? 0 then restoreLines rest issueStates reports
      else
        r <~ parseLine l ;;
        restoreLines rest (populate issueStates (snd r)) (reports ++ fst r)%list
  end.

(** [issueStates] after reading a log with the given content. *)
Definition restore (logContent : string)
  : Outcome (list Report * gmap string RestoredIssue) :=
  restoreLines (Split logContent (ascii_of_nat 10)) ∅ [].

(** The bodies of the cases of [switch i.Done] (lines 407-428).  The
    results of [comment] and [saveState] are dropped; the calls [close]
    and [lock] are commented out in the source. *)
Definition caseDiscourseDone (f : OS.File) (i : RestoredIssue) (iss : Issue) (st : St) : St :=
  let dscURL := Extra i in
  let st1 :=
    if isStale w iss st then
      snd (callComment w iss (Sprintf staleTpl [AStr (UserLogin iss)]) st)
    else
      snd (callComment w iss (Sprintf activeTpl [AStr (UserLogin iss); AStr dscURL]) st) in
  snd (saveState f iss commentDone "" st1).

Definition caseCommentDone (f : OS.File) (iss : Issue) (st : St) : St :=
  snd (saveState f iss closeDone "" st).

Definition caseCloseDone (f : OS.File) (iss : Issue) (st : St) : St :=
  snd (saveState f iss lockDone "" st).

(** [switch i.Done] with its [fallthrough]s: the case that matches and all
    cases below it run. *)
Definition continueFrom (f : OS.File) (i : RestoredIssue) (iss : Issue) (st : St) : St :=
  if Done i =? discourseDone then
    caseCloseDone f iss (caseCommentDone f iss (caseDiscourseDone f i iss st))
  else if Done i =? commentDone then
    caseCloseDone f iss (caseCommentDone f iss st)
  else if Done i =? closeDone then
    caseCloseDone f iss st
  else st.

(** The loop over [issueStates] (lines 380-431), in the order [its] in
    which [range] happens to visit the map. *)
Fixpoint continueLoop (f : OS.File) (its : list RestoredIssue) (k : Z) (st : St) : St :=
  match its with
  | [] => st
  | i :: rest =>
      if k =? maxCount then st
      else
        let '(r, st1) := callIssuesGet w (Owner i) (Repo i) (IssNum i) st in
        match r with
        | GetError _ => continueLoop f rest k st1
        | GetResponse iss code _ =>
            if (code <? 200) || (300 <=? code) then continueLoop f rest k st1
            else continueLoop f rest (incr k) (continueFrom f i iss st1)
        end
  end.

(** *** [main] from the opening of the log on (lines 278-441) *)

(** The loop over the repositories in the modes "test" and "migrate". *)
Fixpoint reposLoop (f : OS.File) (mode : string) (repos : list Repository)
    (stats : option RunStats) (st : St) : Outcome (option RunStats) * St :=
  match repos with
  | [] => (Ret stats, st)
  | r :: rest =>
      let '(issues, st1) := callListByRepo w (RepoOwner r) (RepoName r) st in
      match process issues f mode st1 with
      | ((_, Some _), st2) => (Exit 1, st2)
      | ((stats', None), st2) => reposLoop f mode rest stats' st2
      end
  end.

(** The last statements of [main]: the totals are read through the
    pointer [stats]. *)
Definition printStats (stats : option RunStats) : Outcome (list string) :=
  match stats with
  | None => Panic NilDereference
  | Some s =>
      Ret [Println [AStr "stale: "; AInt (Stale s); AStr "active: "; AInt (Active s);
                    AStr "total processed"; AInt (Processed s)];
           Println [AStr "PRs: "; AInt (PullRequest s)]]
  end.

Definition logFlags : OS.Flags := OS.mkFlags true true false.

(** The [switch mode] of line 303, which leaves the pointer [stats]: it is
    declared [nil] just before, and only the modes "test" and "migrate"
    assign it. *)
Definition modeSwitch (rangeOrder : list RestoredIssue -> list RestoredIssue)
    (mode : string) (baseRepos : list Repository) (f : OS.File) (st : St)
  : Outcome (option RunStats) * St :=
  let stats : option RunStats := None in
  if String.eqb mode "test" || String.eqb mode "migrate" then
    reposLoop f mode baseRepos stats st
  else if String.eqb mode "continue" then
    match readLogErr w (disk st) with
    | Some _ => (Exit 1, st)
    | None =>
        match restore (content st) with
        | Ret (_, issueStates) =>
            (Ret stats,
             continueLoop f (rangeOrder (map snd (map_to_list issueStates))) 0 st)
        | Exit c => (Exit c, st)
        | Panic p => (Panic p, st)
        end
    end
  else (Ret stats, st).

(** [main], given what its first part computes: the mode and the list of
    repositories.  The result is what the last two [Println] print. *)
Definition main (rangeOrder : list RestoredIssue -> list RestoredIssue)
    (mode : string) (baseRepos : list Repository) (st : St)
  : Outcome (list string) * St :=
  match openLogErr w (disk st) with
  | Some _ => (Exit 1, st)
  | None =>
      match OS.OpenFile logFlags st with
      | None => (Exit 1, st)
      | Some (f, st1) =>
          match openErrTxtErr w with
          | Some _ => (Exit 1, st1)
          | None =>
              match modeSwitch rangeOrder mode baseRepos f st1 with
              | (Ret stats, st2) => (printStats stats, st2)
              | (Exit c, st2) => (Exit c, st2)
              | (Panic p, st2) => (Panic p, st2)
              end
          end
      end
  end.

End Program.
End MainGo.

(** ** The run modes (the second file of package main) *)

Module RunModes.

(** [const ( discourseDone = iota; commentDone; closeDone; lockDone )] *)
Definition discourseDone : Z := 0.
Definition commentDone : Z := 1.
Definition closeDone : Z := 2.
Definition lockDone : Z := 3.

Definition activeTpl : string :=
  "Hi %s! We are migrating our GitHub issues to Discourse (https://discuss.bitrise.io/c/issues/build-issues). From now on, you can track this issue at: %s".
Definition staleTpl : string :=
  "Hi %s! We are migrating our GitHub issues to Discourse (https://discuss.bitrise.io/c/issues/build-issues). Because this issue has been inactive for more than three months, we will be closing it. If you feel it is still relevant, please open a ticket on Discourse!".

Record runStats := mkStats {
  Processed : Z;
  Stale : Z;
  Active : Z;
  PullRequest : Z
}.

Definition incProcessed (s : runStats) : runStats :=
  mkStats (incr (Processed s)) (Stale s) (Active s) (PullRequest s).
Definition incStale (s : runStats) : runStats :=
  mkStats (Processed s) (incr (Stale s)) (Active s) (PullRequest s).
Definition incActive (s : runStats) : runStats :=
  mkStats (Processed s) (Stale s) (incr (Active s)) (PullRequest s).
Definition incPullRequest (s : runStats) : runStats :=
  mkStats (Processed s) (Stale s) (Active s) (incr (PullRequest s)).

(** Modelled from the spec: the type [restoredIssue] of this file is not
    among the sources.  It is the RestoredIssue of the data model, with the
    fields of the struct of that name in main.go; [liveRun.process] sets
    [Repo], [Owner], [IssNum] and [Done]. *)
Record restoredIssue := mkRestored {
  URL : string;
  Owner : string;
  Repo : string;
  IssNum : Z;
  Done : Z;
  Extra : string
}.

Definition setDone (c : restoredIssue) (done : Z) : restoredIssue :=
  mkRestored (URL c) (Owner c) (Repo c) (IssNum c) done (Extra c).

(** What the file uses and does not declare: the flag [runID], the
    constant [discourseCategoryID], and the text of the line that
    [saveState(f, checkpoint)] writes for a checkpoint. *)
Record Config := mkConfig {
  runID : string;
  discourseCategoryID : Z;
  checkpointLine : restoredIssue -> string
}.

(** Modelled from the spec: the log line [<issueURL> <stepNumber> <extra>]
    of a checkpoint, ended by a line feed.  [liveRun.process] keeps the
    issue's URL in the field [Repo]. *)
Definition specCheckpointLine (c : restoredIssue) : string :=
  Sprintf ("%s %d %s" +:+ nl) [AStr (Repo c); AInt (Done c); AStr (Extra c)].

Record dryRun := mkDry { dryStats : runStats }.

(** The field [tc], the HTTP client, belongs to the outside world. *)
Record liveRun := mkLive {
  stats : runStats;
  chkptf : option OS.File
}.

(** [os.O_RDWR|os.O_CREATE]: neither [O_APPEND] nor [O_TRUNC]. *)
Definition chkptFlags : OS.Flags := OS.mkFlags false true false.

Section Program.
Variable w : World.
Variable cfg : Config.

(** Modelled from the spec: [saveState(f, checkpoint)] of this file is not
    among the sources.  Like [saveState] of main.go it writes the
    checkpoint's line through the handle and syncs; a [nil] handle makes
    the write fail with [os.ErrInvalid]. *)
Definition saveState (f : option OS.File) (checkpoint : restoredIssue) (st : St)
  : option string * St :=
  match f with
  | None => (Some "save state: invalid argument", st)
  | Some h =>
      match OS.WriteString w h (checkpointLine cfg checkpoint) st with
      | (Some err, st') => (Some (Sprintf "save state: %s" [AStr err]), st')
      | (None, st') =>
          match OS.Sync w h st' with
          | Some err => (Some (Sprintf "save state: sync file: %s" [AStr err]), st')
          | None => (None, st')
          end
      end
  end.

(** *** dryRun *)

(** The receiver [run] of [process] is a value: the counters are
    incremented on the callee's copy of it.  [dryRunProcessCopy] is that
    copy when [process] returns. *)
Definition dryRunProcessCopy (run : dryRun) (i : Issue) (st : St) : dryRun :=
  if IsPullRequest i then mkDry (incPullRequest (dryStats run))
  else
    let run1 :=
      if negb (isStale w i st) then mkDry (incActive (dryStats run))
      else mkDry (incStale (dryStats run)) in
    mkDry (incProcessed (dryStats run1)).

(** [func (run dryRun) process(i *github.Issue)]: it returns nothing, and
    its copy of the receiver is dropped; it only prints. *)
Definition dryRun_process (run : dryRun) (i : Issue) (st : St) : St :=
  let _ := dryRunProcessCopy run i st in st.

Fixpoint dryRunLoop (run : dryRun) (issues : list Issue) (st : St) : St :=
  match issues with
  | [] => st
  | i :: rest =>
      let st1 := dryRun_process run i st in
      let st2 := snd (callSleep (time.Millisecond + 1000) st1) in
      dryRunLoop run rest st2
  end.

(** [func (run dryRun) run(issues, unfinished) (runStats, error)] *)
Definition dryRun_run (run : dryRun) (issues : list Issue) (unfinished : option Issue)
    (st : St) : (runStats * option string) * St :=
  let st' := dryRunLoop run issues st in
  ((dryStats run, None), st').

(** *** liveRun *)

Definition lift {A} (c : St -> A * St) : M (liveRun * St) A :=
  fun s => let '(a, st') := c (snd s) in (Val a, (fst s, st')).

Definition modStats (g : runStats -> runStats) : M (liveRun * St) unit :=
  fun s => (Val tt, (mkLive (g (stats (fst s))) (chkptf (fst s)), snd s)).

(** [if err != nil { return err }] *)
Definition orReturn (e : option string) : M (liveRun * St) unit :=
  match e with
  | Some err => jump (ReturnErr err)
  | None => ret tt
  end.

(** [if err := saveState(run.chkptf, checkpoint); err != nil
     { return fmt.Errorf("process: %s", err) }] *)
Definition checkpointOrReturn (checkpoint : restoredIssue) : M (liveRun * St) unit :=
  fun s =>
    (e <- lift (saveState (chkptf (fst s)) checkpoint) ;;
     match e with
     | Some err => jump (ReturnErr (Sprintf "process: %s" [AStr err]))
     | None => ret tt
     end) s.

(** The body of [func (run liveRun) process(i) error], on the callee's
    copy of the receiver.  Reaching the end is [return nil]. *)
Definition liveRunProcessBody (i : Issue) : M (liveRun * St) unit :=
  if IsPullRequest i then modStats incPullRequest
  else
    let checkpoint := mkRestored "" (RepoOwnerLogin i) (HTMLURL i) (Number i) 0 "" in
    let commentTplParams := [AStr (UserLogin i)] in
    stale <- lift (fun st => (isStale w i st, st)) ;;
    branch <-
      (if negb stale then
         modStats incActive ;;;
         let title :=
           if negb (String.eqb (runID cfg) "")
           then Sprintf "[test][%s] %s" [AStr (runID cfg); AStr (Title i)]
           else Title i in
         r <- lift (callDiscourseTopic w i title (Body i) (discourseCategoryID cfg)) ;;
         match r with
         | inr err => jump (ReturnErr err)
         | inl url =>
             let checkpoint := setDone checkpoint discourseDone in
             checkpointOrReturn checkpoint ;;;
             ret (activeTpl, (commentTplParams ++ [AStr url])%list)
         end
       else
         modStats incStale ;;;
         ret (staleTpl, commentTplParams)) ;;
    let '(commentTpl, commentTplParams) := branch in
    e <- lift (callComment w i (Sprintf commentTpl commentTplParams)) ;;
    orReturn e ;;;
    let checkpoint := setDone checkpoint commentDone in
    checkpointOrReturn checkpoint ;;;
    e <- lift (callClose w i) ;;
    orReturn e ;;;
    let checkpoint := setDone checkpoint closeDone in
    checkpointOrReturn checkpoint ;;;
    e <- lift (callLock w i) ;;
    orReturn e ;;;
    let checkpoint := setDone checkpoint lockDone in
    checkpointOrReturn checkpoint ;;;
    modStats incProcessed.

(** [func (run liveRun) process(i *github.Issue) error]: the receiver is a
    value, so the caller gets the error and the effects on the world; the
    callee's copy of [run], with its counters, is dropped. *)
Definition liveRun_process (run : liveRun) (i : Issue) (st : St) : option string * St :=
  match liveRunProcessBody i (run, st) with
  | (Val _, (_, st')) => (None, st')
  | (Jump (ReturnErr err), (_, st')) => (Some err, st')
  | (Jump _, (_, st')) => (None, st')
  end.

(** [func (run liveRun) finish(i) error] returns [nil]. *)
Definition liveRun_finish (run : liveRun) (i : Issue) : option string := None.

Fixpoint liveRunLoop (run : liveRun) (issues : list Issue) (st : St)
  : (runStats * option string) * St :=
  match issues with
  | [] => ((stats run, None), st)
  | i :: rest =>
      match liveRun_process run i st with
      | (Some err, st') =>
          ((stats run,
            Some (Sprintf "process issue %s: %s" [AStr (HTMLURL i); AStr err])), st')
      | (None, st') =>
          liveRunLoop run rest (snd (callSleep (time.Millisecond + 1000) st'))
      end
  end.

(** [func (run liveRun) run(issues, unfinished) (runStats, error)].  The
    deferred [Close] of the file changes nothing that is modelled. *)
Definition liveRun_run (run : liveRun) (issues : list Issue) (unfinished : option Issue)
    (st : St) : Outcome (runStats * option string) * St :=
  let _ := match unfinished with Some u => liveRun_finish run u | None => None end in
  match openLogErr w (disk st) with
  | Some _ => (Exit 1, st)
  | None =>
      match OS.OpenFile chkptFlags st with
      | None => (Exit 1, st)
      | Some (f, st1) =>
          let run := mkLive (stats run) (Some f) in
          let '(r, st2) := liveRunLoop run issues st1 in
          (Ret r, st2)
      end
  end.

(** The interface [runMode] and its two implementations. *)
Class runMode (R : Type) := {
  run : R -> list Issue -> option Issue -> St -> Outcome (runStats * option string) * St
}.

#[export] Instance dryRun_runMode : runMode dryRun := {
  run r issues unfinished st :=
    let '(res, st') := dryRun_run r issues unfinished st in (Ret res, st')
}.

#[export] Instance liveRun_runMode : runMode liveRun := {
  run := liveRun_run
}.

(** [getRunMode(mode)] *)
Definition getRunMode (mode : string) : option (dryRun + liveRun) :=
  if String.eqb mode "dry" then Some (inl (mkDry (mkStats 0 0 0 0)))
  else if String.eqb mode "live" then Some (inr (mkLive (mkStats 0 0 0 0) None))
  else None.

End Program.
End RunModes.

(** ** More of Go's library: suffixes and negative indices *)

Module GoStrings.

(** [strings.HasSuffix(s, suffix)] *)
Definition HasSuffix (s suffix : string) : bool :=
  (String.length suffix <=? String.length s)%nat &&
  String.eqb (OS.dropS (String.length s - String.length suffix) s) suffix.

(** [strings.TrimSuffix(s, suffix)]: [s] without the suffix when it ends
    with it, and [s] otherwise. *)
Definition TrimSuffix (s suffix : string) : string :=
  if HasSuffix s suffix
  then OS.takeS (String.length s - String.length suffix) s
  else s.

(** [l[z]] for an index computed as an [int]: negative or too large, the
    runtime panics. *)
Definition indexZ {A} (l : list A) (z : Z) : Outcome A :=
  if z <? 0 then Panic (IndexOutOfRange z (Z.of_nat (length l)))
  else index l (Z.to_nat z).

End GoStrings.

(** ** internal/github/github.go *)

Module GithubPkg.
Import GoStrings.

(** The body of a request: the JSON object that [json.Marshal] makes of a
    map from strings to strings (kept as its fields), or plain bytes. *)
Inductive Body :=
| JSONObject (fields : list (string * string))
| Bytes (b : string).

Record Request := mkRequest {
  Method : string;
  RequestURL : string;
  RequestBody : Body;
  Header : list (string * string)
}.

(** What the program reads of an [http.Response]: the status code and the
    result of [ioutil.ReadAll(resp.Body)], the bytes or an error. *)
Record Response := mkResponse {
  StatusCode : Z;
  ReadAll : string + string
}.

(** The HTTP side of the package: [http.NewRequest], which refuses a
    method or URL it cannot parse, and [tc.Do], which answers with a
    response or an error, given the requests made so far. *)
Record Transport := mkTransport {
  newRequestErr : string -> string -> option string;
  Do : list Request -> Request -> Response + string
}.

(** [fmt]'s rendering of a map of one entry under the verb [%s]. *)
Definition fmtMap1 (key value : string) : string :=
  "map[" +:+ key +:+ ":" +:+ value +:+ "]".

Section Program.
Variable t : Transport.
(** [i.GetURL()] and [i.GetCommentsURL()], the API addresses of the issue. *)
Variable GetURL : Issue -> string.
Variable GetCommentsURL : Issue -> string.
(** [client.Issues.ListByRepo(ctx, owner, name, &opts)]: the open issues
    of a repository or an error, given the calls made so far. *)
Variable issuesListByRepo : list Event -> string -> string -> list Issue + string.

(** One round of the loop of [GetOpenIssues] (lines 40-52): the owner and
    the name are the last two fields of the URL between slashes, the name
    without a trailing [.git]. *)
Definition repoOf (url : string) : Outcome (string * string) :=
  let fragments := Split url "/" in
  owner <~ indexZ fragments (Z.of_nat (length fragments) - 2) ;;
  last <~ indexZ fragments (Z.of_nat (length fragments) - 1) ;;
  Ret (owner, TrimSuffix last ".git").

Fixpoint GetOpenIssuesLoop (repoURLs : list string) (all : list Issue) (tr : list Event)
  : Outcome (list Issue) * list Event :=
  match repoURLs with
  | [] => (Ret all, tr)
  | url :: rest =>
      match repoOf url with
      | Ret (owner, name) =>
          let tr' := (tr ++ [ListByRepo owner name])%list in
          match issuesListByRepo tr owner name with
          | inr _ => GetOpenIssuesLoop rest all tr'
          | inl issues => GetOpenIssuesLoop rest (all ++ issues)%list tr'
          end
      | Exit c => (Exit c, tr)
      | Panic p => (Panic p, tr)
      end
  end.

(** [GetOpenIssues(repoURLs)], on the trace of the calls made. *)
Definition GetOpenIssues (repoURLs : list string) (tr : list Event)
  : Outcome (list Issue) * list Event :=
  GetOpenIssuesLoop repoURLs [] tr.

(** [IsStale(i)], at the instant [now]; [threeMonthsBefore] is
    [AddDate(0, -3, 0)]. *)
Definition IsStale (threeMonthsBefore : Z -> Z) (now : Z) (i : Issue) : bool :=
  UpdatedAt i <? threeMonthsBefore now.

(** [PostComment(i, comment)].  [json.Marshal] does not fail on a map of
    strings, so its error branch is left out, as is the second test of
    [err] after the [defer], which no run reaches.  The list [sent] holds
    the requests handed to [tc.Do]. *)
Definition PostComment (i : Issue) (comment : string) (sent : list Request)
  : option string * list Request :=
  match newRequestErr t "POST" (GetCommentsURL i) with
  | Some err => (Some (Sprintf "could not create request: %s" [AStr err]), sent)
  | None =>
      let req :=
        mkRequest "POST" (GetCommentsURL i) (JSONObject [("body", comment)]) [] in
      match Do t sent req with
      | inr err =>
          (Some (Sprintf "could not send request: %s" [AStr err]), (sent ++ [req])%list)
      | inl resp =>
          match ReadAll resp with
          | inr err =>
              (Some (Sprintf "could not read response body: %s" [AStr err]),
               (sent ++ [req])%list)
          | inl body =>
              if (StatusCode resp <? 200) || (300 <=? StatusCode resp)
              then (Some (Sprintf "api error for payload %s: %s"
                            [AStr (fmtMap1 "body" comment); AStr body]),
                    (sent ++ [req])%list)
              else (None, (sent ++ [req])%list)
          end
      end
  end.

(** [Close(i)] *)
Definition Close (i : Issue) (sent : list Request) : option string * list Request :=
  match newRequestErr t "PATCH" (GetURL i) with
  | Some err => (Some (Sprintf "could not create request: %s" [AStr err]), sent)
  | None =>
      let request :=
        mkRequest "PATCH" (GetURL i) (JSONObject [("state", "closed")]) [] in
      match Do t sent request with
      | inr err =>
          (Some (Sprintf "could not send request: %s" [AStr err]),
           (sent ++ [request])%list)
      | inl resp =>
          match ReadAll resp with
          | inr err =>
              (Some (Sprintf "could not read response body: %s" [AStr err]),
               (sent ++ [request])%list)
          | inl body =>
              if (StatusCode resp <? 200) || (300 <=? StatusCode resp)
              then (Some (Sprintf "api error for payload %s: %s"
                            [AStr (fmtMap1 "state" "closed"); AStr body]),
                    (sent ++ [request])%list)
              else (None, (sent ++ [request])%list)
          end
      end
  end.

(** [Lock(i)].  The header is added to the request before the error of
    [http.NewRequest] is looked at: when the request could not be made it
    is [nil], and [request.Header] is a nil dereference. *)
Definition Lock (i : Issue) (sent : list Request)
  : Outcome (option string) * list Request :=
  let url := Sprintf "%s/lock" [AStr (GetURL i)] in
  match newRequestErr t "PUT" url with
  | Some _ => (Panic NilDereference, sent)
  | None =>
      let request := mkRequest "PUT" url (Bytes "") [("Content-Length", "0")] in
      match Do t sent request with
      | inr err =>
          (Ret (Some (Sprintf "could not send request: %s" [AStr err])),
           (sent ++ [request])%list)
      | inl resp =>
          match ReadAll resp with
          | inr err =>
              (Ret (Some (Sprintf "could not read response body: %s" [AStr err])),
               (sent ++ [request])%list)
          | inl body =>
              if (StatusCode resp <? 200) || (300 <=? StatusCode resp)
              then (Ret (Some (Sprintf "api error: %s" [AStr body])),
                    (sent ++ [request])%list)
              else (Ret None, (sent ++ [request])%list)
          end
      end
  end.

End Program.
End GithubPkg.

(** ** The first part of [main]: the list of repositories (main.go) *)

Module MainSetup.
Import GoStrings.

(** A value of type [interface{}] out of [json.Unmarshal]: a string, or
    anything else. *)
Inductive JSONValue :=
| JString (s : string)
| JOther.

Record Step := mkStep {
  LatestVersionNumber : string;
  Versions : gmap string (gmap string JSONValue)
}.

(** [mode := defaultMode; if len(os.Args) > 2 { mode = os.Args[1] }] *)
Definition selectMode (args : list string) : string :=
  if (2 <? length args)%nat
  then match args !! 1%nat with Some m => m | None => MainGo.defaultMode end
  else MainGo.defaultMode.

Definition orgs : list string :=
  ["bitrise-steplib"; "bitrise-io"; "bitrise-core"; "bitrise-community";
   "bitrise-tools"; "bitrise-docker"; "bitrise-samples"].

(** [stp.Versions[stp.LatestVersionNumber]["source_code_url"].(string)]: a
    missing key gives a nil map or a nil value, on which the type
    assertion fails like on a value that is no string. *)
Definition sourceCodeURL (stp : Step) : option string :=
  match Versions stp !! LatestVersionNumber stp with
  | Some version =>
      match version !! "source_code_url" with
      | Some (JString url) => Some url
      | _ => None
      end
  | None => None
  end.

(** "filter to our repositories" (lines 259-269): the loop over the
    organisations, left at the first one that owns the repository. *)
Fixpoint filterOrgs (url : string) (os : list string) (baseRepos : list MainGo.Repository)
  : Outcome (list MainGo.Repository) :=
  match os with
  | [] => Ret baseRepos
  | o :: rest =>
      let fragments := Split url "/" in
      name <~ indexZ fragments (Z.of_nat (length fragments) - 1) ;;
      owner <~ indexZ fragments (Z.of_nat (length fragments) - 2) ;;
      if String.eqb owner o
      then Ret (baseRepos ++ [MainGo.mkRepo owner name])%list
      else filterOrgs url rest baseRepos
  end.

(** "process steps" (lines 239-271), over the steps of the spec file in
    the order in which [range] visits them. *)
Fixpoint processSteps (steps : list Step) (baseRepos : list MainGo.Repository)
  : Outcome (list MainGo.Repository) :=
  match steps with
  | [] => Ret baseRepos
  | stp :: rest =>
      match sourceCodeURL stp with
      | None => Exit 1
      | Some url =>
          repos <~ filterOrgs url orgs baseRepos ;;
          processSteps rest repos
      end
  end.

End MainSetup.

(** ** Worlds and issues used in the examples *)

Module Fixtures.

Definition day : Z := 86400 * time.Second.

(** 2023-11-14T22:13:20Z; three calendar months before it lie 92 days. *)
Definition clock : Z := 1700000000 * time.Second.

Definition url7 : string := "https://github.com/o/r/issues/7".
Definition url8 : string := "https://github.com/o/r/issues/8".
Definition url9 : string := "https://github.com/o/r/pull/9".

(** Updated the day before: active. *)
Definition active7 : Issue :=
  mkIssue url7 7 "alice" "o" "Build fails" "It fails." "open" (clock - day) false.

(** Updated four months before: stale. *)
Definition stale8 : Issue :=
  mkIssue url8 8 "bob" "o" "Old crash" "It crashed." "open" (clock - 120 * day) false.

Definition pull9 : Issue :=
  mkIssue url9 9 "carol" "o" "Fix typo" "A fix." "open" (clock - day) true.

Definition topicURL : string := "https://discuss.example/t/42".

(** Every collaborator answers without error. *)
Definition calm : World := {|
  now := fun _ => clock;
  threeMonthsBefore := fun t => t - 92 * day;
  discoursePost := fun _ _ _ => inl topicURL;
  discourseTopic := fun _ _ _ _ _ => inl topicURL;
  commentIssue := fun _ _ _ => None;
  closeIssue := fun _ _ => None;
  lockIssue := fun _ _ => None;
  issuesGet := fun _ _ _ num =>
    GetResponse (if num =? 8 then stale8 else active7) 200 (inl "");
  listByRepo := fun _ _ _ => [];
  openLogErr := fun _ => None;
  openErrTxtErr := None;
  readLogErr := fun _ => None;
  writeErr := fun _ _ _ => None;
  syncErr := fun _ _ => None
|}.

(** Like [calm], but the comment on issue 7 is refused. *)
Definition commentFailsOn7 : World := {|
  now := now calm;
  threeMonthsBefore := threeMonthsBefore calm;
  discoursePost := discoursePost calm;
  discourseTopic := discourseTopic calm;
  commentIssue := fun _ i _ =>
    if String.eqb (HTMLURL i) url7 then Some "api error" else None;
  closeIssue := closeIssue calm;
  lockIssue := lockIssue calm;
  issuesGet := issuesGet calm;
  listByRepo := listByRepo calm;
  openLogErr := openLogErr calm;
  openErrTxtErr := openErrTxtErr calm;
  readLogErr := readLogErr calm;
  writeErr := writeErr calm;
  syncErr := syncErr calm
|}.

(** Before the run: nothing has happened, and the log does not exist. *)
Definition fresh : St := mkSt [] None 0%nat.

(** Before the run, with a log left by an earlier run. *)
Definition withLog (c : string) : St := mkSt [] (Some c) 0%nat.

Definition appendHandle : OS.File := OS.mkFile true.

Definition cfg : RunModes.Config :=
  RunModes.mkConfig "" 11 RunModes.specCheckpointLine.

Definition rec7 (done : Z) (extra : string) : MainGo.RestoredIssue :=
  MainGo.mkRestored url7 "o" "r" 7 done extra.

Definition rec8 (done : Z) : MainGo.RestoredIssue :=
  MainGo.mkRestored url8 "o" "r" 8 done "".

(** The records of a log written by two runs: the second run went over
    issue 7 again, so lower steps follow higher ones. *)
Definition replayed : list MainGo.RestoredIssue :=
  [rec7 1 topicURL; rec7 2 ""; rec7 3 ""; rec8 2; rec7 1 topicURL; rec7 2 ""].

(** A log whose only line is the checkpoint CommentDone of issue 7. *)
Definition logAtCommentDone : string := url7 +:+ " 2 " +:+ nl.

(** [range] over a map visits the entries in some order; this one leaves
    the order of the listing as it is. *)
Definition asListed (l : list MainGo.RestoredIssue) : list MainGo.RestoredIssue := l.

(** The run modes as [getRunMode] makes them. *)
Definition dry0 : RunModes.dryRun := RunModes.mkDry (RunModes.mkStats 0 0 0 0).
Definition live0 : RunModes.liveRun := RunModes.mkLive (RunModes.mkStats 0 0 0 0) None.


Definition replayedSwapped : list MainGo.RestoredIssue :=
  [rec7 2 ""; rec7 1 topicURL; rec7 3 ""; rec8 2; rec7 1 topicURL; rec7 2 ""].

End Fixtures.

(** ** Notions of the specification *)

(** [z] is the maximum of the numbers [l]. *)
Definition isMaxOf (z : Z) (l : list Z) : Prop :=
  z ∈ l /\ forall x, x ∈ l -> x <= z.

(** The delays in a trace, in order. *)
Definition sleeps (tr : list Event) : list Z :=
  flat_map (fun e => match e with Sleep d => [d] | _ => [] end) tr.

(** The side-effecting external calls: Discourse post, comment, close and
    lock. *)
Definition isSideEffect (e : Event) : bool :=
  match e with
  | DiscoursePost _ _ | DiscourseTopic _ _ _ _ | Comment _ _ | Close _ | Lock _ => true
  | _ => false
  end.

Definition isLogWrite (e : Event) : bool :=
  match e with
  | LogWrite _ => true
  | _ => false
  end.

(** Did the world answer the call [e], made after the history [h], with
    an error?  Delays and log writes in the trace are no calls. *)
Definition callFailed (w : World) (h : list Event) (e : Event) : bool :=
  match e with
  | DiscoursePost i mode =>
      match discoursePost w h i mode with inr _ => true | inl _ => false end
  | DiscourseTopic i title body cat =>
      match discourseTopic w h i title body cat with inr _ => true | inl _ => false end
  | Comment i body =>
      match commentIssue w h i body with Some _ => true | None => false end
  | Close i =>
      match closeIssue w h i with Some _ => true | None => false end
  | Lock i =>
      match lockIssue w h i with Some _ => true | None => false end
  | _ => false
  end.

(** Of the events [evs] that followed the history [base], a failed call
    can only be the last one, and then [failed] is set. *)
Definition nothingAfterFailure (w : World) (base evs : list Event) (failed : bool) : Prop :=
  forall h e rest,
    evs = (h ++ e :: rest)%list ->
    callFailed w (base ++ h) e = true ->
    rest = [] /\ failed = true.

(** Is the [error] not [nil]? *)
Definition answered (e : option string) : bool :=
  match e with Some _ => true | None => false end.

Definition isReturnErr {A} (r : Res A) : bool :=
  match r with
  | Jump (ReturnErr _) => true
  | _ => false
  end.

(** A computation that only adds to the trace, and that returns an error
    as soon as one of its calls fails. *)
Definition stopsAtFailure {X A} (w : World) (c : M (X * St) A) : Prop :=
  forall s r s',
    c s = (r, s') ->
    exists evs,
      trace (snd s') = (trace (snd s) ++ evs)%list /\
      nothingAfterFailure w (trace (snd s)) evs (isReturnErr r).

(** A world in which GitHub and the file system do what they are asked
    for issue [i]. *)
Definition succeedsOn (w : World) (i : Issue) : Prop :=
  (forall h body, commentIssue w h i body = None) /\
  (forall h, closeIssue w h i = None) /\
  (forall h, lockIssue w h i = None) /\
  (forall h c d, writeErr w h c d = None) /\
  (forall h c, syncErr w h c = None).

(** The bodies of the comments posted, in order. *)
Definition commentBodies (tr : list Event) : list string :=
  flat_map (fun e => match e with Comment _ body => [body] | _ => [] end) tr.

(** The records of a log that belong to the issue with URL [u]. *)
Definition recordsOf (u : string) (all : list MainGo.RestoredIssue)
  : list MainGo.RestoredIssue :=
  filter (fun r => MainGo.URL r = u) all.

(** The records of a log: what the lines of the log that are not empty
    parse to, in the order of the lines. *)
Definition recordsIn (log : string) (all : list MainGo.RestoredIssue) : Prop :=
  Forall2 (fun l r => exists reports, MainGo.parseLine l = Ret (reports, r))
    (filter (fun l => l <> "") (Split log (ascii_of_nat 10))) all.

(** [c'] is [c] with something added at its end. *)
Definition extends (c c' : string) : Prop := exists suffix, c' = c +:+ suffix.

(** From a state in [P], the computation [c] ends in [QV] when it reaches
    its end and in [QJ] when it leaves early. *)
Definition triple {S A} (P : S -> Prop) (c : M S A)
    (QV : A -> S -> Prop) (QJ : Flow -> S -> Prop) : Prop :=
  forall s r s',
    P s -> c s = (r, s') ->
    match r with
    | Val a => QV a s'
    | Jump fl => QJ fl s'
    end.

(** The log could not be written: some write or sync is refused. *)
Definition logFails (w : World) : Prop :=
  (exists h c d e, writeErr w h c d = Some e) \/ (exists h c e, syncErr w h c = Some e).

(** The call [client.Issues.Get] for a restored issue. *)
Definition getOf (i : MainGo.RestoredIssue) : Event :=
  IssuesGet (MainGo.Owner i) (MainGo.Repo i) (MainGo.IssNum i).

(** The text of a checkpoint without its line feed, and a log made of
    checkpoints of one URL, each a step and an extra. *)
Definition lineBody (url : string) (cp : Z * string) : string :=
  url +:+ " " +:+ Itoa (fst cp) +:+ " " +:+ snd cp.

Fixpoint linesOf (url : string) (cps : list (Z * string)) : string :=
  match cps with
  | [] => ""
  | cp :: rest => (lineBody url cp +:+ nl) +:+ linesOf url rest
  end.

(** The checkpoints a log may hold: the step is an [int]; the extra is
    one field, and empty unless the step is DiscourseDone. *)
Definition checkpointOk (cp : Z * string) : Prop :=
  intMin <= fst cp <= intMax /\
  hasByte (snd cp) " " = false /\ hasByte (snd cp) (ascii_of_nat 10) = false /\
  (fst cp <> MainGo.discourseDone -> snd cp = "").

(** The state after a checkpoint was written through an appending handle. *)
Definition afterCheckpoint (url : string) (cp : Z * string) (st : St) : St :=
  mkSt (trace st ++ [LogWrite (lineBody url cp +:+ nl)])
       (Some (content st +:+ lineBody url cp +:+ nl))
       (String.length (content st +:+ lineBody url cp +:+ nl)).

(** The last two fields of a URL between slashes: owner and name. *)
Definition lastTwo (url : string) : option (string * string) :=
  match rev (Split url "/") with
  | name :: owner :: _ => Some (owner, name)
  | _ => None
  end.

(** The issues of an answer of [ListByRepo]: none when it is an error. *)
Definition issuesOf (answer : list Issue + string) : list Issue :=
  match answer with
  | inl issues => issues
  | inr _ => []
  end.

(** Is the status code one of 200-299? *)
Definition is2xx (code : Z) : bool := (200 <=? code) && (code <? 300).

(** More worlds for the examples. *)
Module MoreFixtures.
Import Fixtures.

(** Like [calm], but the disk is full: no write to the log succeeds. *)
Definition diskFull : World := {|
  now := now calm;
  threeMonthsBefore := threeMonthsBefore calm;
  discoursePost := discoursePost calm;
  discourseTopic := discourseTopic calm;
  commentIssue := commentIssue calm;
  closeIssue := closeIssue calm;
  lockIssue := lockIssue calm;
  issuesGet := issuesGet calm;
  listByRepo := listByRepo calm;
  openLogErr := openLogErr calm;
  openErrTxtErr := openErrTxtErr calm;
  readLogErr := readLogErr calm;
  writeErr := fun _ _ _ => Some "no space left on device";
  syncErr := syncErr calm
|}.

(** Like [calm], but GitHub answers no [Get]. *)
Definition getFails : World := {|
  now := now calm;
  threeMonthsBefore := threeMonthsBefore calm;
  discoursePost := discoursePost calm;
  discourseTopic := discourseTopic calm;
  commentIssue := commentIssue calm;
  closeIssue := closeIssue calm;
  lockIssue := lockIssue calm;
  issuesGet := fun _ _ _ _ => GetError "timeout";
  listByRepo := listByRepo calm;
  openLogErr := openLogErr calm;
  openErrTxtErr := openErrTxtErr calm;
  readLogErr := readLogErr calm;
  writeErr := writeErr calm;
  syncErr := syncErr calm
|}.

(** Like [calm], with two repositories: the first has the stale issue 8
    and a pull request, the second is empty. *)
Definition twoRepos : World := {|
  now := now calm;
  threeMonthsBefore := threeMonthsBefore calm;
  discoursePost := discoursePost calm;
  discourseTopic := discourseTopic calm;
  commentIssue := commentIssue calm;
  closeIssue := closeIssue calm;
  lockIssue := lockIssue calm;
  issuesGet := issuesGet calm;
  listByRepo := fun _ _ name => if String.eqb name "r" then [pull9; stale8] else [];
  openLogErr := openLogErr calm;
  openErrTxtErr := openErrTxtErr calm;
  readLogErr := readLogErr calm;
  writeErr := writeErr calm;
  syncErr := syncErr calm
|}.

(** A log with the records [replayedSwapped]: two runs over issue 7, the
    first two lines exchanged, and a line of issue 8. *)
Definition logReplayedSwapped : string :=
  (url7 +:+ " 2 " +:+ nl) +:+ (url7 +:+ " 1 " +:+ topicURL +:+ nl) +:+
  (url7 +:+ " 3 " +:+ nl) +:+ (url8 +:+ " 2 " +:+ nl) +:+
  (url7 +:+ " 1 " +:+ topicURL +:+ nl) +:+ (url7 +:+ " 2 " +:+ nl).

(** A step of the spec file whose latest version has the source URL
    [url]. *)
Definition stepAt (url : string) : MainSetup.Step :=
  MainSetup.mkStep "1.0.0"
    {[ "1.0.0" := {[ "source_code_url" := MainSetup.JString url ]} ]}.

Definition specSteps : list MainSetup.Step :=
  [stepAt "https://github.com/bitrise-io/steps-script";
   stepAt "https://github.com/someone-else/steps-other";
   stepAt "https://github.com/bitrise-steplib/steps-git-clone"].

(** A GitHub that lists issue 7 for the repository [r], issue 8 for
    [s], and fails for every other one. *)
Definition listing (h : list Event) (owner name : string) : list Issue + string :=
  if String.eqb name "r" then inl [active7]
  else if String.eqb name "s" then inl [stale8]
  else inr "404 Not Found".

(** A transport that refuses to make a request for an address with a
    space in it and answers every request it gets with [code]. *)
Definition answering (code : Z) : GithubPkg.Transport :=
  GithubPkg.mkTransport
    (fun _ url => if hasByte url " " then Some "invalid character in URL" else None)
    (fun _ _ => inl (GithubPkg.mkResponse code (inl "{}"))).

End MoreFixtures.

(** * Properties *)

(** ** Go's library *)

Section GoLibFacts.

Example Split_trailing : Split "a b " " " = ["a"; "b"; ""].
Proof. reflexivity. Qed.

Example Split_empty : Split "" "/" = [""].
Proof. reflexivity. Qed.

Example Atoi_ok : Atoi "42" = (42, None) /\ Atoi "-7" = (-7, None) /\ Atoi "+7" = (7, None).
Proof. repeat split; reflexivity. Qed.

(** Digits that overflow before a byte that is no digit: the range error
    comes first. *)
Example Atoi_overflow_first :
  Atoi "99999999999999999999x" = (intMax, Some ErrRange) /\
  Atoi "-99999999999999999999x" = (intMin, Some ErrRange) /\
  Atoi "-9223372036854775808" = (intMin, None).
Proof. vm_compute. repeat split; reflexivity. Qed.

Example Atoi_bad :
  Atoi "x" = (0, Some ErrSyntax) /\ Atoi "" = (0, Some ErrSyntax) /\
  Atoi "4 " = (0, Some ErrSyntax) /\
  Atoi "9223372036854775808" = (intMax, Some ErrRange).
Proof. repeat split; reflexivity. Qed.

Example Itoa_ex : Itoa 1203 = "1203" /\ Itoa (-7) = "-7" /\ Itoa 0 = "0".
Proof. repeat split; reflexivity. Qed.

Example Sprintf_ex :
  Sprintf "%s %d %s!" [AStr "u"; AInt 3; AStr ""] = "u 3 !".
Proof. reflexivity. Qed.

Example Sprintf_missing : Sprintf "Hi %s!" [] = "Hi %!s(MISSING)!".
Proof. reflexivity. Qed.

Example Sprintf_extra : Sprintf "Hi!" [AStr "a"; AInt 2] = "Hi!%!(EXTRA string=a, int=2)".
Proof. reflexivity. Qed.

Lemma app_cons (c : ascii) (a b : string) : String c a +:+ b = String c (a +:+ b).
Proof. reflexivity. Qed.

Lemma app_empty_l (s : string) : "" +:+ s = s.
Proof. reflexivity. Qed.

Lemma app_empty_r (s : string) : s +:+ "" = s.
Proof.
  induction s as [|c s IH]; [reflexivity |].
  rewrite app_cons. congruence.
Qed.

Lemma app_assoc_s (a b c : string) : (a +:+ b) +:+ c = a +:+ b +:+ c.
Proof.
  induction a as [|x a IH]; [reflexivity |].
  rewrite !app_cons. congruence.
Qed.

Lemma hasByte_app (a b : string) (c : ascii) :
  hasByte (a +:+ b) c = hasByte a c || hasByte b c.
Proof.
  induction a as [|x a IH]; [reflexivity |].
  rewrite app_cons. cbn [hasByte]. rewrite IH. now rewrite orb_assoc.
Qed.

(** A string without the separator is one field. *)
Lemma Split_no_sep (s : string) (sep : ascii) :
  hasByte s sep = false -> Split s sep = [s].
Proof.
  induction s as [|c s IH]; simpl; [reflexivity |].
  intros H. apply orb_false_iff in H as [Hc Hs].
  rewrite Hc, (IH Hs). reflexivity.
Qed.

(** The first separator ends the first field. *)
Lemma Split_app_sep (a b : string) (sep : ascii) :
  hasByte a sep = false ->
  Split (a +:+ String sep b) sep = a :: Split b sep.
Proof.
  induction a as [|c a IH].
  - intros _. rewrite app_empty_l. cbn [Split]. now rewrite Ascii.eqb_refl.
  - intros H. cbn [hasByte] in H. apply orb_false_iff in H as [Hc Ha].
    rewrite app_cons. cbn [Split]. rewrite Hc, (IH Ha). reflexivity.
Qed.

Lemma Split_nonempty (s : string) (sep : ascii) : Split s sep <> [].
Proof.
  destruct s as [|c s]; simpl; [discriminate |].
  destruct (Ascii.eqb c sep); [discriminate |].
  destruct (Split s sep); discriminate.
Qed.

Lemma digit_roundtrip (d : Z) :
  0 <= d < 10 -> isDigit (digitChar d) = true /\ digitVal (digitChar d) = d.
Proof.
  intros H.
  assert (d = 0 \/ d = 1 \/ d = 2 \/ d = 3 \/ d = 4 \/ d = 5 \/ d = 6 \/ d = 7
          \/ d = 8 \/ d = 9) as Hd by lia.
  repeat (destruct Hd as [-> | Hd]; [split; reflexivity |]).
  subst. split; reflexivity.
Qed.

(** Reading back the digits that [formatBits] put in front of [acc]. *)
Lemma parseDigits_formatBits (fuel : nat) :
  forall (u : Z) (acc : string),
    0 <= u < 10 ^ Z.of_nat fuel ->
    u <= maxUint64 ->
    parseDigits 0 (formatBits fuel u acc) = parseDigits u acc.
Proof.
  assert (forall (u : Z) (acc : string),
             0 <= u <= maxUint64 ->
             parseDigits (u / 10) (String (digitChar (u mod 10)) acc)
             = parseDigits u acc) as Hstep.
  { intros u acc Hu.
    assert (0 <= u mod 10 < 10) as Hm by (apply Z.mod_pos_bound; lia).
    destruct (digit_roundtrip _ Hm) as [Hd Hv].
    assert (u = 10 * (u / 10) + u mod 10) as Hdiv by (apply Z.div_mod; lia).
    cbn [parseDigits]. rewrite Hd, Hv.
    assert (u / 10 <= maxUint64 / 10) as Hle by (apply Z.div_le_mono; lia).
    destruct (maxUint64 / 10 + 1 <=? u / 10) eqn:H1; [apply Z.leb_le in H1; lia |].
    destruct (maxUint64 <? 10 * (u / 10) + u mod 10) eqn:H2;
      [apply Z.ltb_lt in H2; lia |].
    f_equal. lia. }
  induction fuel as [|fuel IH]; intros u acc Hu Hmax.
  - simpl in Hu. assert (u = 0) as -> by lia. reflexivity.
  - cbn [formatBits].
    destruct (u / 10 =? 0) eqn:Hq.
    + apply Z.eqb_eq in Hq. rewrite <- Hq at 1. apply Hstep. lia.
    + rewrite IH.
      * apply Hstep. lia.
      * rewrite Nat2Z.inj_succ, Z.pow_succ_r in Hu by lia.
        split; [apply Z.div_pos; lia |].
        apply Z.div_lt_upper_bound; lia.
      * assert (u / 10 <= u) by (apply Z.div_le_upper_bound; lia). lia.
Qed.

(** [formatBits] starts with a digit. *)
Lemma formatBits_head (fuel : nat) :
  forall (u : Z) (acc : string),
    0 <= u ->
    exists c r, formatBits (S fuel) u acc = String c r /\ isDigit c = true.
Proof.
  induction fuel as [|fuel IH]; intros u acc Hu.
  - cbn [formatBits].
    assert (0 <= u mod 10 < 10) as Hm by (apply Z.mod_pos_bound; lia).
    destruct (digit_roundtrip _ Hm) as [Hd _].
    destruct (u / 10 =? 0); eauto.
  - change (formatBits (S (S fuel)) u acc) with
      (let acc' := String (digitChar (u mod 10)) acc in
       if u / 10 =? 0 then acc' else formatBits (S fuel) (u / 10) acc').
    cbv zeta.
    assert (0 <= u mod 10 < 10) as Hm by (apply Z.mod_pos_bound; lia).
    destruct (digit_roundtrip _ Hm) as [Hd _].
    destruct (u / 10 =? 0); [eauto |].
    apply IH. apply Z.div_pos; lia.
Qed.

Lemma isDigit_not_sign (c : ascii) :
  isDigit c = true -> Ascii.eqb c "-" = false /\ Ascii.eqb c "+" = false.
Proof.
  unfold isDigit. intros H. apply andb_true_iff in H as [H1 H2].
  split; apply Ascii.eqb_neq; intros ->; vm_compute in H1; discriminate.
Qed.

(** [Atoi] reads back what [Itoa] prints, for every [int]. *)
Lemma Atoi_Itoa (n : Z) : intMin <= n <= intMax -> Atoi (Itoa n) = (n, None).
Proof.
  unfold intMin, intMax. intros Hn. unfold Itoa.
  destruct (n <? 0) eqn:Hneg.
  - apply Z.ltb_lt in Hneg.
    destruct (formatBits_head 19 (- n) "" ltac:(lia)) as (c & r & Hf & Hc).
    unfold Atoi. rewrite Ascii.eqb_refl.
    pose proof (parseDigits_formatBits 20 (- n) "" ltac:(lia)
                  ltac:(unfold maxUint64; lia)) as Hp.
    rewrite Hf in *. rewrite Hp. cbn [parseDigits].
    destruct (2 ^ 63 <? - n) eqn:Hr; [apply Z.ltb_lt in Hr; lia |].
    f_equal. lia.
  - apply Z.ltb_ge in Hneg.
    destruct (formatBits_head 19 n "" ltac:(lia)) as (c & r & Hf & Hc).
    pose proof (parseDigits_formatBits 20 n "" ltac:(lia)
                  ltac:(unfold maxUint64; lia)) as Hp.
    unfold Atoi. rewrite Hf in *.
    destruct (isDigit_not_sign c Hc) as [-> ->].
    rewrite Hp. cbn [parseDigits].
    destruct (2 ^ 63 <=? n) eqn:Hr; [apply Z.leb_le in Hr; lia | reflexivity].
Qed.

End GoLibFacts.

Section CheckpointLines.

Lemma len_app_cons (a b : string) (c : ascii) :
  (len (a +:+ String c b) =? 0) = false.
Proof. destruct a; reflexivity. Qed.

Lemma index_lt {A} (l : list A) (i : nat) :
  (i < length l)%nat -> exists x, index l i = Ret x.
Proof.
  intros H. unfold index.
  destruct (lookup_lt_is_Some_2 l i H) as [x ->]. eauto.
Qed.

Lemma formatBits_bytes (fuel : nat) :
  forall (u : Z) (acc : string) (c : ascii),
    0 <= u ->
    hasByte (formatBits fuel u acc) c = true ->
    isDigit c = true \/ hasByte acc c = true.
Proof.
  induction fuel as [|fuel IH]; intros u acc c Hu H; [now right |].
  cbn [formatBits] in H.
  assert (0 <= u mod 10 < 10) as Hm by (apply Z.mod_pos_bound; lia).
  destruct (digit_roundtrip _ Hm) as [Hd _].
  assert (hasByte (String (digitChar (u mod 10)) acc) c = true ->
          isDigit c = true \/ hasByte acc c = true) as Hstep.
  { cbn [hasByte]. intros Hb. apply orb_true_iff in Hb as [Hb | Hb]; [| now right].
    apply Ascii.eqb_eq in Hb. subst c. now left. }
  destruct (u / 10 =? 0); [now apply Hstep |].
  apply IH in H; [| apply Z.div_pos; lia].
  destruct H as [H | H]; [now left | now apply Hstep].
Qed.

(** A printed number holds digits and at most a sign: no space and no
    line feed. *)
Lemma Itoa_no_byte (n : Z) (c : ascii) :
  isDigit c = false -> Ascii.eqb "-" c = false -> hasByte (Itoa n) c = false.
Proof.
  intros Hc Hs. unfold Itoa.
  destruct (hasByte _ c) eqn:Hb; [| reflexivity].
  destruct (n <? 0) eqn:Hn.
  - cbn [hasByte] in Hb. rewrite Hs in Hb. cbn [orb] in Hb.
    apply Z.ltb_lt in Hn.
    apply formatBits_bytes in Hb; [| lia].
    destruct Hb as [Hb | Hb]; [congruence | discriminate].
  - apply Z.ltb_ge in Hn.
    apply formatBits_bytes in Hb; [| lia].
    destruct Hb as [Hb | Hb]; [congruence | discriminate].
Qed.

(** The line of a checkpoint, as [saveState] formats it. *)
Lemma Sprintf_checkpoint (url extra : string) (state : Z) :
  Sprintf ("%s %d %s" +:+ nl) [AStr url; AInt state; AStr extra]
  = (url +:+ " " +:+ Itoa state +:+ " " +:+ extra) +:+ nl.
Proof.
  rewrite !app_assoc_s.
  change (Sprintf ("%s %d %s" +:+ nl) [AStr url; AInt state; AStr extra])
    with (url +:+ String " " (Itoa state +:+ String " " (extra +:+ nl +:+ ""))).
  now rewrite app_empty_r.
Qed.

End CheckpointLines.

(** ** The checkpoint log *)

Section CheckpointStore.
Variable w : World.

(** A checkpoint that was saved puts exactly its line in the log. *)
Lemma saveState_ok (f : OS.File) (i : Issue) (state : Z) (extra : string) (st st' : St) :
  MainGo.saveState w f i state extra st = (None, st') ->
  trace st' = (trace st ++
    [LogWrite ((HTMLURL i +:+ " " +:+ Itoa state +:+ " " +:+ extra) +:+ nl)])%list.
Proof.
  unfold MainGo.saveState. rewrite Sprintf_checkpoint.
  unfold OS.WriteString.
  destruct (writeErr w _ _ _); [discriminate |].
  destruct (OS.written _ _ _ _) as [c' off'].
  destruct (OS.Sync _ _ _); [discriminate |].
  intros [= <-]. reflexivity.
Qed.

(** The line of a checkpoint parses back to the record it was written
    from. *)
Lemma parseLine_checkpoint (url extra : string) (state : Z) :
  hasByte url " " = false ->
  (7 <= length (Split url "/"))%nat ->
  hasByte extra " " = false ->
  intMin <= state <= intMax ->
  (state <> MainGo.discourseDone -> extra = "") ->
  exists reports owner repo num,
    MainGo.parseLine (url +:+ " " +:+ Itoa state +:+ " " +:+ extra)
    = Ret (reports, MainGo.mkRestored url owner repo num state extra).
Proof.
  intros Hurl Hfrag Hextra Hstate Hempty.
  unfold MainGo.parseLine.
  change (url +:+ " " +:+ Itoa state +:+ " " +:+ extra)
    with (url +:+ String " " (Itoa state +:+ String " " extra)).
  rewrite (Split_app_sep url _ " " Hurl).
  rewrite (Split_app_sep (Itoa state) _ " ") by (now apply Itoa_no_byte).
  rewrite (Split_no_sep extra " " Hextra).
  destruct (index_lt (Split url "/") 3 ltac:(lia)) as [owner Ho].
  destruct (index_lt (Split url "/") 4 ltac:(lia)) as [repo Hr].
  destruct (index_lt (Split url "/") 6 ltac:(lia)) as [numField Hn].
  cbn [index lookup list_lookup obind]. rewrite Ho, Hr, Hn. cbn [obind].
  destruct (Atoi numField) as [num numErr].
  rewrite (Atoi_Itoa state Hstate).
  destruct (state =? MainGo.discourseDone) eqn:Hd; cbn [obind].
  - eauto 6.
  - apply Z.eqb_neq in Hd. rewrite (Hempty Hd). eauto 6.
Qed.

(** C7.  Round trip of a checkpoint: when [saveState] has written the
    record (url, step, extra) of an issue whose URL is a GitHub issue URL
    (no space, no line feed, at least seven fields between slashes), with
    an [extra] that holds no space and no line feed and is empty for the
    steps other than DiscourseDone, then the line it put in the log has
    the form [<issueURL> <stepNumber> <extra>], it is what an appending
    handle adds to the file, and reading that line back on resume gives
    one restored issue with the same url, step and extra. *)
Theorem checkpoint_line_roundtrip
    (f : OS.File) (i : Issue) (state : Z) (extra : string) (st st' : St) :
  hasByte (HTMLURL i) " " = false ->
  hasByte (HTMLURL i) (ascii_of_nat 10) = false ->
  (7 <= length (Split (HTMLURL i) "/"))%nat ->
  hasByte extra " " = false ->
  hasByte extra (ascii_of_nat 10) = false ->
  intMin <= state <= intMax ->
  (state <> MainGo.discourseDone -> extra = "") ->
  MainGo.saveState w f i state extra st = (None, st') ->
  exists reports ri,
    let line := (HTMLURL i +:+ " " +:+ Itoa state +:+ " " +:+ extra) +:+ nl in
    trace st' = (trace st ++ [LogWrite line])%list /\
    (OS.append f = true -> content st' = content st +:+ line) /\
    MainGo.restore line = Ret (reports, {[ HTMLURL i := ri ]}) /\
    MainGo.URL ri = HTMLURL i /\ MainGo.Done ri = state /\ MainGo.Extra ri = extra.
Proof.
  intros Hsp Hnl Hfrag Hesp Henl Hstate Hempty Hsave.
  destruct (parseLine_checkpoint (HTMLURL i) extra state Hsp Hfrag Hesp Hstate Hempty)
    as (reports & owner & repo & num & Hparse).
  exists reports, (MainGo.mkRestored (HTMLURL i) owner repo num state extra).
  cbv zeta. split; [exact (saveState_ok f i state extra st st' Hsave) |]. split.
  - intros Happ. revert Hsave. unfold MainGo.saveState.
    rewrite Sprintf_checkpoint. unfold OS.WriteString, OS.written. rewrite Happ.
    destruct (writeErr w _ _ _); [discriminate |].
    destruct (OS.Sync _ _ _); [discriminate |].
    now intros [= <-].
  - split; [| now repeat split].
    unfold MainGo.restore, nl.
    rewrite Split_app_sep.
    + cbn [Split MainGo.restoreLines].
      change (HTMLURL i +:+ " " +:+ Itoa state +:+ " " +:+ extra)
        with (HTMLURL i +:+ String " " (Itoa state +:+ " " +:+ extra)) at 1.
      rewrite len_app_cons, Hparse. cbn [obind fst snd len String.length].
      cbn [Z.of_nat Z.eqb]. unfold MainGo.populate. cbn [MainGo.URL].
      rewrite lookup_empty. now rewrite insert_empty.
    + rewrite !hasByte_app, Hnl, Henl.
      rewrite Itoa_no_byte by reflexivity. reflexivity.
Qed.

End CheckpointStore.

(** The round trip on the checkpoint of issue 7 after its Discourse step. *)
Lemma checkpoint_line_roundtrip_witness :
  let st := Fixtures.withLog "" in
  let st' :=
    snd (MainGo.saveState Fixtures.calm Fixtures.appendHandle Fixtures.active7
           MainGo.discourseDone Fixtures.topicURL st) in
  exists reports ri,
    let line :=
      (Fixtures.url7 +:+ " " +:+ Itoa 1 +:+ " " +:+ Fixtures.topicURL) +:+ nl in
    trace st' = (trace st ++ [LogWrite line])%list /\
    (OS.append Fixtures.appendHandle = true -> content st' = content st +:+ line) /\
    MainGo.restore line = Ret (reports, {[ Fixtures.url7 := ri ]}) /\
    MainGo.URL ri = Fixtures.url7 /\ MainGo.Done ri = 1 /\
    MainGo.Extra ri = Fixtures.topicURL.
Proof.
  cbv zeta.
  apply (checkpoint_line_roundtrip Fixtures.calm Fixtures.appendHandle
           Fixtures.active7 1 Fixtures.topicURL (Fixtures.withLog "")).
  - reflexivity.
  - reflexivity.
  - vm_compute. lia.
  - reflexivity.
  - reflexivity.
  - unfold intMin, intMax. lia.
  - intros H. exfalso. apply H. reflexivity.
  - reflexivity.
Defined.

(** Without the condition on [extra] the round trip fails.  [saveState]
    writes whatever [discourse] returned: a topic URL with a space in it
    is written in full and read back cut at the space; with a line feed
    in it, what follows the line feed is read as a line of its own, and
    resume panics on the fields it does not have. *)
Lemma checkpoint_extra_with_space_is_cut :
  let spaced := "https://discuss.example/t/my topic" in
  let broken := "https://discuss.example/t/my" +:+ nl +:+ "topic" in
  let written := fun extra =>
    MainGo.saveState Fixtures.calm Fixtures.appendHandle Fixtures.active7
      MainGo.discourseDone extra (Fixtures.withLog "") in
  fst (written spaced) = None /\
  content (snd (written spaced)) = (Fixtures.url7 +:+ " 1 " +:+ spaced) +:+ nl /\
  MainGo.restore (content (snd (written spaced)))
  = Ret ([], {[ Fixtures.url7 := Fixtures.rec7 1 "https://discuss.example/t/my" ]}) /\
  fst (written broken) = None /\
  content (snd (written broken)) = (Fixtures.url7 +:+ " 1 " +:+ broken) +:+ nl /\
  MainGo.restore (content (snd (written broken))) = Panic (IndexOutOfRange 3 1).
Proof. vm_compute. repeat split; reflexivity. Qed.

(** ** Folding the log into the last state of each issue *)

Section Fold.
Import MainGo.

Lemma isMaxOf_perm (z : Z) (l l' : list Z) : l ≡ₚ l' -> isMaxOf z l -> isMaxOf z l'.
Proof.
  intros Hp [Hin Hmax]. split.
  - now rewrite <- Hp.
  - intros x Hx. apply Hmax. now rewrite Hp.
Qed.

Lemma isMaxOf_absorb (z a b : Z) (l : list Z) :
  isMaxOf z (Z.max a b :: l) -> isMaxOf z (a :: b :: l).
Proof.
  intros [Hin Hmax]. split.
  - apply elem_of_cons in Hin as [-> | Hin].
    + destruct (Z.max_spec a b) as [[_ ->] | [_ ->]];
        [apply list_elem_of_further |]; apply list_elem_of_here.
    + now do 2 apply list_elem_of_further.
  - intros x Hx.
    assert (Z.max a b <= z) as Hm by (apply Hmax; apply list_elem_of_here).
    apply elem_of_cons in Hx as [-> | Hx]; [lia |].
    apply elem_of_cons in Hx as [-> | Hx]; [lia |].
    apply Hmax. now apply list_elem_of_further.
Qed.

Lemma populate_other (m : gmap string RestoredIssue) (r : RestoredIssue) (u : string) :
  URL r <> u -> populate m r !! u = m !! u.
Proof.
  intros Hne. unfold populate.
  destruct (m !! URL r) as [i|]; [destruct (Done i <? Done r) |];
    try reflexivity; now rewrite lookup_insert_ne.
Qed.

(** One more record of an issue the map knows: the stored step becomes
    the larger of the two, and nothing else of the entry changes. *)
Lemma populate_known (m : gmap string RestoredIssue) (r i : RestoredIssue) :
  m !! URL r = Some i ->
  populate m r !! URL r = Some (setDone i (Z.max (Done i) (Done r))).
Proof.
  intros Hi. unfold populate. rewrite Hi.
  destruct (Done i <? Done r) eqn:Hlt.
  - apply Z.ltb_lt in Hlt. rewrite lookup_insert_eq.
    now rewrite Z.max_r by lia.
  - apply Z.ltb_ge in Hlt. rewrite Hi, Z.max_l by lia.
    now destruct i.
Qed.

Lemma populate_new (m : gmap string RestoredIssue) (r : RestoredIssue) :
  m !! URL r = None -> populate m r !! URL r = Some r.
Proof. intros Hi. unfold populate. rewrite Hi. apply lookup_insert_eq. Qed.

Lemma fold_known (u : string) (all : list RestoredIssue) :
  forall (m : gmap string RestoredIssue) (i : RestoredIssue),
    m !! u = Some i ->
    exists ri, foldl populate m all !! u = Some ri /\
               isMaxOf (Done ri) (Done i :: (Done <$> recordsOf u all)).
Proof.
  induction all as [|r all IH]; intros m i Hi.
  - exists i. split; [exact Hi |]. split; [apply list_elem_of_here |].
    intros x Hx. apply list_elem_of_singleton in Hx. lia.
  - cbn [foldl]. unfold recordsOf. destruct (decide (URL r = u)) as [<- | Hne].
    + rewrite filter_cons_True by reflexivity.
      destruct (IH _ _ (populate_known m r i Hi)) as (ri & Hri & Hmax).
      exists ri. split; [exact Hri |].
      cbn [fmap list_fmap]. now apply isMaxOf_absorb.
    + rewrite filter_cons_False by exact Hne.
      apply IH. now rewrite populate_other.
Qed.

Lemma fold_new (u : string) (all : list RestoredIssue) :
  forall (m : gmap string RestoredIssue),
    m !! u = None ->
    recordsOf u all <> [] ->
    exists ri, foldl populate m all !! u = Some ri /\
               isMaxOf (Done ri) (Done <$> recordsOf u all).
Proof.
  induction all as [|r all IH]; intros m Hm Hrecs; [now destruct Hrecs |].
  cbn [foldl]. unfold recordsOf in *. destruct (decide (URL r = u)) as [<- | Hne].
  - rewrite filter_cons_True by reflexivity.
    exact (fold_known (URL r) all _ r (populate_new m r Hm)).
  - rewrite filter_cons_False in * by exact Hne.
    apply IH; [now rewrite populate_other | exact Hrecs].
Qed.

(** The loop over the lines is this fold, over the records of the lines. *)
Lemma restoreLines_fold (lines : list string) (recs : list RestoredIssue) :
  Forall2 (fun l r => (len l =? 0) = false /\ exists rs, parseLine l = Ret (rs, r))
          lines recs ->
  forall m reports,
    exists reports', restoreLines lines m reports = Ret (reports', foldl populate m recs).
Proof.
  induction 1 as [|l r lines recs [Hlen [rs Hp]] _ IH]; intros m reports.
  - eexists. reflexivity.
  - cbn [restoreLines foldl]. rewrite Hlen, Hp. cbn [obind fst snd]. apply IH.
Qed.

Lemma len_zero (l : string) : (len l =? 0) = true <-> l = "".
Proof.
  unfold len. destruct l as [|c l]; cbn [String.length]; split; intros H;
    try reflexivity; discriminate.
Qed.

(** Reading a log is this fold over its records, from the empty map. *)
Lemma restoreLines_records (lines : list string) :
  forall (all : list RestoredIssue) (m : gmap string RestoredIssue) (reports : list Report),
    Forall2 (fun l r => exists rs, parseLine l = Ret (rs, r))
      (filter (fun l => l <> "") lines) all ->
    exists reports', restoreLines lines m reports = Ret (reports', foldl populate m all).
Proof.
  induction lines as [|l lines IH]; intros all m reports Hall.
  - rewrite filter_nil in Hall. apply Forall2_nil_inv_l in Hall. subst all.
    eexists. reflexivity.
  - cbn [restoreLines]. destruct (len l =? 0) eqn:Hlen.
    + apply len_zero in Hlen. subst l.
      rewrite filter_cons_False in Hall by (intros H; now apply H).
      now apply IH.
    + assert (l <> "") as Hne.
      { intros ->. rewrite (proj2 (len_zero "") eq_refl) in Hlen. discriminate. }
      rewrite filter_cons_True in Hall by exact Hne.
      apply Forall2_cons_inv_l in Hall as (r & all' & [rs Hp] & Hrest & ->).
      rewrite Hp. cbn [obind fst snd foldl]. now apply IH.
Qed.

Lemma restore_records (log : string) (all : list RestoredIssue) :
  recordsIn log all ->
  exists reports, restore log = Ret (reports, foldl populate ∅ all).
Proof. intros H. unfold restore. now apply restoreLines_records. Qed.

(** C5.  Take a log whose records are, in some order, the records [all],
    among them at least one of the issue URL [u]: however the records are
    ordered in the log, reading the log on resume gives a map with an
    entry for [u] whose step is the maximum of the steps of the records
    of [u].  In particular a record never lowers the step already stored:
    after it the stored step is at least what it was and at least the
    record's own. *)
Theorem restored_step_is_maximum
    (u : string) (log : string) (all all' : list RestoredIssue) :
  recordsOf u all <> [] ->
  all' ≡ₚ all ->
  recordsIn log all' ->
  (exists reports m ri,
      restore log = Ret (reports, m) /\ m !! u = Some ri /\
      isMaxOf (Done ri) (Done <$> recordsOf u all)) /\
  (forall (m : gmap string RestoredIssue) (r i : RestoredIssue),
      m !! URL r = Some i ->
      exists i', populate m r !! URL r = Some i' /\
                 Done i <= Done i' /\ Done r <= Done i').
Proof.
  intros Hrecs Hperm Hlog. split.
  - assert (recordsOf u all' ≡ₚ recordsOf u all) as Hp
      by (unfold recordsOf; now rewrite Hperm).
    destruct (restore_records log all' Hlog) as [reports Hres].
    destruct (fold_new u all' ∅ (lookup_empty u)) as (ri & Hri & Hmax).
    + intros Hnil. rewrite Hnil in Hp. symmetry in Hp.
      now apply Permutation_nil_r in Hp.
    + exists reports, (foldl populate ∅ all'), ri.
      split; [exact Hres |]. split; [exact Hri |].
      eapply isMaxOf_perm; [| exact Hmax]. apply fmap_Permutation. exact Hp.
  - intros m r i Hi. eexists. split; [exact (populate_known m r i Hi) |].
    cbn [setDone Done]. lia.
Qed.

End Fold.

(** The log of two runs over issue 7 with its first two lines exchanged:
    the restored step is 3, the maximum of the records in either order. *)
Lemma restored_step_is_maximum_witness :
  (exists reports m ri,
      MainGo.restore MoreFixtures.logReplayedSwapped = Ret (reports, m) /\
      m !! Fixtures.url7 = Some ri /\
      isMaxOf (MainGo.Done ri)
        (MainGo.Done <$> recordsOf Fixtures.url7 Fixtures.replayed)) /\
  (forall (m : gmap string MainGo.RestoredIssue) (r i : MainGo.RestoredIssue),
      m !! MainGo.URL r = Some i ->
      exists i', MainGo.populate m r !! MainGo.URL r = Some i' /\
                 MainGo.Done i <= MainGo.Done i' /\ MainGo.Done r <= MainGo.Done i').
Proof.
  apply (restored_step_is_maximum Fixtures.url7 MoreFixtures.logReplayedSwapped
           Fixtures.replayed Fixtures.replayedSwapped).
  - vm_compute. discriminate.
  - apply perm_swap.
  - unfold recordsIn. vm_compute. repeat constructor; eexists; reflexivity.
Defined.

Example restored_step_replayed :
  MainGo.Done <$> (foldl MainGo.populate ∅ Fixtures.replayed !! Fixtures.url7) = Some 3.
Proof. vm_compute. reflexivity. Qed.

(** ** The end of [main] in the mode "continue" *)

Section ContinueMode.
Import MainGo.
Variable w : World.

(** The mode switch leaves the pointer [stats] nil in the mode
    "continue", whatever the log holds. *)
Lemma modeSwitch_continue_nil (rangeOrder : list RestoredIssue -> list RestoredIssue)
    (baseRepos : list Repository) (f : OS.File) (st st' : St) (stats : option RunStats) :
  modeSwitch w rangeOrder "continue" baseRepos f st = (Ret stats, st') ->
  stats = None.
Proof.
  unfold modeSwitch. cbn [String.eqb Ascii.eqb Bool.eqb orb].
  destruct (readLogErr w (disk st)); [discriminate |].
  destruct (restore (content st)) as [[reports issueStates] | c | p];
    [| discriminate | discriminate].
  now intros [= <- _].
Qed.

(** C10.  In the mode "continue" the pointer [stats], declared nil before
    the mode switch, is not assigned: a run that opens its files and gets
    through the mode switch comes to the last statements of [main] with a
    nil pointer, and [main] ends in a nil dereference instead of printing
    the totals. *)
Theorem continue_mode_ends_in_nil_dereference
    (rangeOrder : list RestoredIssue -> list RestoredIssue)
    (baseRepos : list Repository) (f : OS.File) (st st1 st2 : St)
    (stats : option RunStats) :
  openLogErr w (disk st) = None ->
  OS.OpenFile logFlags st = Some (f, st1) ->
  openErrTxtErr w = None ->
  modeSwitch w rangeOrder "continue" baseRepos f st1 = (Ret stats, st2) ->
  stats = None /\
  main w rangeOrder "continue" baseRepos st = (Panic NilDereference, st2).
Proof.
  intros Hopen Hfile Herr Hswitch.
  pose proof (modeSwitch_continue_nil _ _ _ _ _ _ Hswitch) as ->.
  split; [reflexivity |].
  unfold main. now rewrite Hopen, Hfile, Herr, Hswitch.
Qed.

(** In the mode "continue", [main] never gets to print the totals. *)
Lemma continue_mode_never_reports
    (rangeOrder : list RestoredIssue -> list RestoredIssue)
    (baseRepos : list Repository) (st : St) (out : list string) :
  fst (main w rangeOrder "continue" baseRepos st) <> Ret out.
Proof.
  unfold main.
  destruct (openLogErr w (disk st)); [discriminate |].
  destruct (OS.OpenFile logFlags st) as [[f st1] |]; [| discriminate].
  destruct (openErrTxtErr w); [discriminate |].
  destruct (modeSwitch w rangeOrder "continue" baseRepos f st1) as [[stats | c | p] st2] eqn:Hs;
    [| discriminate | discriminate].
  now rewrite (modeSwitch_continue_nil _ _ _ _ _ _ Hs).
Qed.

End ContinueMode.

(** Resuming from a log that holds one checkpoint of issue 7. *)
Lemma continue_mode_ends_in_nil_dereference_witness :
  exists st2,
    MainGo.main Fixtures.calm Fixtures.asListed "continue" []
      (Fixtures.withLog Fixtures.logAtCommentDone)
    = (Panic NilDereference, st2).
Proof.
  eexists.
  refine (proj2 (continue_mode_ends_in_nil_dereference Fixtures.calm Fixtures.asListed []
                   Fixtures.appendHandle (Fixtures.withLog Fixtures.logAtCommentDone)
                   _ _ _ _ _ _ _)).
  - reflexivity.
  - reflexivity.
  - reflexivity.
  - vm_compute. reflexivity.
Defined.

(** ** Resuming an issue *)

Section Resume.
Import MainGo.
Variable w : World.

Lemma saveState_trace (f : OS.File) (i : Issue) (state : Z) (extra : string) (st : St) :
  exists evs, trace (snd (saveState w f i state extra st)) = (trace st ++ evs)%list /\
              forallb isLogWrite evs = true.
Proof.
  unfold saveState, OS.WriteString.
  destruct (writeErr w _ _ _).
  - exists []. now rewrite app_nil_r.
  - destruct (OS.written _ _ _ _) as [c' off'].
    destruct (OS.Sync _ _ _); eexists; split; reflexivity.
Qed.

(** Entered below the comment step, the resume path only writes to the
    log: whatever the world and the issue, it makes no call at all. *)
Lemma continueFrom_writes_only (f : OS.File) (i : RestoredIssue) (iss : Issue) (st : St) :
  Done i <> discourseDone ->
  exists evs, trace (continueFrom w f i iss st) = (trace st ++ evs)%list /\
              forallb isLogWrite evs = true.
Proof.
  intros Hd. unfold continueFrom, caseCommentDone, caseCloseDone.
  destruct (Done i =? discourseDone) eqn:H1; [apply Z.eqb_eq in H1; contradiction |].
  destruct (Done i =? commentDone).
  - destruct (saveState_trace f iss closeDone "" st) as (e1 & He1 & H1').
    destruct (saveState_trace f iss lockDone "" (snd (saveState w f iss closeDone "" st)))
      as (e2 & He2 & H2').
    exists (e1 ++ e2)%list. split.
    + rewrite He2, He1. now rewrite <- app_assoc.
    + now rewrite forallb_app, H1', H2'.
  - destruct (Done i =? closeDone).
    + apply saveState_trace.
    + exists []. now rewrite app_nil_r.
Qed.

End Resume.

(** C3.  What the resume branch does for an issue restored at CommentDone
    (the log holds [<url> 2 ] for issue 7, which is still open): it
    fetches the issue and writes the checkpoints CloseDone and LockDone,
    and calls neither close nor lock, which are commented out in the
    source; no comment is posted and no Discourse topic made. *)
Theorem resume_at_commentDone_skips_close_and_lock :
  let st' :=
    snd (MainGo.main Fixtures.calm Fixtures.asListed "continue" []
           (Fixtures.withLog Fixtures.logAtCommentDone)) in
  trace st' = [IssuesGet "o" "r" 7;
               LogWrite (Fixtures.url7 +:+ " 3 " +:+ nl);
               LogWrite (Fixtures.url7 +:+ " 4 " +:+ nl)] /\
  content st' = Fixtures.logAtCommentDone +:+ (Fixtures.url7 +:+ " 3 " +:+ nl)
                +:+ (Fixtures.url7 +:+ " 4 " +:+ nl) /\
  filter isSideEffect (trace st') = [].
Proof. vm_compute. repeat split; reflexivity. Qed.

(** An issue restored at LockDone: it is fetched, and nothing else
    happens. *)
Example resume_at_lockDone :
  trace (snd (MainGo.main Fixtures.calm Fixtures.asListed "continue" []
                (Fixtures.withLog (Fixtures.url7 +:+ " 4 " +:+ nl))))
  = [IssuesGet "o" "r" 7].
Proof. vm_compute. reflexivity. Qed.

(** C6.  What resume does with malformed lines.  A step that is not a
    number is reported, and the line still gives a restored issue, at step
    0; likewise an issue number that is not a number gives a restored
    issue with number 0; a line with too few fields stops the whole pass
    with an index-out-of-range panic, although a good line follows. *)
Theorem malformed_lines_are_not_skipped :
  MainGo.restore (Fixtures.url7 +:+ " x " +:+ nl)
  = Ret ([MainGo.CouldNotReadStoredState "x" ErrSyntax],
         {[ Fixtures.url7 := MainGo.mkRestored Fixtures.url7 "o" "r" 7 0 "" ]}) /\
  MainGo.restore ("https://github.com/o/r/issues/x 2 " +:+ nl)
  = Ret ([MainGo.CouldNotReadStoredState "x" ErrSyntax],
         {[ "https://github.com/o/r/issues/x" :=
              MainGo.mkRestored "https://github.com/o/r/issues/x" "o" "r" 0 2 "" ]}) /\
  MainGo.restore ("garbage" +:+ nl +:+ Fixtures.logAtCommentDone)
  = Panic (IndexOutOfRange 3 1) /\
  MainGo.restore (Fixtures.url7 +:+ nl +:+ Fixtures.logAtCommentDone)
  = Panic (IndexOutOfRange 1 1).
Proof. vm_compute. repeat split; reflexivity. Qed.

(** Well-formed lines next to an empty line: the empty line is skipped. *)
Example restore_skips_empty_lines :
  MainGo.restore (nl +:+ Fixtures.logAtCommentDone)
  = Ret ([], {[ Fixtures.url7 := Fixtures.rec7 2 "" ]}).
Proof. vm_compute. reflexivity. Qed.

(** ** The run modes *)

Section RunModeFacts.
Import RunModes.
Variable w : World.

Lemma dryRunLoop_trace (run : dryRun) (issues : list Issue) :
  forall st,
    trace (dryRunLoop w run issues st)
    = (trace st ++ repeat (Sleep 1001000) (length issues))%list.
Proof.
  induction issues as [|i issues IH]; intros st.
  - cbn [dryRunLoop length repeat]. now rewrite app_nil_r.
  - cbn [dryRunLoop length repeat]. rewrite IH.
    unfold dryRun_process, callSleep, emit. cbn [snd trace].
    now rewrite <- app_assoc.
Qed.

(** A dry run makes no call at all: it only sleeps. *)
Lemma dryRun_no_side_effect (run : dryRun) (issues : list Issue)
    (unfinished : option Issue) (st : St) :
  filter isSideEffect (trace (snd (dryRun_run w run issues unfinished st)))
  = filter isSideEffect (trace st).
Proof.
  unfold dryRun_run. cbn [snd]. rewrite dryRunLoop_trace, filter_app.
  assert (filter isSideEffect (repeat (Sleep 1001000) (length issues)) = []) as ->.
  { induction (length issues) as [|n IH]; [reflexivity |].
    cbn [repeat]. now rewrite filter_cons_False by (now intros H). }
  now rewrite app_nil_r.
Qed.

(** C4.  The stats a dry run returns.  [process] has a value receiver, so
    its increments are made on a copy; the run made by [getRunMode]
    returns all counters at zero for every list of issues, here for a list
    with one pull request, one active and one stale issue, although the
    copy inside [process] did count the pull request. *)
Theorem dry_run_returns_zero_stats :
  getRunMode "dry" = Some (inl Fixtures.dry0) /\
  (forall (issues : list Issue) (unfinished : option Issue) (st : St),
      fst (dryRun_run w Fixtures.dry0 issues unfinished st) = (mkStats 0 0 0 0, None)) /\
  fst (dryRun_run Fixtures.calm Fixtures.dry0
         [Fixtures.pull9; Fixtures.active7; Fixtures.stale8] None Fixtures.fresh)
  = (mkStats 0 0 0 0, None) /\
  dryRunProcessCopy Fixtures.calm Fixtures.dry0 Fixtures.pull9 Fixtures.fresh
  = mkDry (mkStats 0 0 0 1).
Proof. repeat split. Qed.

(** C9.  The delay between issues.  A dry run sleeps once after every
    issue, each time for [time.Millisecond + 1000] nanoseconds: a
    millisecond and a microsecond, so that 999 of these delays together
    are less than one second. *)
Theorem delay_is_one_millisecond
    (run : dryRun) (issues : list Issue) (unfinished : option Issue) (st : St) :
  trace (snd (dryRun_run w run issues unfinished st))
  = (trace st ++ repeat (Sleep (time.Millisecond + 1000)) (length issues))%list /\
  time.Millisecond + 1000 = 1001000 /\
  999 * (time.Millisecond + 1000) < time.Second.
Proof.
  split; [apply dryRunLoop_trace |].
  split; [reflexivity | reflexivity].
Qed.

End RunModeFacts.

(** The other two loops sleep for the same time: [process] of main.go
    before every issue, the live run after every issue that went through. *)
Example delays_of_process_and_live_run :
  sleeps (trace (snd (MainGo.process Fixtures.commentFailsOn7
                        [Fixtures.pull9; Fixtures.active7; Fixtures.stale8]
                        Fixtures.appendHandle "migrate" (Fixtures.withLog ""))))
  = [1001000; 1001000; 1001000] /\
  sleeps (trace (snd (RunModes.liveRun_run Fixtures.calm Fixtures.cfg Fixtures.live0
                        [Fixtures.pull9; Fixtures.active7; Fixtures.stale8] None
                        Fixtures.fresh)))
  = [1001000; 1001000; 1001000].
Proof. vm_compute. split; reflexivity. Qed.

(** The handle of main.go is opened with [O_APPEND]: every write through
    it leaves what was in the log and adds the data at its end. *)
Lemma main_log_is_appended (w : World) (st st1 st2 : St) (f : OS.File) (data : string) :
  OS.OpenFile MainGo.logFlags st = Some (f, st1) ->
  OS.WriteString w f data st1 = (None, st2) ->
  content st1 = content st /\ content st2 = content st1 +:+ data.
Proof.
  unfold OS.OpenFile, MainGo.logFlags. cbn [OS.O_APPEND OS.O_CREATE OS.O_TRUNC].
  intros Hopen Hwrite.
  assert (f = OS.mkFile true /\ content st1 = content st) as [-> Hc].
  { unfold content. destruct (disk st); injection Hopen as <- <-; now split. }
  split; [exact Hc |].
  unfold OS.WriteString, OS.written in Hwrite. cbn [OS.append] in Hwrite.
  destruct (writeErr w _ _ _); [discriminate |].
  now injection Hwrite as <-.
Qed.


(** ** The comment templates *)

Section Templates.

(** The templates of the two files are the same text. *)
Lemma templates_agree :
  MainGo.activeTpl = RunModes.activeTpl /\ MainGo.staleTpl = RunModes.staleTpl.
Proof. split; reflexivity. Qed.

(** The active template filled with a handle and a topic URL. *)
Lemma activeTpl_filled (login url : string) :
  Sprintf RunModes.activeTpl [AStr login; AStr url]
  = "Hi " +:+ login +:+ "! We are migrating our GitHub issues to Discourse (https://discuss.bitrise.io/c/issues/build-issues). From now on, you can track this issue at: " +:+ url.
Proof. rewrite <- (app_empty_r url) at 2. reflexivity. Qed.

(** The stale template filled with a handle. *)
Lemma staleTpl_filled (login : string) :
  Sprintf RunModes.staleTpl [AStr login]
  = "Hi " +:+ login +:+ "! We are migrating our GitHub issues to Discourse (https://discuss.bitrise.io/c/issues/build-issues). Because this issue has been inactive for more than three months, we will be closing it. If you feel it is still relevant, please open a ticket on Discourse!".
Proof. reflexivity. Qed.

End Templates.

(** C2.  The comments that [process] of main.go posts.  For the active
    issue 7 it fills the active template with the topic URL alone, so the
    URL stands where the handle belongs and the second verb has no
    operand; for the stale issue 8 it fills the stale template with no
    operand at all.  Neither body is the template filled with the author's
    handle (and the topic URL). *)
Theorem process_comment_bodies_lack_the_handle :
  commentBodies (trace (snd (MainGo.process Fixtures.calm [Fixtures.active7]
                               Fixtures.appendHandle "migrate" (Fixtures.withLog ""))))
  = ["Hi https://discuss.example/t/42! We are migrating our GitHub issues to Discourse (https://discuss.bitrise.io/c/issues/build-issues). From now on, you can track this issue at: %!s(MISSING)"] /\
  commentBodies (trace (snd (MainGo.process Fixtures.calm [Fixtures.stale8]
                               Fixtures.appendHandle "migrate" (Fixtures.withLog ""))))
  = ["Hi %!s(MISSING)! We are migrating our GitHub issues to Discourse (https://discuss.bitrise.io/c/issues/build-issues). Because this issue has been inactive for more than three months, we will be closing it. If you feel it is still relevant, please open a ticket on Discourse!"] /\
  Sprintf MainGo.activeTpl [AStr "alice"; AStr Fixtures.topicURL]
  = "Hi alice! We are migrating our GitHub issues to Discourse (https://discuss.bitrise.io/c/issues/build-issues). From now on, you can track this issue at: https://discuss.example/t/42" /\
  Sprintf MainGo.staleTpl [AStr "bob"]
  = "Hi bob! We are migrating our GitHub issues to Discourse (https://discuss.bitrise.io/c/issues/build-issues). Because this issue has been inactive for more than three months, we will be closing it. If you feel it is still relevant, please open a ticket on Discourse!".
Proof. vm_compute. repeat split; reflexivity. Qed.

(** The live run mode on the same two issues posts the filled templates. *)
Example liveRun_comment_bodies :
  commentBodies (trace (snd (RunModes.liveRun_run Fixtures.calm Fixtures.cfg Fixtures.live0
                               [Fixtures.active7; Fixtures.stale8] None Fixtures.fresh)))
  = [Sprintf RunModes.activeTpl [AStr "alice"; AStr Fixtures.topicURL];
     Sprintf RunModes.staleTpl [AStr "bob"]].
Proof. vm_compute. reflexivity. Qed.

(** ** A failed call ends the live run *)

Section Halting.
Variable w : World.

Lemma nothingAfterFailure_nil (base : list Event) (b : bool) :
  nothingAfterFailure w base [] b.
Proof. intros h e rest H. now destruct h. Qed.

Lemma nothingAfterFailure_one (base : list Event) (e : Event) :
  nothingAfterFailure w base [e] (callFailed w base e).
Proof.
  intros h e' rest H Hf. destruct h as [|x h].
  - injection H as <- <-. rewrite app_nil_r in Hf. now split.
  - injection H as _ H. now destruct h.
Qed.

Lemma nothingAfterFailure_app (base evs1 evs2 : list Event) (b : bool) :
  nothingAfterFailure w base evs1 false ->
  nothingAfterFailure w (base ++ evs1) evs2 b ->
  nothingAfterFailure w base (evs1 ++ evs2) b.
Proof.
  intros H1 H2 h e rest Heq Hf.
  symmetry in Heq. apply app_eq_app in Heq as [l [[-> Hl] | [-> Hl]]].
  - apply (H2 l e rest Hl). now rewrite <- app_assoc.
  - destruct l as [|x l].
    + cbn [app] in Hl. subst evs2. apply (H2 [] e rest eq_refl).
      now rewrite !app_nil_r in *.
    + injection Hl as -> ->.
      destruct (H1 h x l eq_refl Hf) as [_ Hfalse]. discriminate.
Qed.

Section Monad.
Context {X : Type}.

Lemma stops_ret {A} (a : A) : stopsAtFailure (X := X) w (ret a).
Proof.
  intros s r s' [= <- <-]. exists []. rewrite app_nil_r.
  split; [reflexivity | apply nothingAfterFailure_nil].
Qed.

Lemma stops_jump {A} (fl : Flow) : stopsAtFailure (X := X) (A := A) w (jump fl).
Proof.
  intros s r s' [= <- <-]. exists []. rewrite app_nil_r.
  split; [reflexivity | apply nothingAfterFailure_nil].
Qed.

Lemma stops_bind {A B} (c : M (X * St) A) (k : A -> M (X * St) B) :
  stopsAtFailure w c -> (forall a, stopsAtFailure w (k a)) ->
  stopsAtFailure w (bind c k).
Proof.
  intros Hc Hk s r s' H. unfold bind in H.
  destruct (c s) as [[a | fl] s1] eqn:Hcs.
  - destruct (Hc _ _ _ Hcs) as (evs1 & Ht1 & Hn1).
    destruct (Hk a _ _ _ H) as (evs2 & Ht2 & Hn2).
    exists (evs1 ++ evs2)%list. split.
    + rewrite Ht2, Ht1. now rewrite <- app_assoc.
    + apply nothingAfterFailure_app; [exact Hn1 | now rewrite <- Ht1].
  - injection H as <- <-. exact (Hc _ _ _ Hcs).
Qed.

End Monad.

End Halting.

Section LiveRunHalts.
Import RunModes.
Variable w : World.
Variable cfg : Config.

Lemma stops_modStats (g : runStats -> runStats) : stopsAtFailure w (modStats g).
Proof.
  intros s r s' [= <- <-]. exists []. cbn [snd]. rewrite app_nil_r.
  split; [reflexivity | apply nothingAfterFailure_nil].
Qed.

Lemma stops_isStale (i : Issue) :
  stopsAtFailure w (lift (fun st => (isStale w i st, st))).
Proof.
  intros s r s' [= <- <-]. exists []. cbn [snd]. rewrite app_nil_r.
  split; [reflexivity | apply nothingAfterFailure_nil].
Qed.

(** A checkpoint adds at most a write to the trace. *)
Lemma stops_checkpoint (c : restoredIssue) :
  stopsAtFailure w (checkpointOrReturn w cfg c).
Proof.
  intros s r s'. unfold checkpointOrReturn, bind, lift, saveState, OS.WriteString.
  destruct (chkptf (fst s)) as [h|].
  - destruct (writeErr w _ _ _).
    + intros [= <- <-]. exists []. cbn [snd]. rewrite app_nil_r.
      split; [reflexivity | apply nothingAfterFailure_nil].
    + destruct (OS.written _ _ _ _) as [c' off'].
      destruct (OS.Sync _ _ _); intros [= <- <-]; eexists; cbn [snd trace];
        (split; [reflexivity |]);
        intros [|x [|y l]] e rest Heq Hf; try discriminate;
        injection Heq as <- <-; discriminate.
  - intros [= <- <-]. exists []. cbn [snd]. rewrite app_nil_r.
    split; [reflexivity | apply nothingAfterFailure_nil].
Qed.

(** A call to GitHub whose error is returned at once. *)
Lemma stops_call {A} (call : St -> option string * St) (ev : Event)
    (k : M (liveRun * St) A) :
  (forall st, snd (call st) = emit ev st) ->
  (forall st, callFailed w (trace st) ev = answered (fst (call st))) ->
  stopsAtFailure w k ->
  stopsAtFailure w (e <- lift call ;; orReturn e ;;; k).
Proof.
  intros Hev Hans Hk s r s' H. unfold bind, lift in H.
  specialize (Hev (snd s)). specialize (Hans (snd s)).
  destruct (call (snd s)) as [e st1]. cbn [fst snd] in *. subst st1.
  destruct e as [err|]; cbn [orReturn jump ret] in H.
  - injection H as <- <-. exists [ev]. split; [reflexivity |].
    cbn [snd isReturnErr]. change true with (answered (Some err)).
    rewrite <- Hans. apply nothingAfterFailure_one.
  - destruct (Hk _ _ _ H) as (evs & Ht & Hn). cbn [snd] in *.
    exists ([ev] ++ evs)%list. split.
    + rewrite Ht. unfold emit. cbn [trace]. now rewrite <- app_assoc.
    + apply nothingAfterFailure_app; [| exact Hn].
      change false with (answered None). rewrite <- Hans.
      apply nothingAfterFailure_one.
Qed.

(** The call to Discourse, whose error is returned at once. *)
Lemma stops_discourse {A} (i : Issue) (title body : string) (cat : Z)
    (k : string -> M (liveRun * St) A) :
  (forall url, stopsAtFailure w (k url)) ->
  stopsAtFailure w
    (r <- lift (callDiscourseTopic w i title body cat) ;;
     match r with
     | inr err => jump (ReturnErr err)
     | inl url => k url
     end).
Proof.
  intros Hk s r s' H. unfold bind, lift, callDiscourseTopic in H.
  pose proof (nothingAfterFailure_one w (trace (snd s))
                (DiscourseTopic i title body cat)) as Hone.
  cbn [callFailed] in Hone.
  destruct (discourseTopic w (trace (snd s)) i title body cat) as [url | err].
  - destruct (Hk url _ _ _ H) as (evs & Ht & Hn). cbn [snd] in *.
    exists ([DiscourseTopic i title body cat] ++ evs)%list. split.
    + rewrite Ht. unfold emit. cbn [trace]. now rewrite <- app_assoc.
    + apply nothingAfterFailure_app; [exact Hone | exact Hn].
  - injection H as <- <-. eexists. split; [reflexivity | exact Hone].
Qed.

(** The body of [liveRun.process] returns an error as soon as a call
    fails, and does nothing after it. *)
Lemma stops_liveRunProcessBody (i : Issue) :
  stopsAtFailure w (liveRunProcessBody w cfg i).
Proof.
  unfold liveRunProcessBody.
  destruct (IsPullRequest i); [apply stops_modStats |].
  apply stops_bind; [apply stops_isStale | intros stale].
  apply stops_bind.
  - destruct (negb stale).
    + apply stops_bind; [apply stops_modStats | intros _].
      apply stops_discourse. intros url.
      apply stops_bind; [apply stops_checkpoint | intros _]. apply stops_ret.
    + apply stops_bind; [apply stops_modStats | intros _]. apply stops_ret.
  - intros [commentTpl commentTplParams].
    apply (stops_call _ (Comment i (Sprintf commentTpl commentTplParams)));
      [reflexivity | reflexivity |].
    apply stops_bind; [apply stops_checkpoint | intros _].
    apply (stops_call _ (Close i)); [reflexivity | reflexivity |].
    apply stops_bind; [apply stops_checkpoint | intros _].
    apply (stops_call _ (Lock i)); [reflexivity | reflexivity |].
    apply stops_bind; [apply stops_checkpoint | intros _].
    apply stops_modStats.
Qed.

Lemma liveRun_process_stops (run : liveRun) (i : Issue) (st st' : St) (e : option string) :
  liveRun_process w cfg run i st = (e, st') ->
  exists evs,
    trace st' = (trace st ++ evs)%list /\
    nothingAfterFailure w (trace st) evs (answered e).
Proof.
  unfold liveRun_process. intros H.
  destruct (liveRunProcessBody w cfg i (run, st)) as [r [run' st1]] eqn:Hb.
  destruct (stops_liveRunProcessBody i _ _ _ Hb) as (evs & Ht & Hn).
  cbn [snd] in *. exists evs.
  destruct r as [u | [| | err]]; injection H as <- <-; now split.
Qed.

Lemma liveRunLoop_stops (run : liveRun) (issues : list Issue) :
  forall (st st' : St) (s : runStats) (e : option string),
    liveRunLoop w cfg run issues st = ((s, e), st') ->
    s = stats run /\
    exists evs,
      trace st' = (trace st ++ evs)%list /\
      nothingAfterFailure w (trace st) evs (answered e).
Proof.
  induction issues as [|i issues IH]; intros st st' s e H.
  - injection H as <- <- <-. split; [reflexivity |]. exists [].
    rewrite app_nil_r. split; [reflexivity | apply nothingAfterFailure_nil].
  - cbn [liveRunLoop] in H.
    destruct (liveRun_process w cfg run i st) as [[err|] st1] eqn:Hp;
      destruct (liveRun_process_stops _ _ _ _ _ Hp) as (evs1 & Ht1 & Hn1).
    + injection H as <- <- <-. split; [reflexivity |]. now exists evs1.
    + destruct (IH _ _ _ _ H) as (Hs & evs2 & Ht2 & Hn2). split; [exact Hs |].
      unfold callSleep, emit in Ht2, Hn2. cbn [snd trace] in Ht2, Hn2.
      exists (evs1 ++ [Sleep (time.Millisecond + 1000)] ++ evs2)%list. split.
      * rewrite Ht2, Ht1. now rewrite <- !app_assoc.
      * apply nothingAfterFailure_app; [exact Hn1 |].
        apply nothingAfterFailure_app.
        -- apply (nothingAfterFailure_one w _ (Sleep (time.Millisecond + 1000))).
        -- now rewrite <- Ht1.
Qed.

Lemma OpenFile_trace (fl : OS.Flags) (st st1 : St) (f : OS.File) :
  OS.OpenFile fl st = Some (f, st1) -> trace st1 = trace st.
Proof.
  unfold OS.OpenFile. destruct (disk st); [| destruct (OS.O_CREATE fl)];
    intros [= <- <-]; reflexivity.
Qed.

Lemma no_new_event (tr h rest : list Event) (e : Event) :
  tr = (tr ++ h ++ e :: rest)%list -> False.
Proof.
  intros H. apply (f_equal length) in H.
  rewrite !length_app in H. cbn [length] in H. lia.
Qed.

(** C1, amended.  In a live run ([liveRun.run]), when an external call
    (Discourse topic, comment, close or lock) fails, nothing follows it:
    no call, no checkpoint write and no delay, for this issue or a later
    one.  So processing stops at that step with the log as the last
    checkpoint left it, and the run returns at once, with an error. *)
Theorem live_run_halts_at_failed_call
    (run : liveRun) (issues : list Issue) (unfinished : option Issue)
    (st st' : St) (out : Outcome (runStats * option string))
    (h rest : list Event) (e : Event) :
  liveRun_run w cfg run issues unfinished st = (out, st') ->
  trace st' = (trace st ++ h ++ e :: rest)%list ->
  callFailed w (trace st ++ h) e = true ->
  rest = [] /\ exists s err, out = Ret (s, Some err).
Proof.
  unfold liveRun_run. intros Hrun Htr Hfail.
  destruct (openLogErr w (disk st)).
  { injection Hrun as <- <-. now apply no_new_event in Htr. }
  destruct (OS.OpenFile chkptFlags st) as [[f st1] |] eqn:Hopen.
  2: { injection Hrun as <- <-. now apply no_new_event in Htr. }
  destruct (liveRunLoop w cfg _ issues st1) as [[s eo] st2] eqn:Hloop.
  injection Hrun as <- <-.
  destruct (liveRunLoop_stops _ _ _ _ _ _ Hloop) as (_ & evs & Ht & Hn).
  rewrite (OpenFile_trace _ _ _ _ Hopen) in Ht, Hn.
  rewrite Ht in Htr. apply app_inv_head in Htr.
  destruct (Hn h e rest Htr Hfail) as [Hrest Hans].
  split; [exact Hrest |].
  destruct eo as [err|]; [eauto | discriminate].
Qed.

End LiveRunHalts.

(** A live run over issues 8, 7 and 8 in a world that refuses the comment
    on issue 7: the comment is the tenth and last event of the run. *)
Lemma live_run_halts_at_failed_call_witness :
  let r :=
    RunModes.liveRun_run Fixtures.commentFailsOn7 Fixtures.cfg Fixtures.live0
      [Fixtures.stale8; Fixtures.active7; Fixtures.stale8] None Fixtures.fresh in
  skipn 10 (trace (snd r)) = [] /\ exists s err, fst r = Ret (s, Some err).
Proof.
  cbv zeta.
  set (r := RunModes.liveRun_run Fixtures.commentFailsOn7 Fixtures.cfg Fixtures.live0
              [Fixtures.stale8; Fixtures.active7; Fixtures.stale8] None Fixtures.fresh).
  apply (live_run_halts_at_failed_call Fixtures.commentFailsOn7 Fixtures.cfg
           Fixtures.live0 [Fixtures.stale8; Fixtures.active7; Fixtures.stale8] None
           Fixtures.fresh (snd r) (fst r)
           (firstn 9 (trace (snd r))) (skipn 10 (trace (snd r)))
           (Comment Fixtures.active7
              (Sprintf RunModes.activeTpl [AStr "alice"; AStr Fixtures.topicURL]))).
  - vm_compute. reflexivity.
  - vm_compute. reflexivity.
  - vm_compute. reflexivity.
Defined.

(** C1, as stated, fails.  In [process] of main.go a failed call does not
    end the run: with the comment on issue 7 refused, [process] goes on to
    issue 8, comments on it, closes and locks it, and returns no error.
    In [liveRun.run] the run does end, but the stats returned with the
    error are not those accumulated: after issue 8 went through and issue
    7 failed they are all zero. *)
Lemma process_continues_after_failed_call :
  let r :=
    MainGo.process Fixtures.commentFailsOn7 [Fixtures.active7; Fixtures.stale8]
      Fixtures.appendHandle "migrate" (Fixtures.withLog "") in
  let r' :=
    RunModes.liveRun_run Fixtures.commentFailsOn7 Fixtures.cfg Fixtures.live0
      [Fixtures.stale8; Fixtures.active7] None Fixtures.fresh in
  (exists body,
      trace (snd r) !! 3%nat = Some (Comment Fixtures.active7 body) /\
      callFailed Fixtures.commentFailsOn7 (firstn 3 (trace (snd r)))
        (Comment Fixtures.active7 body) = true) /\
  filter isSideEffect (skipn 4 (trace (snd r)))
  = [Comment Fixtures.stale8 (Sprintf MainGo.staleTpl []);
     Close Fixtures.stale8; Lock Fixtures.stale8] /\
  fst r = (Some (MainGo.mkStats 1 1 1 0), None) /\
  fst r' = Ret (RunModes.mkStats 0 0 0 0,
                Some "process issue https://github.com/o/r/issues/7: api error").
Proof.
  cbv zeta. split; [eexists; split; vm_compute; reflexivity |].
  vm_compute. repeat split; reflexivity.
Qed.

(** ** The two branches of the live run *)

Section LiveRunBranches.
Import RunModes.
Variable w : World.
Variable cfg : Config.

Lemma bind_val {S A B} (c : M S A) (k : A -> M S B) (s s' : S) (a : A) :
  c s = (Val a, s') -> bind c k s = k a s'.
Proof. unfold bind. now intros ->. Qed.

Lemma run_call_ok {A} (call : St -> option string * St) (ev : Event)
    (k : M (liveRun * St) A) (run : liveRun) (st : St) :
  call st = (None, emit ev st) ->
  (e <- lift call ;; orReturn e ;;; k) (run, st) = k (run, emit ev st).
Proof. unfold bind, lift. cbn [fst snd]. now intros ->. Qed.

Lemma run_checkpoint_ok {A} (c : restoredIssue) (k : M (liveRun * St) A)
    (run : liveRun) (f : OS.File) (st : St) :
  chkptf run = Some f ->
  (forall h c d, writeErr w h c d = None) ->
  (forall h c, syncErr w h c = None) ->
  exists st',
    (checkpointOrReturn w cfg c ;;; k) (run, st) = k (run, st') /\
    trace st' = (trace st ++ [LogWrite (checkpointLine cfg c)])%list.
Proof.
  intros Hf Hw Hs.
  unfold checkpointOrReturn. unfold bind, lift.
  cbn [fst snd]. rewrite Hf. unfold saveState, OS.WriteString, OS.Sync. rewrite Hw.
  destruct (OS.written _ _ _ _) as [c' off']. rewrite Hs. cbn [bind ret].
  eexists. split; reflexivity.
Qed.

Ltac step_checkpoint f Hw Hs :=
  match goal with
  | |- context [(checkpointOrReturn ?w ?cfg ?c ;;; ?k) (?r, ?s)] =>
      let st' := fresh "st" in
      let Ht := fresh "Ht" in
      destruct (run_checkpoint_ok c k r f s (eq_refl (Some f)) Hw Hs) as (st' & -> & Ht)
  end.

(** From the comment on: comment, close and lock, a checkpoint after
    each. *)
Lemma comment_close_lock (run : liveRun) (f : OS.File) (i : Issue) (st : St)
    (body : string) (c : restoredIssue) :
  succeedsOn w i ->
  exists st',
    (e <- lift (callComment w i body) ;;
     orReturn e ;;;
     checkpointOrReturn w cfg (setDone c commentDone) ;;;
     e <- lift (callClose w i) ;;
     orReturn e ;;;
     checkpointOrReturn w cfg (setDone (setDone c commentDone) closeDone) ;;;
     e <- lift (callLock w i) ;;
     orReturn e ;;;
     checkpointOrReturn w cfg
       (setDone (setDone (setDone c commentDone) closeDone) lockDone) ;;;
     modStats incProcessed) (mkLive (stats run) (Some f), st)
    = (Val tt, (mkLive (incProcessed (stats run)) (Some f), st')) /\
    filter isSideEffect (trace st')
    = (filter isSideEffect (trace st) ++ [Comment i body; Close i; Lock i])%list.
Proof.
  intros (Hc & Hcl & Hl & Hw & Hs).
  rewrite (run_call_ok _ (Comment i body)) by (unfold callComment; now rewrite Hc).
  step_checkpoint f Hw Hs.
  rewrite (run_call_ok _ (Close i)) by (unfold callClose; now rewrite Hcl).
  step_checkpoint f Hw Hs.
  rewrite (run_call_ok _ (Lock i)) by (unfold callLock; now rewrite Hl).
  step_checkpoint f Hw Hs.
  unfold modStats. cbn [fst snd stats chkptf]. eexists. split; [reflexivity |].
  unfold emit in *. cbn [trace] in *.
  rewrite Ht1, Ht0, Ht. rewrite !filter_app. cbn. rewrite !app_nil_r, <- !app_assoc.
  reflexivity.
Qed.

(** The stale branch of [liveRun.process], when every call succeeds: no
    call to Discourse; the comment is the stale template filled with the
    author's handle; then close and lock. *)
Lemma liveRun_process_stale (run : liveRun) (f : OS.File) (i : Issue) (st : St) :
  chkptf run = Some f ->
  succeedsOn w i ->
  IsPullRequest i = false ->
  isStale w i st = true ->
  exists st',
    liveRun_process w cfg run i st = (None, st') /\
    filter isSideEffect (trace st')
    = (filter isSideEffect (trace st) ++
       [Comment i (Sprintf staleTpl [AStr (UserLogin i)]); Close i; Lock i])%list.
Proof.
  intros Hf Hok Hpr Hstale.
  unfold liveRun_process, liveRunProcessBody. rewrite Hpr.
  unfold bind at 1. unfold lift at 1. cbn [snd fst]. rewrite Hstale. cbn [negb].
  unfold bind at 1. unfold bind at 1. unfold modStats at 1. unfold ret at 1.
  cbn [fst snd stats chkptf]. rewrite Hf.
  destruct (comment_close_lock (mkLive (incStale (stats run)) (Some f)) f i st
              (Sprintf staleTpl [AStr (UserLogin i)])
              (mkRestored "" (RepoOwnerLogin i) (HTMLURL i) (Number i) 0 "") Hok)
    as (st' & Hrun & Htr).
  cbn [stats] in Hrun. rewrite Hrun. now exists st'.
Qed.

(** The active branch of [liveRun.process], when every call succeeds and
    Discourse returns [url]: the topic is made, and the comment is the
    active template filled with the author's handle and [url]; then close
    and lock. *)
Lemma liveRun_process_active (run : liveRun) (f : OS.File) (i : Issue) (st : St)
    (url : string) :
  let title :=
    if negb (String.eqb (runID cfg) "")
    then Sprintf "[test][%s] %s" [AStr (runID cfg); AStr (Title i)]
    else Title i in
  chkptf run = Some f ->
  succeedsOn w i ->
  IsPullRequest i = false ->
  isStale w i st = false ->
  discourseTopic w (trace st) i title (Body i) (discourseCategoryID cfg) = inl url ->
  exists st',
    liveRun_process w cfg run i st = (None, st') /\
    filter isSideEffect (trace st')
    = (filter isSideEffect (trace st) ++
       [DiscourseTopic i title (Body i) (discourseCategoryID cfg);
        Comment i (Sprintf activeTpl [AStr (UserLogin i); AStr url]);
        Close i; Lock i])%list.
Proof.
  intros title Hf Hok Hpr Hstale Hd.
  pose proof Hok as (_ & _ & _ & Hw & Hs).
  unfold liveRun_process, liveRunProcessBody. rewrite Hpr.
  unfold bind at 1. unfold lift at 1. cbn [snd fst]. rewrite Hstale. cbn [negb].
  fold title.
  unfold bind at 1. unfold bind at 1. unfold modStats at 1.
  cbn [fst snd stats chkptf]. rewrite Hf.
  unfold bind at 1. unfold lift at 1. unfold callDiscourseTopic. cbn [fst snd].
  rewrite Hd.
  match goal with
  | |- context [bind (checkpointOrReturn ?w' ?cfg' ?c) ?k (?r, ?s)] =>
      destruct (run_checkpoint_ok c (k tt) r f s (eq_refl (Some f)) Hw Hs)
        as (st1 & Hcp & Ht1)
  end.
  cbv beta in Hcp. rewrite Hcp. unfold ret at 1.
  destruct (comment_close_lock (mkLive (incActive (stats run)) (Some f)) f i st1
              (Sprintf activeTpl [AStr (UserLogin i); AStr url])
              (mkRestored "" (RepoOwnerLogin i) (HTMLURL i) (Number i) 0 "") Hok)
    as (st' & Hrun & Htr).
  cbn [stats app] in Hrun |- *. rewrite Hrun. exists st'. split; [reflexivity |].
  rewrite Htr, Ht1. unfold emit. cbn [trace]. rewrite !filter_app. cbn.
  rewrite !app_nil_r, <- !app_assoc. reflexivity.
Qed.

End LiveRunBranches.

(** * More of the program *)

(** ** Reasoning about loop bodies *)

Section Triples.
Context {S : Type}.

Lemma triple_ret {A} (P : S -> Prop) (a : A) (QV : A -> S -> Prop) (QJ : Flow -> S -> Prop) :
  (forall s, P s -> QV a s) -> triple P (ret a) QV QJ.
Proof. intros H s r s' Hs [= <- <-]. now apply H. Qed.

Lemma triple_jump {A} (P : S -> Prop) (fl : Flow) (QV : A -> S -> Prop)
    (QJ : Flow -> S -> Prop) :
  (forall s, P s -> QJ fl s) -> triple P (jump fl) QV QJ.
Proof. intros H s r s' Hs [= <- <-]. now apply H. Qed.

Lemma triple_bind {A B} (P : S -> Prop) (P' : A -> S -> Prop) (c : M S A)
    (k : A -> M S B) (QV : B -> S -> Prop) (QJ : Flow -> S -> Prop) :
  triple P c P' QJ ->
  (forall a, triple (P' a) (k a) QV QJ) ->
  triple P (bind c k) QV QJ.
Proof.
  intros Hc Hk s r s' Hs H. unfold bind in H.
  destruct (c s) as [[a | fl] s1] eqn:Hcs.
  - exact (Hk a s1 r s' (Hc s (Val a) s1 Hs Hcs) H).
  - injection H as <- <-. exact (Hc s (Jump fl) s1 Hs Hcs).
Qed.

Lemma triple_weaken {A} (P P0 : S -> Prop) (c : M S A) (QV : A -> S -> Prop)
    (QJ : Flow -> S -> Prop) :
  (forall s, P s -> P0 s) -> triple P0 c QV QJ -> triple P c QV QJ.
Proof. intros HP Hc s r s' Hs H. exact (Hc s r s' (HP s Hs) H). Qed.

End Triples.

(** ** [process] of main.go *)

Section ProcessRules.
Import MainGo.
Variable w : World.
Variable f : OS.File.
Variable mode : string.
Variable i : Issue.
Variables I J : RunStats * St -> Prop.
Variable QV : unit -> RunStats * St -> Prop.
Variable QJ : Flow -> RunStats * St -> Prop.

Hypothesis sleep_I : forall s st e, I (s, st) -> I (s, emit e st).
Hypothesis pull_request : forall s st, I (s, st) -> QJ ContinueLoop (incPullRequest s, st).
Hypothesis limit : forall s st, I (s, st) -> Processed s = maxCount -> QJ BreakLoop (s, st).
Hypothesis below_limit : forall s st, I (s, st) -> Processed s <> maxCount -> J (s, st).
Hypothesis call_J : forall s st e, J (s, st) -> J (s, emit e st).
Hypothesis active_J : forall s st, J (s, st) -> J (incActive s, st).
Hypothesis stale_J : forall s st, J (s, st) -> J (incStale s, st).
Hypothesis continue_J : forall s st, J (s, st) -> QJ ContinueLoop (s, st).
Hypothesis saved_J : forall s st state extra st',
  J (s, st) -> saveState w f i state extra st = (None, st') -> J (s, st').
Hypothesis not_saved_J : forall s st state extra e st',
  J (s, st) -> saveState w f i state extra st = (Some e, st') ->
  QJ (ReturnErr (Sprintf "process: %s" [AStr e])) (s, st').
Hypothesis processed_J : forall s st, J (s, st) -> QV tt (incProcessed s, st).

Lemma triple_call {A} (call : St -> A * St) (ev : Event) :
  (forall st, snd (call st) = emit ev st) ->
  triple J (lift call) (fun _ => J) QJ.
Proof.
  intros Hev [s st] r [s' st'] HJ H. unfold lift in H. cbn [fst snd] in H.
  specialize (Hev st). destruct (call st) as [a st1]. cbn [snd] in Hev. subst st1.
  injection H as <- <- <-. now apply call_J.
Qed.

Lemma triple_call_orContinue {A} (call : St -> option string * St) (ev : Event)
    (k : M (RunStats * St) A) (QV' : A -> RunStats * St -> Prop) :
  (forall st, snd (call st) = emit ev st) ->
  triple J k QV' QJ ->
  triple J (e <- lift call ;; orContinue e ;;; k) QV' QJ.
Proof.
  intros Hev Hk.
  apply (triple_bind J (fun _ => J)); [now apply (triple_call call ev) |].
  intros e. apply (triple_bind J (fun _ => J)); [| intros _; exact Hk].
  intros [s st] r [s' st'] HJ H. destruct e; injection H as <- <- <-;
    [now apply continue_J | exact HJ].
Qed.

Lemma triple_call_orContinue_end (call : St -> option string * St) (ev : Event) :
  (forall st, snd (call st) = emit ev st) ->
  triple J (e <- lift call ;; orContinue e) (fun _ => J) QJ.
Proof.
  intros Hev.
  apply (triple_bind J (fun _ => J)); [now apply (triple_call call ev) |].
  intros e [s st] r [s' st'] HJ H. destruct e; injection H as <- <- <-;
    [now apply continue_J | exact HJ].
Qed.

Lemma triple_checkpoint {A} (state : Z) (extra : string)
    (k : M (RunStats * St) A) (QV' : A -> RunStats * St -> Prop) :
  triple J k QV' QJ ->
  triple J (e <- lift (saveState w f i state extra) ;; orReturn e ;;; k) QV' QJ.
Proof.
  intros Hk [s st] r [s' st'] HJ H. unfold bind at 1 in H. unfold lift in H.
  cbn [fst snd] in H.
  destruct (saveState w f i state extra st) as [[e|] st1] eqn:Hs.
  - injection H as <- <- <-. exact (not_saved_J _ _ _ _ _ _ HJ Hs).
  - exact (Hk (s, st1) r (s', st') (saved_J _ _ _ _ _ HJ Hs) H).
Qed.

Lemma triple_modStats_J (g : RunStats -> RunStats) :
  (forall s st, J (s, st) -> J (g s, st)) ->
  triple J (modStats g) (fun _ => J) QJ.
Proof. intros Hg [s st] r [s' st'] HJ [= <- <- <-]. now apply Hg. Qed.

(** The rules of one round of [process]: what holds before the round
    ([I]), between the limit check and the last step ([J]), and after
    each way the round can end. *)
Lemma processBody_triple : triple I (processBody w f mode i) QV QJ.
Proof.
  unfold processBody.
  apply (triple_bind I (fun _ => I)).
  { intros [s st] r [s' st'] HI [= <- <- <-]. now apply sleep_I. }
  intros _. destruct (IsPullRequest i).
  { apply (triple_bind I (fun _ s => QJ ContinueLoop s)).
    - intros [s st] r [s' st'] HI [= <- <- <-]. now apply pull_request.
    - intros _. now apply triple_jump. }
  apply (triple_bind I (fun stats s => I s /\ stats = fst s)).
  { intros [s st] r [s' st'] HI [= <- <- <-]. now split. }
  intros stats. destruct (Processed stats =? maxCount) eqn:Hlim.
  { apply triple_jump. intros [s st] [HI ->]. apply Z.eqb_eq in Hlim.
    now apply limit. }
  apply Z.eqb_neq in Hlim.
  apply (triple_weaken _ J).
  { intros [s st] [HI ->]. now apply below_limit. }
  apply (triple_bind J (fun _ => J)).
  { intros [s st] r [s' st'] HJ [= <- <- <-]. exact HJ. }
  intros stale.
  apply (triple_bind J (fun _ => J)).
  - destruct (negb stale).
    + apply (triple_bind J (fun _ => J)); [now apply triple_modStats_J | intros _].
      apply (triple_bind J (fun _ => J));
        [now apply (triple_call _ (DiscoursePost i mode)) | intros [url | err]].
      * apply triple_checkpoint.
        now apply (triple_call_orContinue_end _
                     (Comment i (Sprintf activeTpl [AStr url]))).
      * apply triple_jump. intros [s st]. apply continue_J.
    + apply (triple_bind J (fun _ => J)); [now apply triple_modStats_J | intros _].
      now apply (triple_call_orContinue_end _ (Comment i (Sprintf staleTpl []))).
  - intros _. apply triple_checkpoint.
    apply (triple_call_orContinue _ (Close i)); [reflexivity |].
    apply triple_checkpoint.
    apply (triple_call_orContinue _ (Lock i)); [reflexivity |].
    apply triple_checkpoint.
    intros [s st] r [s' st'] HJ [= <- <- <-]. now apply processed_J.
Qed.

End ProcessRules.

Section ProcessLoopRules.
Import MainGo.
Variable w : World.
Variable f : OS.File.
Variable mode : string.
Variables I J : RunStats * St -> Prop.
Variable QJ : Flow -> RunStats * St -> Prop.

Hypothesis sleep_I : forall s st e, I (s, st) -> I (s, emit e st).
Hypothesis pull_request : forall s st, I (s, st) -> QJ ContinueLoop (incPullRequest s, st).
Hypothesis limit : forall s st, I (s, st) -> Processed s = maxCount -> QJ BreakLoop (s, st).
Hypothesis below_limit : forall s st, I (s, st) -> Processed s <> maxCount -> J (s, st).
Hypothesis call_J : forall s st e, J (s, st) -> J (s, emit e st).
Hypothesis active_J : forall s st, J (s, st) -> J (incActive s, st).
Hypothesis stale_J : forall s st, J (s, st) -> J (incStale s, st).
Hypothesis continue_J : forall s st, J (s, st) -> QJ ContinueLoop (s, st).
Hypothesis saved_J : forall i s st state extra st',
  J (s, st) -> saveState w f i state extra st = (None, st') -> J (s, st').
Hypothesis not_saved_J : forall i s st state extra e st',
  J (s, st) -> saveState w f i state extra st = (Some e, st') ->
  QJ (ReturnErr (Sprintf "process: %s" [AStr e])) (s, st').
Hypothesis processed_J : forall s st, J (s, st) -> I (incProcessed s, st).
Hypothesis continue_I : forall s, QJ ContinueLoop s -> I s.

(** What the rules of a round give for the whole loop. *)
Lemma processLoop_rules (issues : list Issue) :
  forall stats st,
    I (stats, st) ->
    match processLoop w f mode issues stats st with
    | ((Some s', None), st') => I (s', st') \/ QJ BreakLoop (s', st')
    | ((None, Some err), st') => exists s', QJ (ReturnErr err) (s', st')
    | _ => False
    end.
Proof.
  induction issues as [|i issues IH]; intros stats st HI; [now left |].
  cbn [processLoop].
  pose proof (processBody_triple w f mode i I J (fun _ => I) QJ sleep_I pull_request
                limit below_limit call_J active_J stale_J continue_J (saved_J i)
                (not_saved_J i) processed_J (stats, st)) as Hbody.
  destruct (processBody w f mode i (stats, st)) as [[u | [| | err]] [s1 st1]].
  - apply IH. exact (Hbody _ _ HI eq_refl).
  - apply IH. apply continue_I. exact (Hbody _ _ HI eq_refl).
  - right. exact (Hbody _ _ HI eq_refl).
  - exists s1. exact (Hbody _ _ HI eq_refl).
Qed.

End ProcessLoopRules.

Section ProcessFacts.
Import MainGo.
Variable w : World.

Lemma Sprintf_process (e : string) : Sprintf "process: %s" [AStr e] = "process: " +:+ e.
Proof. rewrite <- (app_empty_r e) at 2. reflexivity. Qed.

Lemma saveState_error (f : OS.File) (i : Issue) (state : Z) (extra e : string)
    (st st' : St) :
  saveState w f i state extra st = (Some e, st') ->
  (exists m, e = "save state: " +:+ m) /\ logFails w.
Proof.
  unfold saveState, OS.WriteString.
  destruct (writeErr w _ _ _) as [we|] eqn:Hw.
  - intros [= <- <-]. split.
    + exists we. rewrite <- (app_empty_r we) at 2. reflexivity.
    + left. eauto 6.
  - destruct (OS.written _ _ _ _) as [c' off'].
    unfold OS.Sync. destruct (syncErr w _ _) as [se|] eqn:Hs; [| discriminate].
    intros [= <- <-]. split.
    + exists ("sync file: " +:+ se). rewrite <- (app_empty_r se) at 2. reflexivity.
    + right. eauto 6.
Qed.

(** X1.  [process] carries at most [maxCount] issues, that is one,
    through to the last checkpoint: the counter Processed of the stats it
    returns is 0 or 1, for every list of issues and whatever the world
    answers. *)
Theorem process_completes_at_most_maxCount
    (issues : list Issue) (f : OS.File) (mode : string) (st : St) :
  match fst (fst (process w issues f mode st)) with
  | Some stats => 0 <= Processed stats <= maxCount
  | None => True
  end.
Proof.
  unfold process.
  pose proof (processLoop_rules w f mode
                (fun s => 0 <= Processed (fst s) <= maxCount)
                (fun s => Processed (fst s) = 0)
                (fun _ s => 0 <= Processed (fst s) <= maxCount)) as H.
  cbn [fst] in H. unfold maxCount in *.
  specialize (H ltac:(auto) ltac:(auto) ltac:(auto) ltac:(intros; lia) ltac:(auto)
                ltac:(auto) ltac:(auto) ltac:(intros; lia) ltac:(auto)
                ltac:(intros; lia)
                ltac:(intros s st0 Hs; cbn [incProcessed Processed]; rewrite Hs;
                      vm_compute; split; discriminate)
                ltac:(auto) issues zeroStats st ltac:(cbn; lia)).
  destruct (processLoop w f mode issues zeroStats st) as [[[s'|] [err|]] st'];
    cbn [fst]; try exact Logic.I; try contradiction.
  destruct H as [H | H]; exact H.
Qed.

(** X2.  [process] returns an error only when the log could not be
    written: then it returns no stats, its message is
    [process: save state: ...], and some write or sync was refused.  No
    answer of GitHub or Discourse makes it fail. *)
Theorem process_fails_only_on_the_log
    (issues : list Issue) (f : OS.File) (mode : string) (st st' : St)
    (stats : option RunStats) (err : string) :
  process w issues f mode st = ((stats, Some err), st') ->
  stats = None /\ (exists m, err = "process: save state: " +:+ m) /\ logFails w.
Proof.
  unfold process. intros Hp.
  pose proof (processLoop_rules w f mode (fun _ => True) (fun _ => True)
                (fun fl _ =>
                   match fl with
                   | ReturnErr e =>
                       (exists m, e = "process: save state: " +:+ m) /\ logFails w
                   | _ => True
                   end)) as H.
  specialize (H ltac:(auto) ltac:(auto) ltac:(auto) ltac:(auto) ltac:(auto)
                ltac:(auto) ltac:(auto) ltac:(auto) ltac:(auto)).
  specialize (H ltac:(intros i s st0 state extra e st1 _ Hs;
                      destruct (saveState_error _ _ _ _ _ _ _ Hs) as [[m ->] Hl];
                      rewrite Sprintf_process; split; [now exists m | exact Hl])
                ltac:(auto) ltac:(auto) issues zeroStats st Logic.I).
  rewrite Hp in H. destruct stats as [s|]; [contradiction |].
  destruct H as [s' [Hm Hl]]. now repeat split.
Qed.

End ProcessFacts.

(** With a full disk the first checkpoint of issue 8 ends [process]. *)
Lemma process_fails_only_on_the_log_witness :
  @None MainGo.RunStats = None /\
  (exists m, "process: save state: no space left on device"
             = "process: save state: " +:+ m) /\
  logFails MoreFixtures.diskFull.
Proof.
  apply (process_fails_only_on_the_log MoreFixtures.diskFull
           [Fixtures.stale8] Fixtures.appendHandle "migrate" Fixtures.fresh
           (snd (MainGo.process MoreFixtures.diskFull [Fixtures.stale8]
                   Fixtures.appendHandle "migrate" Fixtures.fresh))).
  vm_compute. reflexivity.
Defined.

(** ** The log only grows (main.go) *)

Section AppendOnly.
Import MainGo.
Variable w : World.

Lemma extends_refl (c : string) : extends c c.
Proof. exists "". now rewrite app_empty_r. Qed.

Lemma extends_trans (a b c : string) : extends a b -> extends b c -> extends a c.
Proof. intros [x ->] [y ->]. exists (x +:+ y). now rewrite app_assoc_s. Qed.

Lemma saveState_extends (f : OS.File) (i : Issue) (state : Z) (extra : string) (st : St) :
  OS.append f = true ->
  extends (content st) (content (snd (saveState w f i state extra st))).
Proof.
  intros Hf. unfold saveState, OS.WriteString, OS.written. rewrite Hf.
  destruct (writeErr w _ _ _); [apply extends_refl |].
  destruct (OS.Sync _ _ _); cbn [snd]; eexists; reflexivity.
Qed.

Lemma process_extends (issues : list Issue) (f : OS.File) (mode : string) (st : St)
    (c0 : string) :
  OS.append f = true ->
  extends c0 (content st) ->
  extends c0 (content (snd (process w issues f mode st))).
Proof.
  intros Hf H0. unfold process.
  pose proof (processLoop_rules w f mode
                (fun s => extends c0 (content (snd s)))
                (fun s => extends c0 (content (snd s)))
                (fun _ s => extends c0 (content (snd s)))) as H.
  cbn [snd] in H.
  assert (forall i st0 state extra e st1,
             extends c0 (content st0) ->
             saveState w f i state extra st0 = (e, st1) ->
             extends c0 (content st1)) as Hsave.
  { intros i st0 state extra e st1 He Hs.
    apply (extends_trans _ _ _ He).
    replace st1 with (snd (saveState w f i state extra st0)) by now rewrite Hs.
    now apply saveState_extends. }
  specialize (H ltac:(auto) ltac:(auto) ltac:(auto) ltac:(auto) ltac:(auto)
                ltac:(auto) ltac:(auto) ltac:(auto)
                ltac:(intros i s st0 state extra st1 He Hs;
                      exact (Hsave i st0 state extra None st1 He Hs))
                ltac:(intros i s st0 state extra e st1 He Hs;
                      exact (Hsave i st0 state extra (Some e) st1 He Hs))
                ltac:(auto) ltac:(auto) issues zeroStats st H0).
  destruct (processLoop w f mode issues zeroStats st) as [[[s'|] [err|]] st'];
    cbn [snd]; try contradiction.
  - destruct H as [H | H]; exact H.
  - destruct H as [_ H]. exact H.
Qed.

Lemma reposLoop_extends (f : OS.File) (mode : string) (repos : list Repository) (c0 : string) :
  OS.append f = true ->
  forall stats st,
    extends c0 (content st) ->
    extends c0 (content (snd (reposLoop w f mode repos stats st))).
Proof.
  intros Hf. induction repos as [|r repos IH]; intros stats st H0; [exact H0 |].
  cbn [reposLoop callListByRepo].
  pose proof (process_extends (listByRepo w (trace st) (RepoOwner r) (RepoName r)) f mode
                (emit (ListByRepo (RepoOwner r) (RepoName r)) st) c0 Hf H0) as Hp.
  destruct (process w _ f mode _) as [[s [err|]] st2]; cbn [snd] in *;
    [exact Hp | now apply IH].
Qed.

Lemma continueFrom_extends (f : OS.File) (i : RestoredIssue) (iss : Issue) (st : St) :
  OS.append f = true ->
  extends (content st) (content (continueFrom w f i iss st)).
Proof.
  intros Hf.
  assert (forall state st0, extends (content st0)
            (content (snd (saveState w f iss state "" st0)))) as Hs
    by (intros; now apply saveState_extends).
  unfold continueFrom, caseCloseDone, caseCommentDone, caseDiscourseDone.
  destruct (Done i =? discourseDone).
  - eapply extends_trans; [| apply Hs]. eapply extends_trans; [| apply Hs].
    eapply extends_trans; [| apply Hs].
    destruct (isStale w iss st); apply extends_refl.
  - destruct (Done i =? commentDone).
    + eapply extends_trans; [| apply Hs]. apply Hs.
    + destruct (Done i =? closeDone); [apply Hs | apply extends_refl].
Qed.

Lemma continueLoop_extends (f : OS.File) (its : list RestoredIssue) (c0 : string) :
  OS.append f = true ->
  forall k st,
    extends c0 (content st) ->
    extends c0 (content (continueLoop w f its k st)).
Proof.
  intros Hf. induction its as [|i its IH]; intros k st H0; [exact H0 |].
  cbn [continueLoop]. destruct (k =? maxCount); [exact H0 |].
  unfold callIssuesGet.
  destruct (issuesGet w (trace st) (Owner i) (Repo i) (IssNum i)) as [e | iss code body].
  - now apply IH.
  - destruct ((code <? 200) || (300 <=? code)); [now apply IH |].
    apply IH. eapply extends_trans; [exact H0 |].
    exact (continueFrom_extends f i iss (emit _ st) Hf).
Qed.

(** X3.  Over a whole run of [main], in every mode and whatever happens,
    the checkpoint log only grows: what was in the file before the run is
    still there, in front of what the run added. *)
Theorem main_log_only_grows
    (rangeOrder : list RestoredIssue -> list RestoredIssue) (mode : string)
    (baseRepos : list Repository) (st : St) :
  extends (content st) (content (snd (main w rangeOrder mode baseRepos st))).
Proof.
  unfold main.
  destruct (openLogErr w (disk st)); [apply extends_refl |].
  destruct (OS.OpenFile logFlags st) as [[f st1] |] eqn:Hopen; [| apply extends_refl].
  assert (OS.append f = true /\ content st1 = content st) as [Hf Hc].
  { unfold OS.OpenFile, content in *. cbn in Hopen.
    destruct (disk st); injection Hopen as <- <-; now split. }
  destruct (openErrTxtErr w).
  { cbn [snd]. rewrite Hc. apply extends_refl. }
  assert (extends (content st) (content (snd (modeSwitch w rangeOrder mode baseRepos f st1))))
    as Hs.
  { unfold modeSwitch.
    destruct (String.eqb mode "test" || String.eqb mode "migrate").
    - apply reposLoop_extends; [exact Hf |]. rewrite Hc. apply extends_refl.
    - destruct (String.eqb mode "continue"); [| cbn [snd]; rewrite Hc; apply extends_refl].
      destruct (readLogErr w (disk st1)); [cbn [snd]; rewrite Hc; apply extends_refl |].
      destruct (restore (content st1)) as [[reports issueStates] | c | p]; cbn [snd];
        try (rewrite Hc; apply extends_refl).
      apply continueLoop_extends; [exact Hf |]. rewrite Hc. apply extends_refl. }
  destruct (modeSwitch w rangeOrder mode baseRepos f st1) as [[stats | c | p] st2];
    exact Hs.
Qed.

End AppendOnly.

(** ** The totals of [main] *)

Section Totals.
Import MainGo.
Variable w : World.

Lemma reposLoop_app (f : OS.File) (mode : string) (rs rs' : list Repository) :
  forall stats st,
    reposLoop w f mode (rs ++ rs') stats st
    = match reposLoop w f mode rs stats st with
      | (Ret stats1, st1) => reposLoop w f mode rs' stats1 st1
      | other => other
      end.
Proof.
  induction rs as [|r rs IH]; intros stats st; [reflexivity |].
  cbn [app reposLoop]. destruct (callListByRepo w _ _ st) as [issues st1].
  destruct (process w issues f mode st1) as [[s [err|]] st2]; [reflexivity | apply IH].
Qed.

Lemma process_ok_has_stats (issues : list Issue) (f : OS.File) (mode : string) (st st' : St)
    (stats : option RunStats) :
  process w issues f mode st = ((stats, None), st') -> exists s, stats = Some s.
Proof.
  unfold process. intros Hp.
  pose proof (processLoop_rules w f mode (fun _ => True) (fun _ => True) (fun _ _ => True)
                ltac:(auto) ltac:(auto) ltac:(auto) ltac:(auto) ltac:(auto) ltac:(auto)
                ltac:(auto) ltac:(auto) ltac:(auto) ltac:(auto) ltac:(auto) ltac:(auto)
                issues zeroStats st Logic.I) as H.
  rewrite Hp in H. destruct stats as [s|]; [eauto | contradiction].
Qed.

(** X4.  The stats with which the loop over the repositories ends are
    those of the last repository alone: [stats] is assigned anew by every
    call of [process], so the totals that [main] prints do not add up the
    repositories before the last one. *)
Theorem reposLoop_keeps_last_stats_only
    (f : OS.File) (mode : string) (rs : list Repository) (r : Repository)
    (stats0 stats : option RunStats) (st st' : St) :
  reposLoop w f mode (rs ++ [r]) stats0 st = (Ret stats, st') ->
  exists st1 s,
    stats = Some s /\
    process w (listByRepo w (trace st1) (RepoOwner r) (RepoName r)) f mode
      (emit (ListByRepo (RepoOwner r) (RepoName r)) st1)
    = ((Some s, None), st').
Proof.
  rewrite reposLoop_app.
  destruct (reposLoop w f mode rs stats0 st) as [[stats1 | c | p] st1];
    [| discriminate | discriminate].
  cbn [reposLoop callListByRepo].
  destruct (process w _ f mode _) as [[s [err|]] st2] eqn:Hp; [discriminate |].
  intros [= <- <-]. destruct (process_ok_has_stats _ _ _ _ _ _ Hp) as [s' ->].
  now exists st1, s'.
Qed.

(** X5.  With no repository to go through, or in a mode that [main] does
    not know, the pointer [stats] is never assigned: [main] opens its
    files and then ends in a nil dereference where it would print the
    totals. *)
Theorem main_without_repositories_panics
    (rangeOrder : list RestoredIssue -> list RestoredIssue) (mode : string)
    (f : OS.File) (st st1 : St) :
  openLogErr w (disk st) = None ->
  OS.OpenFile logFlags st = Some (f, st1) ->
  openErrTxtErr w = None ->
  mode <> "continue" ->
  main w rangeOrder mode [] st = (Panic NilDereference, st1).
Proof.
  intros Hopen Hfile Herr Hmode. unfold main. rewrite Hopen, Hfile, Herr.
  unfold modeSwitch. destruct (String.eqb mode "test" || String.eqb mode "migrate");
    [reflexivity |].
  apply String.eqb_neq in Hmode. now rewrite Hmode.
Qed.

End Totals.

(** Two repositories, the second without issues: the stale issue of the
    first is processed, and the loop ends with all counters at zero. *)
Lemma reposLoop_keeps_last_stats_only_witness :
  exists st1 s,
    Some (MainGo.mkStats 0 0 0 0) = Some s /\
    MainGo.process MoreFixtures.twoRepos
      (listByRepo MoreFixtures.twoRepos (trace st1) "o" "empty")
      Fixtures.appendHandle "migrate" (emit (ListByRepo "o" "empty") st1)
    = ((Some s, None),
       snd (MainGo.reposLoop MoreFixtures.twoRepos Fixtures.appendHandle "migrate"
              [MainGo.mkRepo "o" "r"; MainGo.mkRepo "o" "empty"] None
              (Fixtures.withLog ""))).
Proof.
  apply (reposLoop_keeps_last_stats_only MoreFixtures.twoRepos Fixtures.appendHandle
           "migrate" [MainGo.mkRepo "o" "r"] (MainGo.mkRepo "o" "empty") None
           (Some (MainGo.mkStats 0 0 0 0)) (Fixtures.withLog "")).
  vm_compute. reflexivity.
Defined.

(** The mode "migrate" with an empty list of repositories. *)
Lemma main_without_repositories_panics_witness :
  MainGo.main Fixtures.calm Fixtures.asListed "migrate" [] Fixtures.fresh
  = (Panic NilDereference, mkSt [] (Some "") 0%nat).
Proof.
  apply (main_without_repositories_panics Fixtures.calm Fixtures.asListed "migrate"
           Fixtures.appendHandle Fixtures.fresh).
  - reflexivity.
  - reflexivity.
  - reflexivity.
  - discriminate.
Defined.

Example first_repository_was_processed :
  filter isSideEffect
    (trace (snd (MainGo.reposLoop MoreFixtures.twoRepos Fixtures.appendHandle "migrate"
                   [MainGo.mkRepo "o" "r"; MainGo.mkRepo "o" "empty"] None
                   (Fixtures.withLog ""))))
  = [Comment Fixtures.stale8 (Sprintf MainGo.staleTpl []);
     Close Fixtures.stale8; Lock Fixtures.stale8].
Proof. vm_compute. reflexivity. Qed.

(** ** More on resuming *)

Section ResumeFacts.
Import MainGo.

Lemma fold_known_shape (u : string) (all : list RestoredIssue) :
  forall (m : gmap string RestoredIssue) (i : RestoredIssue),
    m !! u = Some i ->
    exists d, foldl populate m all !! u = Some (setDone i d).
Proof.
  induction all as [|r all IH]; intros m i Hi.
  - exists (Done i). cbn [foldl]. rewrite Hi. now destruct i.
  - cbn [foldl]. destruct (decide (URL r = u)) as [<- | Hne].
    + destruct (IH _ _ (populate_known m r i Hi)) as [d Hd]. now exists d.
    + apply IH. now rewrite populate_other.
Qed.

Lemma fold_entry_of_first (u : string) (all : list RestoredIssue) :
  match head (recordsOf u all) with
  | Some first =>
      exists r, foldl populate ∅ all !! u = Some r /\
                URL r = u /\ Owner r = Owner first /\ Repo r = Repo first /\
                IssNum r = IssNum first /\ Extra r = Extra first
  | None => foldl populate ∅ all !! u = None
  end.
Proof.
  assert (forall m : gmap string RestoredIssue,
             m !! u = None ->
             match head (recordsOf u all) with
             | Some first => exists d, URL first = u /\
                                       foldl populate m all !! u = Some (setDone first d)
             | None => foldl populate m all !! u = None
             end) as H.
  { induction all as [|r all IH]; intros m Hm; [exact Hm |].
    cbn [foldl]. unfold recordsOf in *. destruct (decide (URL r = u)) as [Hu | Hne].
    - rewrite filter_cons_True by exact Hu. cbn [head]. subst u.
      destruct (fold_known_shape (URL r) all _ r (populate_new m r Hm)) as [d Hd].
      now exists d.
    - rewrite filter_cons_False by exact Hne. apply IH. now rewrite populate_other. }
  specialize (H ∅ (lookup_empty u)).
  destruct (head (recordsOf u all)) as [first|]; [| exact H].
  destruct H as (d & Hu & Hd). exists (setDone first d). now repeat split.
Qed.

(** X6.  What resume keeps of the records of one issue.  Reading a log
    whose lines parse gives a map in which the entry of a URL has that
    URL, and the owner, repository, number and extra of the first record
    of the URL in the log; later records only raise the step.  A URL
    without records in the log has no entry. *)
Theorem restored_entry_is_first_record
    (u : string) (log : string) (all : list RestoredIssue) :
  recordsIn log all ->
  exists reports m,
    restore log = Ret (reports, m) /\
    match head (recordsOf u all) with
    | Some first =>
        exists r, m !! u = Some r /\
                  URL r = u /\ Owner r = Owner first /\ Repo r = Repo first /\
                  IssNum r = IssNum first /\ Extra r = Extra first
    | None => m !! u = None
    end.
Proof.
  intros Hlog. destruct (restore_records log all Hlog) as [reports Hres].
  exists reports, (foldl populate ∅ all). split; [exact Hres |].
  apply fold_entry_of_first.
Qed.

Lemma Split_url (owner repo num : string) :
  hasByte owner "/" = false -> hasByte repo "/" = false -> hasByte num "/" = false ->
  Split ("https://github.com/" +:+ owner +:+ "/" +:+ repo +:+ "/issues/" +:+ num) "/"
  = ["https:"; ""; "github.com"; owner; repo; "issues"; num].
Proof.
  intros Ho Hr Hn.
  change ("https://github.com/" +:+ owner +:+ "/" +:+ repo +:+ "/issues/" +:+ num)
    with ("https:" +:+ String "/" ("" +:+ String "/" ("github.com" +:+ String "/"
            (owner +:+ String "/" (repo +:+ String "/" ("issues" +:+ String "/" num)))))).
  rewrite !Split_app_sep by (reflexivity || assumption).
  now rewrite Split_no_sep.
Qed.

(** X7.  Resume takes the owner, the repository and the number of an
    issue from its URL: the line that [saveState] writes for step [state]
    of issue [https://github.com/<owner>/<repo>/issues/<num>] parses, with
    nothing to report, into just these, with the step, and with the extra
    when the step is DiscourseDone. *)
Theorem parseLine_reads_the_url (owner repo extra : string) (num state : Z) :
  hasByte owner "/" = false -> hasByte owner " " = false ->
  hasByte repo "/" = false -> hasByte repo " " = false ->
  hasByte extra " " = false ->
  intMin <= num <= intMax ->
  intMin <= state <= intMax ->
  let url :=
    "https://github.com/" +:+ owner +:+ "/" +:+ repo +:+ "/issues/" +:+ Itoa num in
  parseLine (url +:+ " " +:+ Itoa state +:+ " " +:+ extra)
  = Ret ([], mkRestored url owner repo num state
               (if state =? discourseDone then extra else "")).
Proof.
  intros Ho Ho' Hr Hr' He Hnum Hstate url.
  assert (hasByte url " " = false) as Hu.
  { unfold url. rewrite !hasByte_app, Ho', Hr'.
    rewrite Itoa_no_byte by reflexivity. reflexivity. }
  unfold parseLine.
  change (url +:+ " " +:+ Itoa state +:+ " " +:+ extra)
    with (url +:+ String " " (Itoa state +:+ String " " extra)).
  rewrite (Split_app_sep url _ " " Hu).
  rewrite (Split_app_sep (Itoa state) _ " ") by (now apply Itoa_no_byte).
  rewrite (Split_no_sep extra " " He).
  cbn [index lookup list_lookup obind].
  unfold url at 1 2 3.
  rewrite Split_url by (try assumption; now apply Itoa_no_byte).
  cbn [index lookup list_lookup obind].
  rewrite (Atoi_Itoa num Hnum), (Atoi_Itoa state Hstate).
  destruct (state =? discourseDone); reflexivity.
Qed.

End ResumeFacts.

(** The log of two runs over issue 7 whose first line is the checkpoint
    CommentDone: the entry of issue 7 has the empty extra of that line,
    although a later line holds the topic. *)
Lemma restored_entry_is_first_record_witness :
  exists reports m,
    MainGo.restore MoreFixtures.logReplayedSwapped = Ret (reports, m) /\
    exists r, m !! Fixtures.url7 = Some r /\
              MainGo.URL r = Fixtures.url7 /\ MainGo.Owner r = "o" /\
              MainGo.Repo r = "r" /\ MainGo.IssNum r = 7 /\ MainGo.Extra r = "".
Proof.
  apply (restored_entry_is_first_record Fixtures.url7 MoreFixtures.logReplayedSwapped
           Fixtures.replayedSwapped).
  unfold recordsIn. vm_compute. repeat constructor; eexists; reflexivity.
Defined.

(** The line of issue 7 after its Discourse step. *)
Lemma parseLine_reads_the_url_witness :
  MainGo.parseLine (("https://github.com/" +:+ "o" +:+ "/" +:+ "r" +:+ "/issues/" +:+ Itoa 7)
                    +:+ " " +:+ Itoa 1 +:+ " " +:+ Fixtures.topicURL)
  = Ret ([], MainGo.mkRestored
               ("https://github.com/" +:+ "o" +:+ "/" +:+ "r" +:+ "/issues/" +:+ Itoa 7)
               "o" "r" 7 1 (if 1 =? MainGo.discourseDone then Fixtures.topicURL else "")).
Proof.
  apply (parseLine_reads_the_url "o" "r" Fixtures.topicURL 7 1);
    try reflexivity; unfold intMin, intMax; lia.
Defined.

Section ResumeLoop.
Import MainGo.
Variable w : World.

Lemma writes_are_no_calls (evs : list Event) :
  forallb isLogWrite evs = true -> filter isSideEffect evs = [].
Proof.
  induction evs as [|e evs IH]; [reflexivity |].
  cbn [forallb]. intros H. apply andb_true_iff in H as [He Hevs].
  rewrite filter_cons_False by (destruct e; try discriminate; now intros Hx).
  now apply IH.
Qed.

Lemma saveState_writes (f : OS.File) (i : Issue) (state : Z) (extra : string) (st : St) :
  (forall h c d, writeErr w h c d = None) ->
  (forall h c, syncErr w h c = None) ->
  trace (snd (saveState w f i state extra st))
  = (trace st ++
     [LogWrite ((HTMLURL i +:+ " " +:+ Itoa state +:+ " " +:+ extra) +:+ nl)])%list.
Proof.
  intros Hw Hs. unfold saveState. rewrite Sprintf_checkpoint.
  unfold OS.WriteString, OS.Sync. rewrite Hw.
  destruct (OS.written _ _ _ _) as [c' off']. now rewrite Hs.
Qed.

(** X8.  Resuming an issue restored at DiscourseDone, in a world where
    the log can be written: the comment is posted, with the stale template
    if the issue has gone stale and otherwise with the active template
    filled with the author's handle and the restored extra; then the
    checkpoints CommentDone, CloseDone and LockDone are written one after
    the other, whether or not the comment was accepted, since its result
    is dropped. *)
Theorem resume_at_discourseDone
    (f : OS.File) (url owner repo extra : string) (num : Z) (iss : Issue) (st : St) :
  (forall h c d, writeErr w h c d = None) ->
  (forall h c, syncErr w h c = None) ->
  trace (continueFrom w f (mkRestored url owner repo num discourseDone extra) iss st)
  = (trace st ++
     [Comment iss
        (if isStale w iss st
         then Sprintf staleTpl [AStr (UserLogin iss)]
         else Sprintf activeTpl [AStr (UserLogin iss); AStr extra]);
      LogWrite ((HTMLURL iss +:+ " " +:+ Itoa commentDone +:+ " " +:+ "") +:+ nl);
      LogWrite ((HTMLURL iss +:+ " " +:+ Itoa closeDone +:+ " " +:+ "") +:+ nl);
      LogWrite ((HTMLURL iss +:+ " " +:+ Itoa lockDone +:+ " " +:+ "") +:+ nl)])%list.
Proof.
  intros Hw Hs. unfold continueFrom. cbn [Done Z.eqb discourseDone Pos.eqb].
  unfold caseCloseDone, caseCommentDone, caseDiscourseDone. cbn [Extra].
  rewrite !saveState_writes by assumption.
  destruct (isStale w iss st); unfold callComment, emit; cbn [snd trace];
    now rewrite <- !app_assoc.
Qed.

Lemma continueFrom_effects (f : OS.File) (i : RestoredIssue) (iss : Issue) (st : St) :
  exists evs,
    trace (continueFrom w f i iss st) = (trace st ++ evs)%list /\
    (filter isSideEffect evs = [] \/
     exists body, filter isSideEffect evs = [Comment iss body]).
Proof.
  destruct (Z.eq_dec (Done i) discourseDone) as [Hd | Hd].
  - unfold continueFrom. rewrite Hd. cbn [Z.eqb discourseDone Pos.eqb].
    unfold caseCloseDone, caseCommentDone, caseDiscourseDone.
    set (body := if isStale w iss st
                 then Sprintf staleTpl [AStr (UserLogin iss)]
                 else Sprintf activeTpl [AStr (UserLogin iss); AStr (Extra i)]).
    assert ((if isStale w iss st
             then snd (callComment w iss (Sprintf staleTpl [AStr (UserLogin iss)]) st)
             else snd (callComment w iss
                         (Sprintf activeTpl [AStr (UserLogin iss); AStr (Extra i)]) st))
            = emit (Comment iss body) st) as ->
      by (unfold body; now destruct (isStale w iss st)).
    set (s1 := snd (saveState w f iss commentDone "" (emit (Comment iss body) st))).
    set (s2 := snd (saveState w f iss closeDone "" s1)).
    destruct (saveState_trace w f iss lockDone "" s2) as (e3 & He3 & H3).
    destruct (saveState_trace w f iss closeDone "" s1) as (e2 & He2 & H2).
    destruct (saveState_trace w f iss commentDone "" (emit (Comment iss body) st))
      as (e1 & He1 & H1).
    rewrite He3. unfold s2. rewrite He2. unfold s1. rewrite He1. cbn [emit trace].
    exists ([Comment iss body] ++ e1 ++ e2 ++ e3)%list. split.
    + now rewrite <- !app_assoc.
    + right. exists body. rewrite !filter_app.
      rewrite (writes_are_no_calls _ H1), (writes_are_no_calls _ H2),
        (writes_are_no_calls _ H3).
      reflexivity.
  - destruct (continueFrom_writes_only w f i iss st Hd) as (evs & Ht & Hw).
    exists evs. split; [exact Ht | left; now apply writes_are_no_calls].
Qed.

Lemma continueLoop_at_limit (f : OS.File) (its : list RestoredIssue) (st : St) :
  continueLoop w f its maxCount st = st.
Proof. now destruct its. Qed.

(** X9.  A run in the mode "continue" makes at most one side-effecting
    call, and that call is a comment: the loop over the restored issues
    never closes or locks an issue and never posts to Discourse, and it
    stops after the first issue it could fetch. *)
Theorem resume_posts_at_most_one_comment (f : OS.File) (its : list RestoredIssue) :
  forall st,
    exists evs,
      trace (continueLoop w f its 0 st) = (trace st ++ evs)%list /\
      (filter isSideEffect evs = [] \/
       exists iss body, filter isSideEffect evs = [Comment iss body]).
Proof.
  induction its as [|i its IH]; intros st.
  - exists []. rewrite app_nil_r. now split; [| left].
  - cbn [continueLoop Z.eqb maxCount]. unfold callIssuesGet.
    assert (forall st', (exists evs, trace st' = (trace (emit (getOf i) st) ++ evs)%list /\
                          (filter isSideEffect evs = [] \/
                           exists iss body, filter isSideEffect evs = [Comment iss body]))
                        -> exists evs, trace st' = (trace st ++ evs)%list /\
                          (filter isSideEffect evs = [] \/
                           exists iss body, filter isSideEffect evs = [Comment iss body]))
      as Hskip.
    { intros st' (evs & Ht & He). exists (getOf i :: evs). split.
      - rewrite Ht. unfold emit. cbn [trace]. now rewrite <- app_assoc.
      - rewrite filter_cons_False by (now intros Hx). exact He. }
    destruct (issuesGet w (trace st) (Owner i) (Repo i) (IssNum i)) as [e | iss code body].
    + apply Hskip, IH.
    + destruct ((code <? 200) || (300 <=? code)); [apply Hskip, IH |].
      apply Hskip. change (incr 0) with maxCount. rewrite continueLoop_at_limit.
      destruct (continueFrom_effects f i iss (emit (getOf i) st)) as (evs & Ht & He).
      exists evs. split; [exact Ht |].
      destruct He as [He | [b He]]; [now left | right; eauto].
Qed.

(** X10.  An issue that cannot be fetched is passed over and does not
    count against the limit of one issue: when GitHub answers no [Get],
    the loop asks for every restored issue in turn and leaves the log as
    it is. *)
Theorem resume_skips_unfetched_issues (f : OS.File) (its : list RestoredIssue) :
  (forall h owner repo num, exists e, issuesGet w h owner repo num = GetError e) ->
  forall st,
    continueLoop w f its 0 st
    = mkSt (trace st ++ map getOf its) (disk st) (pos st).
Proof.
  intros Hget. induction its as [|i its IH]; intros st.
  - cbn [continueLoop map]. rewrite app_nil_r. now destruct st.
  - cbn [continueLoop Z.eqb maxCount map]. unfold callIssuesGet.
    destruct (Hget (trace st) (Owner i) (Repo i) (IssNum i)) as [e ->].
    rewrite IH. unfold emit. cbn [trace disk pos]. now rewrite <- app_assoc.
Qed.

End ResumeLoop.

(** Issue 7 restored at DiscourseDone, in a world that refuses the comment
    on it: the three checkpoints are written all the same. *)
Lemma resume_at_discourseDone_witness :
  trace (MainGo.continueFrom Fixtures.commentFailsOn7 Fixtures.appendHandle
           (MainGo.mkRestored Fixtures.url7 "o" "r" 7 MainGo.discourseDone Fixtures.topicURL)
           Fixtures.active7 Fixtures.fresh)
  = (trace Fixtures.fresh ++
     [Comment Fixtures.active7
        (if isStale Fixtures.commentFailsOn7 Fixtures.active7 Fixtures.fresh
         then Sprintf MainGo.staleTpl [AStr (UserLogin Fixtures.active7)]
         else Sprintf MainGo.activeTpl
                [AStr (UserLogin Fixtures.active7); AStr Fixtures.topicURL]);
      LogWrite ((HTMLURL Fixtures.active7 +:+ " " +:+ Itoa MainGo.commentDone +:+ " " +:+ "")
                +:+ nl);
      LogWrite ((HTMLURL Fixtures.active7 +:+ " " +:+ Itoa MainGo.closeDone +:+ " " +:+ "")
                +:+ nl);
      LogWrite ((HTMLURL Fixtures.active7 +:+ " " +:+ Itoa MainGo.lockDone +:+ " " +:+ "")
                +:+ nl)])%list.
Proof.
  apply (resume_at_discourseDone Fixtures.commentFailsOn7 Fixtures.appendHandle
           Fixtures.url7 "o" "r" Fixtures.topicURL 7 Fixtures.active7 Fixtures.fresh).
  - reflexivity.
  - reflexivity.
Defined.

Example comment_was_refused :
  callFailed Fixtures.commentFailsOn7 []
    (Comment Fixtures.active7
       (Sprintf MainGo.activeTpl [AStr "alice"; AStr Fixtures.topicURL])) = true.
Proof. reflexivity. Qed.

(** Two restored issues and a GitHub that answers no [Get]: both are
    asked for, nothing else happens. *)
Lemma resume_skips_unfetched_issues_witness :
  MainGo.continueLoop MoreFixtures.getFails Fixtures.appendHandle
    [Fixtures.rec7 2 ""; Fixtures.rec8 2] 0 (Fixtures.withLog Fixtures.logAtCommentDone)
  = mkSt (trace (Fixtures.withLog Fixtures.logAtCommentDone)
          ++ map getOf [Fixtures.rec7 2 ""; Fixtures.rec8 2])
      (disk (Fixtures.withLog Fixtures.logAtCommentDone))
      (pos (Fixtures.withLog Fixtures.logAtCommentDone)).
Proof.
  apply (resume_skips_unfetched_issues MoreFixtures.getFails Fixtures.appendHandle).
  intros h owner repo num. exists "timeout". reflexivity.
Defined.

(** ** A log of checkpoints, read back *)

Section LogOfCheckpoints.
Import MainGo.

Lemma restoreLines_last_empty (lines : list string) :
  forall m reports,
    restoreLines (lines ++ [""]) m reports = restoreLines lines m reports.
Proof.
  induction lines as [|l lines IH]; intros m reports; [reflexivity |].
  cbn [app restoreLines]. destruct (len l =? 0); [apply IH |].
  destruct (parseLine l) as [[rs r] | c | p]; cbn [obind]; [apply IH | | ]; reflexivity.
Qed.

Lemma lineBody_no_nl (url : string) (cp : Z * string) :
  hasByte url (ascii_of_nat 10) = false ->
  hasByte (snd cp) (ascii_of_nat 10) = false ->
  hasByte (lineBody url cp) (ascii_of_nat 10) = false.
Proof.
  intros Hu He. unfold lineBody. rewrite !hasByte_app, Hu, He.
  rewrite Itoa_no_byte by reflexivity. reflexivity.
Qed.

Lemma Split_linesOf (url : string) (cps : list (Z * string)) :
  hasByte url (ascii_of_nat 10) = false ->
  Forall (fun cp => hasByte (snd cp) (ascii_of_nat 10) = false) cps ->
  Split (linesOf url cps) (ascii_of_nat 10) = (map (lineBody url) cps ++ [""])%list.
Proof.
  intros Hu. induction 1 as [|cp cps Hcp _ IH]; [reflexivity |].
  cbn [linesOf map app]. rewrite app_assoc_s. unfold nl at 1.
  change (String (ascii_of_nat 10) "" +:+ linesOf url cps)
    with (String (ascii_of_nat 10) (linesOf url cps)).
  rewrite Split_app_sep by (now apply lineBody_no_nl). now rewrite IH.
Qed.

End LogOfCheckpoints.

Section LogRestored.
Import MainGo.

Lemma lineBody_nonempty (url : string) (cp : Z * string) :
  (len (lineBody url cp) =? 0) = false.
Proof.
  unfold lineBody.
  change (url +:+ " " +:+ Itoa (fst cp) +:+ " " +:+ snd cp)
    with (url +:+ String " " (Itoa (fst cp) +:+ " " +:+ snd cp)).
  apply len_app_cons.
Qed.

Lemma parse_checkpoints (url : string) (cps : list (Z * string)) :
  hasByte url " " = false ->
  (7 <= length (Split url "/"))%nat ->
  Forall checkpointOk cps ->
  exists recs,
    Forall2 (fun l r => (len l =? 0) = false /\ exists rs, parseLine l = Ret (rs, r))
            (map (lineBody url) cps) recs /\
    Forall2 (fun cp r => URL r = url /\ Done r = fst cp /\ Extra r = snd cp) cps recs.
Proof.
  intros Hu Hf. induction 1 as [|cp cps (Hs & Hsp & Hnl & He) _ (recs & IH1 & IH2)].
  - exists []. split; constructor.
  - destruct (parseLine_checkpoint url (snd cp) (fst cp) Hu Hf Hsp Hs He)
      as (reports & owner & repo & num & Hp).
    exists (mkRestored url owner repo num (fst cp) (snd cp) :: recs). split.
    + cbn [map]. constructor; [| exact IH1].
      split; [apply lineBody_nonempty | now exists reports].
    + constructor; [now repeat split | exact IH2].
Qed.

Lemma recordsOf_all (url : string) (cps : list (Z * string)) (recs : list RestoredIssue) :
  Forall2 (fun cp r => URL r = url /\ Done r = fst cp /\ Extra r = snd cp) cps recs ->
  recordsOf url recs = recs /\ Done <$> recs = fst <$> cps /\
  (forall u, u <> url -> recordsOf u recs = []).
Proof.
  induction 1 as [|cp r cps recs (Hu & Hd & He) _ (IH1 & IH2 & IH3)].
  - now repeat split.
  - unfold recordsOf in *. repeat split.
    + rewrite filter_cons_True by exact Hu. now rewrite IH1.
    + cbn [fmap list_fmap]. now rewrite Hd, <- IH2.
    + intros u Hne. rewrite filter_cons_False by congruence. now apply IH3.
Qed.

Lemma restore_linesOf (url : string) (cps : list (Z * string)) :
  hasByte url " " = false ->
  hasByte url (ascii_of_nat 10) = false ->
  (7 <= length (Split url "/"))%nat ->
  Forall checkpointOk cps ->
  exists reports m,
    restore (linesOf url cps) = Ret (reports, m) /\
    (forall u, u <> url -> m !! u = None) /\
    match cps with
    | [] => m !! url = None
    | first :: _ =>
        exists r, m !! url = Some r /\ URL r = url /\
                  isMaxOf (Done r) (fst <$> cps) /\ Extra r = snd first
    end.
Proof.
  intros Hsp Hnl Hfr Hcps.
  destruct (parse_checkpoints url cps Hsp Hfr Hcps) as (recs & Hparse & Hrecs).
  destruct (restoreLines_fold _ _ Hparse ∅ []) as [reports Hres].
  exists reports, (foldl populate ∅ recs).
  destruct (recordsOf_all url cps recs Hrecs) as (Hall & Hdone & Hother).
  split; [| split].
  - unfold restore. rewrite Split_linesOf.
    + now rewrite restoreLines_last_empty.
    + exact Hnl.
    + eapply Forall_impl; [exact Hcps |]. now intros cp (_ & _ & H & _).
  - intros u Hne. pose proof (fold_entry_of_first u recs) as H.
    now rewrite (Hother u Hne) in H.
  - destruct Hrecs as [|first r0 cps recs (Hu & Hd & He) Hrest]; [reflexivity |].
    pose proof (fold_entry_of_first url (r0 :: recs)) as Hfirst.
    rewrite Hall in Hfirst. cbn [head] in Hfirst.
    destruct Hfirst as (r & Hr & Hur & _ & _ & _ & Her).
    exists r. repeat split; [exact Hr | exact Hur | | | congruence].
    + destruct (fold_new url (r0 :: recs) ∅ (lookup_empty url)) as (r' & Hr' & [Hin _]).
      { now rewrite Hall. }
      rewrite Hr in Hr'. injection Hr' as <-. now rewrite Hall, Hdone in Hin.
    + destruct (fold_new url (r0 :: recs) ∅ (lookup_empty url)) as (r' & Hr' & [_ Hmax]).
      { now rewrite Hall. }
      rewrite Hr in Hr'. injection Hr' as <-. now rewrite Hall, Hdone in Hmax.
Qed.


(** X11.  A log that holds checkpoints of one issue, written line by line
    in the format of [saveState], is read back as one entry: its step is
    the highest step in the log, its extra is the extra of the first line,
    and no other URL gets an entry.  An empty log restores nothing. *)
Theorem log_of_checkpoints_restores (url : string) (cps : list (Z * string)) :
  hasByte url " " = false ->
  hasByte url (ascii_of_nat 10) = false ->
  (7 <= length (Split url "/"))%nat ->
  Forall checkpointOk cps ->
  exists reports m,
    restore (linesOf url cps) = Ret (reports, m) /\
    (forall u, u <> url -> m !! u = None) /\
    match cps with
    | [] => m !! url = None
    | first :: _ =>
        exists r, m !! url = Some r /\ URL r = url /\
                  isMaxOf (Done r) (fst <$> cps) /\ Extra r = snd first
    end.
Proof. apply restore_linesOf. Qed.

End LogRestored.

(** The log of two runs over issue 7. *)
Lemma log_of_checkpoints_restores_witness :
  exists reports m,
    MainGo.restore
      (linesOf Fixtures.url7
         [(1, Fixtures.topicURL); (2, ""); (3, ""); (1, Fixtures.topicURL); (2, "")])
    = Ret (reports, m) /\
    (forall u, u <> Fixtures.url7 -> m !! u = None) /\
    exists r, m !! Fixtures.url7 = Some r /\ MainGo.URL r = Fixtures.url7 /\
              isMaxOf (MainGo.Done r)
                (fst <$> [(1, Fixtures.topicURL); (2, ""); (3, "");
                          (1, Fixtures.topicURL); (2, "")]) /\
              MainGo.Extra r = snd (1, Fixtures.topicURL).
Proof.
  apply (log_of_checkpoints_restores Fixtures.url7
           [(1, Fixtures.topicURL); (2, ""); (3, ""); (1, Fixtures.topicURL); (2, "")]).
  - reflexivity.
  - reflexivity.
  - vm_compute. lia.
  - repeat constructor; cbn; try discriminate; try lia; try reflexivity;
      intros H; now contradiction H.
Defined.

(** ** From a finished issue to its restored state *)

Section ProcessSuccess.
Import MainGo.
Variable w : World.
Variable f : OS.File.
Variable mode : string.
Variable i : Issue.
Hypothesis Hf : OS.append f = true.
Hypothesis Hok : succeedsOn w i.

Lemma saveState_appends (state : Z) (extra : string) (st : St) :
  saveState w f i state extra st = (None, afterCheckpoint (HTMLURL i) (state, extra) st).
Proof.
  destruct Hok as (_ & _ & _ & Hw & Hs).
  unfold saveState. rewrite Sprintf_checkpoint.
  unfold OS.WriteString, OS.written, OS.Sync. rewrite Hw, Hf, Hs. reflexivity.
Qed.

Lemma main_call_ok {A} (call : St -> option string * St) (ev : Event)
    (k : M (RunStats * St) A) (s : RunStats) (st : St) :
  call st = (None, emit ev st) ->
  (e <- lift call ;; orContinue e ;;; k) (s, st) = k (s, emit ev st).
Proof. unfold bind, lift. cbn [fst snd]. now intros ->. Qed.

Lemma main_checkpoint_ok {A} (state : Z) (extra : string)
    (k : M (RunStats * St) A) (s : RunStats) (st : St) :
  (e <- lift (saveState w f i state extra) ;; orReturn e ;;; k) (s, st)
  = k (s, afterCheckpoint (HTMLURL i) (state, extra) st).
Proof. unfold bind, lift. cbn [fst snd]. now rewrite saveState_appends. Qed.

(** One round of [process] for a stale issue, when every call succeeds. *)
Lemma processBody_stale (stats : RunStats) (st : St) :
  IsPullRequest i = false ->
  (Processed stats =? maxCount) = false ->
  isStale w i (emit (Sleep 1001000) st) = true ->
  processBody w f mode i (stats, st)
  = (Val tt,
     (incProcessed (incStale stats),
      afterCheckpoint (HTMLURL i) (lockDone, "")
        (emit (Lock i)
           (afterCheckpoint (HTMLURL i) (closeDone, "")
              (emit (Close i)
                 (afterCheckpoint (HTMLURL i) (commentDone, "")
                    (emit (Comment i (Sprintf staleTpl []))
                       (emit (Sleep 1001000) st)))))))).
Proof.
  intros Hpr Hlim Hstale. destruct Hok as (Hc & Hcl & Hl & Hw & Hs).
  unfold processBody. rewrite Hpr.
  unfold bind at 1. unfold lift at 1. unfold callSleep. cbn [fst snd].
  unfold bind at 1. unfold getStats. cbn [fst snd]. rewrite Hlim.
  unfold bind at 1. unfold lift at 1. cbn [fst snd].
  change (time.Millisecond + 1000) with 1001000. rewrite Hstale. cbn [negb].
  rewrite (bind_val _ _ _
             (incStale stats, emit (Comment i (Sprintf staleTpl [])) (emit (Sleep 1001000) st))
             tt)
    by (unfold bind, modStats, lift, callComment, orContinue; cbn [fst snd];
        now rewrite Hc).
  rewrite main_checkpoint_ok.
  rewrite (main_call_ok _ (Close i)) by (unfold callClose; now rewrite Hcl).
  rewrite main_checkpoint_ok.
  rewrite (main_call_ok _ (Lock i)) by (unfold callLock; now rewrite Hl).
  rewrite main_checkpoint_ok. reflexivity.
Qed.

(** One round of [process] for an active issue, when every call succeeds
    and Discourse answers with the URL [topic]. *)
Lemma processBody_active (stats : RunStats) (st : St) (topic : string) :
  IsPullRequest i = false ->
  (Processed stats =? maxCount) = false ->
  isStale w i (emit (Sleep 1001000) st) = false ->
  discoursePost w (trace (emit (Sleep 1001000) st)) i mode = inl topic ->
  processBody w f mode i (stats, st)
  = (Val tt,
     (incProcessed (incActive stats),
      afterCheckpoint (HTMLURL i) (lockDone, "")
        (emit (Lock i)
           (afterCheckpoint (HTMLURL i) (closeDone, "")
              (emit (Close i)
                 (afterCheckpoint (HTMLURL i) (commentDone, "")
                    (emit (Comment i (Sprintf activeTpl [AStr topic]))
                       (afterCheckpoint (HTMLURL i) (discourseDone, topic)
                          (emit (DiscoursePost i mode)
                             (emit (Sleep 1001000) st)))))))))).
Proof.
  intros Hpr Hlim Hstale Hd. destruct Hok as (Hc & Hcl & Hl & Hw & Hs).
  unfold processBody. rewrite Hpr.
  unfold bind at 1. unfold lift at 1. unfold callSleep. cbn [fst snd].
  unfold bind at 1. unfold getStats. cbn [fst snd]. rewrite Hlim.
  unfold bind at 1. unfold lift at 1. cbn [fst snd].
  change (time.Millisecond + 1000) with 1001000. rewrite Hstale. cbn [negb].
  rewrite (bind_val _ _ _
             (incActive stats,
              emit (Comment i (Sprintf activeTpl [AStr topic]))
                (afterCheckpoint (HTMLURL i) (discourseDone, topic)
                   (emit (DiscoursePost i mode) (emit (Sleep 1001000) st))))
             tt).
  2: { unfold bind at 1. unfold modStats at 1. cbn [fst snd].
       unfold bind at 1. unfold lift at 1. unfold callDiscoursePost. cbn [fst snd].
       rewrite Hd. rewrite main_checkpoint_ok.
       unfold bind, lift, callComment, orContinue. cbn [fst snd]. now rewrite Hc. }
  rewrite main_checkpoint_ok.
  rewrite (main_call_ok _ (Close i)) by (unfold callClose; now rewrite Hcl).
  rewrite main_checkpoint_ok.
  rewrite (main_call_ok _ (Lock i)) by (unfold callLock; now rewrite Hl).
  rewrite main_checkpoint_ok. reflexivity.
Qed.

End ProcessSuccess.

Section ProcessThenResume.
Import MainGo.
Variable w : World.

Lemma content_afterCheckpoint (url : string) (cp : Z * string) (st : St) :
  content (afterCheckpoint url cp st) = content st +:+ linesOf url [cp].
Proof. unfold afterCheckpoint, content at 1. cbn [disk linesOf]. now rewrite app_empty_r. Qed.

Lemma content_emit (e : Event) (st : St) : content (emit e st) = content st.
Proof. reflexivity. Qed.

Lemma linesOf_app (url : string) (a b : list (Z * string)) :
  linesOf url (a ++ b) = linesOf url a +:+ linesOf url b.
Proof.
  induction a as [|cp a IH]; [reflexivity |].
  cbn [app linesOf]. now rewrite IH, !app_assoc_s.
Qed.

Lemma max_of_steps (z : Z) (l : list Z) :
  isMaxOf z (l ++ [lockDone]) -> Forall (fun x => x <= lockDone) l -> z = lockDone.
Proof.
  intros [Hin Hmax] Hl.
  assert (lockDone <= z) by (apply Hmax, elem_of_app; right; apply list_elem_of_here).
  apply elem_of_app in Hin as [Hin | Hin].
  - rewrite Forall_forall in Hl. specialize (Hl z Hin). lia.
  - now apply list_elem_of_singleton in Hin.
Qed.

(** X12.  From a finished issue to its restored state.  Take an issue
    that is no pull request and whose URL is a GitHub issue URL (no space,
    no line feed, at least seven fields between slashes), and, if the
    issue is active, a Discourse URL without space or line feed.  When
    [process] takes the issue through all its steps on an empty log opened
    for appending, every call and write succeeding, the log it leaves is
    read back by resume as one entry for the issue, at step LockDone, with
    the Discourse URL as extra if the issue was active; resuming from that
    entry does nothing. *)
Theorem finished_issue_restores_at_lockDone
    (f : OS.File) (mode : string) (i : Issue) (st : St) (topic : string) :
  OS.append f = true ->
  succeedsOn w i ->
  IsPullRequest i = false ->
  content st = "" ->
  hasByte (HTMLURL i) " " = false ->
  hasByte (HTMLURL i) (ascii_of_nat 10) = false ->
  (7 <= length (Split (HTMLURL i) "/"))%nat ->
  (isStale w i (emit (Sleep 1001000) st) = false ->
   discoursePost w (trace (emit (Sleep 1001000) st)) i mode = inl topic /\
   hasByte topic " " = false /\ hasByte topic (ascii_of_nat 10) = false) ->
  exists stats st' reports m r,
    process w [i] f mode st = ((Some stats, None), st') /\
    Processed stats = 1 /\
    restore (content st') = Ret (reports, m) /\
    m !! HTMLURL i = Some r /\
    Done r = lockDone /\
    Extra r = (if isStale w i (emit (Sleep 1001000) st) then "" else topic) /\
    forall iss st0, continueFrom w f r iss st0 = st0.
Proof.
  intros Hf Hok Hpr Hempty Hsp Hnl Hfr Hactive.
  assert (forall r : RestoredIssue,
             Done r = lockDone -> forall iss st0, continueFrom w f r iss st0 = st0)
    as Hdone by (intros r Hr iss st0; unfold continueFrom; now rewrite Hr).
  destruct (isStale w i (emit (Sleep 1001000) st)) eqn:Hstale.
  - pose proof (processBody_stale w f mode i Hf Hok zeroStats st Hpr eq_refl Hstale) as Hb.
    destruct (restore_linesOf (HTMLURL i) [(commentDone, ""); (closeDone, ""); (lockDone, "")]
                Hsp Hnl Hfr) as (reports & m & Hres & _ & r & Hr & _ & Hmax & Hex).
    { repeat constructor; cbn; try discriminate; try reflexivity. }
    eexists _, _, reports, m, r. split.
    { unfold process. cbn [processLoop]. rewrite Hb. reflexivity. }
    split; [reflexivity |]. split.
    { repeat (rewrite content_afterCheckpoint || rewrite content_emit).
      rewrite Hempty, app_empty_l, !app_assoc_s, <- !linesOf_app.
      exact Hres. }
    assert (Done r = lockDone) as Hd.
    { apply (max_of_steps _ [commentDone; closeDone]); [exact Hmax |].
      repeat constructor; discriminate. }
    repeat split; [exact Hr | exact Hd | exact Hex | now apply Hdone].
  - destruct (Hactive eq_refl) as (Hd & Htsp & Htnl).
    pose proof (processBody_active w f mode i Hf Hok zeroStats st topic Hpr eq_refl
                  Hstale Hd) as Hb.
    destruct (restore_linesOf (HTMLURL i)
                [(discourseDone, topic); (commentDone, ""); (closeDone, ""); (lockDone, "")]
                Hsp Hnl Hfr) as (reports & m & Hres & _ & r & Hr & _ & Hmax & Hex).
    { repeat constructor; cbn; try discriminate; try reflexivity; try assumption.
      intros Hne. now contradiction Hne. }
    eexists _, _, reports, m, r. split.
    { unfold process. cbn [processLoop]. rewrite Hb. reflexivity. }
    split; [reflexivity |]. split.
    { repeat (rewrite content_afterCheckpoint || rewrite content_emit).
      rewrite Hempty, app_empty_l, !app_assoc_s, <- !linesOf_app.
      exact Hres. }
    assert (Done r = lockDone) as Hdn.
    { apply (max_of_steps _ [discourseDone; commentDone; closeDone]); [exact Hmax |].
      repeat constructor; discriminate. }
    repeat split; [exact Hr | exact Hdn | exact Hex | now apply Hdone].
Qed.

End ProcessThenResume.

(** The active issue 7, migrated on an empty log in a calm world. *)
Lemma finished_issue_restores_at_lockDone_witness :
  exists stats st' reports m r,
    MainGo.process Fixtures.calm [Fixtures.active7] Fixtures.appendHandle "migrate"
      (Fixtures.withLog "")
    = ((Some stats, None), st') /\
    MainGo.Processed stats = 1 /\
    MainGo.restore (content st') = Ret (reports, m) /\
    m !! HTMLURL Fixtures.active7 = Some r /\
    MainGo.Done r = MainGo.lockDone /\
    MainGo.Extra r
    = (if isStale Fixtures.calm Fixtures.active7 (emit (Sleep 1001000) (Fixtures.withLog ""))
       then "" else Fixtures.topicURL) /\
    forall iss st0, MainGo.continueFrom Fixtures.calm Fixtures.appendHandle r iss st0 = st0.
Proof.
  apply (finished_issue_restores_at_lockDone Fixtures.calm Fixtures.appendHandle "migrate"
           Fixtures.active7 (Fixtures.withLog "") Fixtures.topicURL).
  - reflexivity.
  - repeat split.
  - reflexivity.
  - reflexivity.
  - reflexivity.
  - reflexivity.
  - vm_compute. lia.
  - intros _. repeat split.
Defined.

(** ** Pull requests *)

Section PullRequests.
Import MainGo.
Variable w : World.

Lemma incr_small (x : Z) : 0 <= x < intMax -> incr x = x + 1.
Proof.
  unfold incr, wrapInt, intMax. intros H.
  rewrite Z.mod_small by lia. lia.
Qed.

Lemma processLoop_pull_requests (f : OS.File) (mode : string) (issues : list Issue) :
  Forall (fun i => IsPullRequest i = true) issues ->
  forall stats st,
    0 <= PullRequest stats ->
    PullRequest stats + Z.of_nat (length issues) <= intMax ->
    processLoop w f mode issues stats st
    = ((Some (mkStats (Processed stats) (Stale stats) (Active stats)
                (PullRequest stats + Z.of_nat (length issues))), None),
       mkSt (trace st ++ repeat (Sleep 1001000) (length issues)) (disk st) (pos st)).
Proof.
  induction 1 as [|i issues Hpr _ IH]; intros stats st H0 Hmax.
  - cbn [processLoop length repeat Z.of_nat]. rewrite Z.add_0_r, app_nil_r.
    now destruct stats, st.
  - cbn [processLoop]. unfold processBody. rewrite Hpr.
    unfold bind, lift, callSleep, modStats, jump. cbn [fst snd].
    cbn [length] in Hmax. rewrite Nat2Z.inj_succ in Hmax.
    rewrite IH; cbn [incPullRequest PullRequest Processed Stale Active];
      rewrite ?incr_small by lia; try lia.
    unfold emit. cbn [trace disk pos length repeat].
    rewrite <- app_assoc. cbn [app]. rewrite Nat2Z.inj_succ.
    change (time.Millisecond + 1000) with 1001000.
    replace (PullRequest stats + 1 + Z.of_nat (length issues))
      with (PullRequest stats + Z.succ (Z.of_nat (length issues))) by lia.
    reflexivity.
Qed.

(** X13.  Pull requests are only counted: on a list of pull requests
    [process] makes no call and writes nothing; it sleeps once for each,
    and returns their number in the counter PullRequest, the other
    counters at zero.  The limit of one processed issue does not apply to
    them. *)
Theorem process_only_counts_pull_requests
    (f : OS.File) (mode : string) (issues : list Issue) (st : St) :
  Forall (fun i => IsPullRequest i = true) issues ->
  Z.of_nat (length issues) <= intMax ->
  process w issues f mode st
  = ((Some (mkStats 0 0 0 (Z.of_nat (length issues))), None),
     mkSt (trace st ++ repeat (Sleep 1001000) (length issues)) (disk st) (pos st)).
Proof.
  intros Hpr Hlen. unfold process.
  rewrite (processLoop_pull_requests f mode issues Hpr) by (cbn; lia).
  reflexivity.
Qed.

End PullRequests.

(** Three pull requests. *)
Lemma process_only_counts_pull_requests_witness :
  MainGo.process Fixtures.calm [Fixtures.pull9; Fixtures.pull9; Fixtures.pull9]
    Fixtures.appendHandle "migrate" Fixtures.fresh
  = ((Some (MainGo.mkStats 0 0 0 3), None),
     mkSt ([] ++ repeat (Sleep 1001000) 3) None 0%nat).
Proof.
  apply (process_only_counts_pull_requests Fixtures.calm Fixtures.appendHandle "migrate"
           [Fixtures.pull9; Fixtures.pull9; Fixtures.pull9] Fixtures.fresh).
  - repeat constructor.
  - vm_compute. discriminate.
Defined.

(** ** More on the live run *)

Section LiveRunMore.
Import RunModes.
Variable w : World.
Variable cfg : Config.

(** X14.  The stats that [liveRun.run] returns are those the receiver
    came with: [process] has a value receiver, so whatever the run did,
    with or without an error, none of its counters has moved. *)
Theorem liveRun_returns_the_receivers_stats
    (run : liveRun) (issues : list Issue) (unfinished : option Issue) (st : St) :
  match fst (liveRun_run w cfg run issues unfinished st) with
  | Ret (s, _) => s = stats run
  | _ => True
  end.
Proof.
  unfold liveRun_run.
  destruct (openLogErr w (disk st)); [exact Logic.I |].
  destruct (OS.OpenFile chkptFlags st) as [[f st1] |]; [| exact Logic.I].
  destruct (liveRunLoop w cfg _ issues st1) as [[s e] st2] eqn:Hloop. cbn [fst].
  now destruct (liveRunLoop_stops w cfg _ _ _ _ _ _ Hloop) as [-> _].
Qed.

(** The checkpoint of [liveRun.process] for issue [i] at step [done]. *)
Lemma liveRun_order_steps (run : liveRun) (f : OS.File) (i : Issue) (st : St)
    (body : string) (c : restoredIssue) (s : runStats) :
  succeedsOn w i ->
  exists st',
    (e <- lift (callComment w i body) ;;
     orReturn e ;;;
     checkpointOrReturn w cfg (setDone c commentDone) ;;;
     e <- lift (callClose w i) ;;
     orReturn e ;;;
     checkpointOrReturn w cfg (setDone (setDone c commentDone) closeDone) ;;;
     e <- lift (callLock w i) ;;
     orReturn e ;;;
     checkpointOrReturn w cfg
       (setDone (setDone (setDone c commentDone) closeDone) lockDone) ;;;
     modStats incProcessed) (mkLive s (Some f), st)
    = (Val tt, (mkLive (incProcessed s) (Some f), st')) /\
    trace st'
    = (trace st ++
       [Comment i body; LogWrite (checkpointLine cfg (setDone c commentDone));
        Close i; LogWrite (checkpointLine cfg (setDone c closeDone));
        Lock i; LogWrite (checkpointLine cfg (setDone c lockDone))])%list.
Proof.
  intros (Hc & Hcl & Hl & Hw & Hs).
  rewrite (run_call_ok _ (Comment i body)) by (unfold callComment; now rewrite Hc).
  destruct (run_checkpoint_ok w cfg (setDone c commentDone)
              (e <- lift (callClose w i) ;; orReturn e ;;;
               checkpointOrReturn w cfg (setDone (setDone c commentDone) closeDone) ;;;
               e <- lift (callLock w i) ;; orReturn e ;;;
               checkpointOrReturn w cfg
                 (setDone (setDone (setDone c commentDone) closeDone) lockDone) ;;;
               modStats incProcessed)
              (mkLive s (Some f)) f (emit (Comment i body) st) eq_refl Hw Hs)
    as (st1 & -> & Ht1).
  rewrite (run_call_ok _ (Close i)) by (unfold callClose; now rewrite Hcl).
  destruct (run_checkpoint_ok w cfg (setDone (setDone c commentDone) closeDone)
              (e <- lift (callLock w i) ;; orReturn e ;;;
               checkpointOrReturn w cfg
                 (setDone (setDone (setDone c commentDone) closeDone) lockDone) ;;;
               modStats incProcessed)
              (mkLive s (Some f)) f (emit (Close i) st1) eq_refl Hw Hs)
    as (st2 & -> & Ht2).
  rewrite (run_call_ok _ (Lock i)) by (unfold callLock; now rewrite Hl).
  destruct (run_checkpoint_ok w cfg
              (setDone (setDone (setDone c commentDone) closeDone) lockDone)
              (modStats incProcessed)
              (mkLive s (Some f)) f (emit (Lock i) st2) eq_refl Hw Hs)
    as (st3 & -> & Ht3).
  unfold modStats. cbn [fst snd stats chkptf]. exists st3. split; [reflexivity |].
  unfold emit in Ht1, Ht2, Ht3. cbn [trace] in Ht1, Ht2, Ht3.
  rewrite Ht3, Ht2, Ht1. now rewrite <- !app_assoc.
Qed.

(** X15.  The order of calls and checkpoints in [liveRun.process], when
    every call succeeds: for an active issue the topic is made and the
    checkpoint DiscourseDone written first; then, for every issue, the
    comment, close and lock follow, each call directly followed by the
    write of its checkpoint and no call made before the checkpoint of the
    one before it is written. *)
Theorem liveRun_checkpoints_follow_their_calls
    (run : liveRun) (f : OS.File) (i : Issue) (st : St) (url : string) :
  let title :=
    if negb (String.eqb (runID cfg) "")
    then Sprintf "[test][%s] %s" [AStr (runID cfg); AStr (Title i)]
    else Title i in
  let c := mkRestored "" (RepoOwnerLogin i) (HTMLURL i) (Number i) 0 "" in
  let line := fun done => LogWrite (checkpointLine cfg (setDone c done)) in
  chkptf run = Some f ->
  succeedsOn w i ->
  IsPullRequest i = false ->
  (isStale w i st = false ->
   discourseTopic w (trace st) i title (Body i) (discourseCategoryID cfg) = inl url) ->
  exists st',
    liveRun_process w cfg run i st = (None, st') /\
    trace st'
    = (trace st ++
       (if isStale w i st then []
        else [DiscourseTopic i title (Body i) (discourseCategoryID cfg);
              line discourseDone]) ++
       [Comment i (if isStale w i st
                   then Sprintf staleTpl [AStr (UserLogin i)]
                   else Sprintf activeTpl [AStr (UserLogin i); AStr url]);
        line commentDone; Close i; line closeDone; Lock i; line lockDone])%list.
Proof.
  intros title c line Hf Hok Hpr Hd.
  pose proof Hok as (_ & _ & _ & Hw & Hs).
  unfold liveRun_process, liveRunProcessBody. rewrite Hpr.
  unfold bind at 1. unfold lift at 1. cbn [snd fst].
  destruct (isStale w i st) eqn:Hstale; cbn [negb].
  - unfold bind at 1. unfold bind at 1. unfold modStats at 1. unfold ret at 1.
    cbn [fst snd stats chkptf]. rewrite Hf.
    destruct (liveRun_order_steps run f i st (Sprintf staleTpl [AStr (UserLogin i)])
                c (incStale (stats run)) Hok) as (st' & Hrun & Htr).
    fold c. rewrite Hrun. exists st'. split; [reflexivity | exact Htr].
  - specialize (Hd eq_refl). fold title.
    unfold bind at 1. unfold bind at 1. unfold modStats at 1.
    cbn [fst snd stats chkptf]. rewrite Hf.
    unfold bind at 1. unfold lift at 1. unfold callDiscourseTopic. cbn [fst snd].
    rewrite Hd.
    match goal with
    | |- context [bind (checkpointOrReturn ?w' ?cfg' ?c') ?k (?r, ?s)] =>
        destruct (run_checkpoint_ok w cfg c' (k tt) r f s eq_refl Hw Hs)
          as (st1 & Hcp & Ht1)
    end.
    cbv beta in Hcp. rewrite Hcp. unfold ret at 1.
    destruct (liveRun_order_steps run f i st1
                (Sprintf activeTpl [AStr (UserLogin i); AStr url])
                c (incActive (stats run)) Hok) as (st' & Hrun & Htr).
    fold c. cbn [app] in Hrun |- *. rewrite Hrun. exists st'. split; [reflexivity |].
    rewrite Htr, Ht1. unfold emit. cbn [trace]. now rewrite <- !app_assoc.
Qed.

Lemma liveRunLoop_pull_requests (run : liveRun) (issues : list Issue) :
  Forall (fun i => IsPullRequest i = true) issues ->
  forall st,
    liveRunLoop w cfg run issues st
    = ((stats run, None),
       mkSt (trace st ++ repeat (Sleep 1001000) (length issues)) (disk st) (pos st)).
Proof.
  induction 1 as [|i issues Hpr _ IH]; intros st.
  - cbn [liveRunLoop length repeat]. rewrite app_nil_r. now destruct st.
  - cbn [liveRunLoop]. unfold liveRun_process, liveRunProcessBody. rewrite Hpr.
    unfold modStats. cbn [fst snd]. rewrite IH.
    unfold callSleep, emit. cbn [snd trace disk pos length repeat].
    now rewrite <- app_assoc.
Qed.

(** X16.  On a list of pull requests a live run only opens the log and
    sleeps: no call is made and nothing is written; the file is created,
    empty, if it was not there, and left as it is otherwise. *)
Theorem liveRun_skips_pull_requests
    (run : liveRun) (issues : list Issue) (unfinished : option Issue) (st : St) :
  Forall (fun i => IsPullRequest i = true) issues ->
  openLogErr w (disk st) = None ->
  liveRun_run w cfg run issues unfinished st
  = (Ret (stats run, None),
     mkSt (trace st ++ repeat (Sleep 1001000) (length issues)) (Some (content st)) 0%nat).
Proof.
  intros Hpr Hopen. unfold liveRun_run. rewrite Hopen.
  unfold OS.OpenFile, chkptFlags, content. cbn [OS.O_CREATE OS.O_TRUNC OS.O_APPEND].
  destruct (disk st); now rewrite liveRunLoop_pull_requests.
Qed.

End LiveRunMore.

(** The active issue 7 in a calm world. *)
Lemma liveRun_checkpoints_follow_their_calls_witness :
  let run := RunModes.mkLive (RunModes.mkStats 0 0 0 0) (Some (OS.mkFile false)) in
  let c := RunModes.mkRestored "" "o" Fixtures.url7 7 0 "" in
  let line := fun done =>
    LogWrite (RunModes.checkpointLine Fixtures.cfg (RunModes.setDone c done)) in
  exists st',
    RunModes.liveRun_process Fixtures.calm Fixtures.cfg run Fixtures.active7 Fixtures.fresh
    = (None, st') /\
    trace st'
    = (trace Fixtures.fresh ++
       (if isStale Fixtures.calm Fixtures.active7 Fixtures.fresh then []
        else [DiscourseTopic Fixtures.active7 "Build fails" "It fails." 11;
              line RunModes.discourseDone]) ++
       [Comment Fixtures.active7
          (if isStale Fixtures.calm Fixtures.active7 Fixtures.fresh
           then Sprintf RunModes.staleTpl [AStr "alice"]
           else Sprintf RunModes.activeTpl [AStr "alice"; AStr Fixtures.topicURL]);
        line RunModes.commentDone; Close Fixtures.active7; line RunModes.closeDone;
        Lock Fixtures.active7; line RunModes.lockDone])%list.
Proof.
  cbv zeta.
  apply (liveRun_checkpoints_follow_their_calls Fixtures.calm Fixtures.cfg
           (RunModes.mkLive (RunModes.mkStats 0 0 0 0) (Some (OS.mkFile false)))
           (OS.mkFile false) Fixtures.active7 Fixtures.fresh Fixtures.topicURL).
  - reflexivity.
  - repeat split.
  - reflexivity.
  - reflexivity.
Defined.

(** Two pull requests, no log yet. *)
Lemma liveRun_skips_pull_requests_witness :
  RunModes.liveRun_run Fixtures.calm Fixtures.cfg Fixtures.live0
    [Fixtures.pull9; Fixtures.pull9] None Fixtures.fresh
  = (Ret (RunModes.stats Fixtures.live0, None),
     mkSt (trace Fixtures.fresh ++ repeat (Sleep 1001000) 2)
       (Some (content Fixtures.fresh)) 0%nat).
Proof.
  apply (liveRun_skips_pull_requests Fixtures.calm Fixtures.cfg Fixtures.live0
           [Fixtures.pull9; Fixtures.pull9] None Fixtures.fresh).
  - repeat constructor.
  - reflexivity.
Defined.

(** ** Repository URLs *)

Section RepoURLs.
Import GoStrings.

Lemma Split_snoc (a b : string) (sep : ascii) :
  hasByte b sep = false ->
  Split (a +:+ String sep b) sep = (Split a sep ++ [b])%list.
Proof.
  intros Hb. induction a as [|c a IH].
  - rewrite app_empty_l. cbn [Split]. rewrite Ascii.eqb_refl.
    now rewrite (Split_no_sep b sep Hb).
  - rewrite app_cons. cbn [Split]. rewrite IH.
    destruct (Ascii.eqb c sep); [reflexivity |].
    destruct (Split a sep) as [|x l] eqn:Hs; [now apply Split_nonempty in Hs |].
    reflexivity.
Qed.

Lemma indexZ_last_two {A} (l : list A) (x y : A) :
  indexZ (l ++ [x; y]) (Z.of_nat (length (l ++ [x; y])) - 2) = Ret x /\
  indexZ (l ++ [x; y]) (Z.of_nat (length (l ++ [x; y])) - 1) = Ret y.
Proof.
  rewrite length_app. cbn [length]. unfold indexZ, index.
  replace (Z.of_nat (length l + 2) - 2) with (Z.of_nat (length l)) by lia.
  replace (Z.of_nat (length l + 2) - 1) with (Z.of_nat (length l + 1)) by lia.
  destruct (Z.of_nat (length l) <? 0) eqn:H1; [apply Z.ltb_lt in H1; lia |].
  destruct (Z.of_nat (length l + 1) <? 0) eqn:H2; [apply Z.ltb_lt in H2; lia |].
  rewrite !Nat2Z.id. split.
  - rewrite lookup_app_r by lia. now rewrite Nat.sub_diag.
  - rewrite lookup_app_r by lia.
    now replace (length l + 1 - length l)%nat with 1%nat by lia.
Qed.

Lemma lastTwo_fragments (url owner name : string) :
  lastTwo url = Some (owner, name) ->
  exists l, Split url "/" = (l ++ [owner; name])%list.
Proof.
  unfold lastTwo. intros H.
  destruct (rev (Split url "/")) as [|n [|o t]] eqn:Hr; try discriminate.
  injection H as -> ->. exists (rev t).
  rewrite <- (rev_involutive (Split url "/")), Hr. cbn [rev].
  now rewrite <- app_assoc.
Qed.

Lemma length_app_s (a b : string) :
  String.length (a +:+ b) = (String.length a + String.length b)%nat.
Proof. induction a as [|c a IH]; [reflexivity |]. rewrite app_cons. cbn. now rewrite IH. Qed.

Lemma dropS_app (a b : string) : OS.dropS (String.length a) (a +:+ b) = b.
Proof. induction a as [|c a IH]; [reflexivity |]. rewrite app_cons. exact IH. Qed.

Lemma takeS_app (a b : string) : OS.takeS (String.length a) (a +:+ b) = a.
Proof.
  induction a as [|c a IH]; [now destruct b |]. rewrite app_cons. cbn. now rewrite IH.
Qed.

(** [TrimSuffix] takes off a suffix that is there. *)
Lemma TrimSuffix_app (s suffix : string) : TrimSuffix (s +:+ suffix) suffix = s.
Proof.
  unfold TrimSuffix, HasSuffix. rewrite length_app_s.
  replace (String.length s + String.length suffix - String.length suffix)%nat
    with (String.length s) by lia.
  rewrite dropS_app, String.eqb_refl, takeS_app.
  destruct (String.length suffix <=? String.length s + String.length suffix)%nat eqn:H;
    [reflexivity |].
  apply Nat.leb_gt in H. lia.
Qed.

End RepoURLs.

Section GithubFacts.
Import GoStrings GithubPkg.
Variable issuesListByRepo : list Event -> string -> string -> list Issue + string.

(** X17.  [GetOpenIssues] reads the repository off the end of each URL:
    for [<base>/<owner>/<name>.git] it asks for the issues of [name] of
    [owner], the suffix [.git] taken off; a name without that suffix is
    left as it is. *)
Theorem repoOf_reads_owner_and_name (base owner name : string) :
  hasByte owner "/" = false ->
  hasByte name "/" = false ->
  repoOf (base +:+ "/" +:+ owner +:+ "/" +:+ name +:+ ".git") = Ret (owner, name) /\
  (HasSuffix name ".git" = false ->
   repoOf (base +:+ "/" +:+ owner +:+ "/" +:+ name) = Ret (owner, name)).
Proof.
  intros Ho Hn.
  assert (forall last, hasByte last "/" = false ->
            repoOf (base +:+ "/" +:+ owner +:+ "/" +:+ last)
            = Ret (owner, TrimSuffix last ".git")) as H.
  { intros last Hl. unfold repoOf.
    change (base +:+ "/" +:+ owner +:+ "/" +:+ last)
      with (base +:+ String "/" (owner +:+ String "/" last)).
    rewrite <- app_cons, <- app_assoc_s.
    rewrite (Split_snoc _ last "/" Hl), (Split_snoc base owner "/" Ho), <- app_assoc.
    cbn [app].
    destruct (indexZ_last_two (Split base "/") owner last) as [-> ->].
    reflexivity. }
  split.
  - rewrite H by (rewrite hasByte_app, Hn; reflexivity).
    now rewrite TrimSuffix_app.
  - intros Hs. rewrite (H name Hn). unfold TrimSuffix. now rewrite Hs.
Qed.

Lemma GetOpenIssuesLoop_spec (repoURLs : list string) (repos : list (string * string)) :
  (forall h h' owner name, issuesListByRepo h owner name = issuesListByRepo h' owner name) ->
  Forall2 (fun url p => repoOf url = Ret p) repoURLs repos ->
  forall all tr,
    GetOpenIssuesLoop issuesListByRepo repoURLs all tr
    = (Ret (all ++ flat_map (fun p => issuesOf (issuesListByRepo [] (fst p) (snd p))) repos),
       tr ++ map (fun p => ListByRepo (fst p) (snd p)) repos)%list.
Proof.
  intros Hind. induction 1 as [|url [owner name] urls repos Hp _ IH]; intros all tr.
  - cbn [GetOpenIssuesLoop flat_map map]. now rewrite !app_nil_r.
  - cbn [GetOpenIssuesLoop flat_map map fst snd]. rewrite Hp.
    rewrite (Hind tr [] owner name).
    destruct (issuesListByRepo [] owner name) as [issues | err]; rewrite IH;
      cbn [issuesOf app]; now rewrite <- !app_assoc.
Qed.

(** X18.  [GetOpenIssues] asks for the issues of every repository of the
    list, in order, also after a repository that could not be listed, and
    returns, in that order, the issues of those that could: a failed
    listing adds nothing and ends nothing.  (The answers of GitHub are
    taken not to depend on the calls made before.) *)
Theorem GetOpenIssues_collects_what_it_can
    (repoURLs : list string) (repos : list (string * string)) (tr : list Event) :
  (forall h h' owner name, issuesListByRepo h owner name = issuesListByRepo h' owner name) ->
  Forall2 (fun url p => repoOf url = Ret p) repoURLs repos ->
  GetOpenIssues issuesListByRepo repoURLs tr
  = (Ret (flat_map (fun p => issuesOf (issuesListByRepo [] (fst p) (snd p))) repos),
     tr ++ map (fun p => ListByRepo (fst p) (snd p)) repos)%list.
Proof.
  intros Hind Hrepos. unfold GetOpenIssues.
  now rewrite (GetOpenIssuesLoop_spec repoURLs repos Hind Hrepos).
Qed.

(** X19.  A URL without a slash stops both listings of repositories with
    a panic, the index -1 being out of range: [GetOpenIssues], with the
    issues found so far lost, and the filter of [main] in the mode
    "migrate". *)
Theorem url_without_slash_panics
    (url : string) (rest : list string) (all : list Issue) (tr : list Event)
    (baseRepos : list MainGo.Repository) :
  hasByte url "/" = false ->
  GetOpenIssuesLoop issuesListByRepo (url :: rest) all tr
  = (Panic (IndexOutOfRange (-1) 1), tr) /\
  MainSetup.filterOrgs url MainSetup.orgs baseRepos = Panic (IndexOutOfRange (-1) 1).
Proof.
  intros Hu. split.
  - cbn [GetOpenIssuesLoop]. unfold repoOf. now rewrite (Split_no_sep url "/" Hu).
  - unfold MainSetup.orgs. cbn [MainSetup.filterOrgs].
    now rewrite (Split_no_sep url "/" Hu).
Qed.

End GithubFacts.

(** ** The calls to GitHub *)

Section HTTPFacts.
Import GithubPkg.
Variable t : Transport.
Variable GetURL : Issue -> string.
Variable GetCommentsURL : Issue -> string.

Lemma is2xx_spec (code : Z) : ((code <? 200) || (300 <=? code)) = negb (is2xx code).
Proof.
  unfold is2xx.
  destruct (code <? 200) eqn:H1, (300 <=? code) eqn:H2,
    (200 <=? code) eqn:H3, (code <? 300) eqn:H4; try reflexivity; lia.
Qed.

Ltac http_cases :=
  repeat match goal with
  | |- context [match ?x with _ => _ end] => destruct x eqn:?
  | |- context [if ?x then _ else _] => destruct x eqn:?
  end.

Lemma Sprintf_lock (url : string) : Sprintf "%s/lock" [AStr url] = url +:+ "/lock".
Proof. reflexivity. Qed.

Lemma Sprintf_create (err : string) :
  Sprintf "could not create request: %s" [AStr err] = "could not create request: " +:+ err.
Proof. cbn. now rewrite app_empty_r. Qed.

(** X20.  [PostComment], [Close] and [Lock] return [nil] exactly when the
    request could be made, GitHub answered it, the body of the answer
    could be read, and the status was one of 200-299; in every other case
    each of them returns an error (or, for [Lock], panics). *)
Theorem github_calls_succeed_exactly_on_2xx
    (i : Issue) (comment : string) (sent : list Request) :
  (fst (PostComment t GetCommentsURL i comment sent) = None <->
   newRequestErr t "POST" (GetCommentsURL i) = None /\
   exists resp body,
     Do t sent (mkRequest "POST" (GetCommentsURL i) (JSONObject [("body", comment)]) [])
     = inl resp /\
     ReadAll resp = inl body /\ is2xx (StatusCode resp) = true) /\
  (fst (Close t GetURL i sent) = None <->
   newRequestErr t "PATCH" (GetURL i) = None /\
   exists resp body,
     Do t sent (mkRequest "PATCH" (GetURL i) (JSONObject [("state", "closed")]) [])
     = inl resp /\
     ReadAll resp = inl body /\ is2xx (StatusCode resp) = true) /\
  (fst (Lock t GetURL i sent) = Ret None <->
   newRequestErr t "PUT" (Sprintf "%s/lock" [AStr (GetURL i)]) = None /\
   exists resp body,
     Do t sent (mkRequest "PUT" (Sprintf "%s/lock" [AStr (GetURL i)]) (Bytes "")
                  [("Content-Length", "0")])
     = inl resp /\
     ReadAll resp = inl body /\ is2xx (StatusCode resp) = true).
Proof.
  unfold PostComment, Close, Lock. cbv zeta.
  split; [| split]; (split; [intros H | intros (Hn & resp & body & Hd & Hr & Hc)]).
  all: try (rewrite Hn, Hd, Hr, is2xx_spec, Hc; reflexivity).
  all: revert H; http_cases; cbn [fst]; intros H;
    try discriminate; (split; [reflexivity |]);
    eexists _, _; repeat split; try reflexivity; try eassumption;
    match goal with
    | Hx : _ || _ = false |- _ =>
        rewrite is2xx_spec in Hx; now apply negb_false_iff in Hx
    end.
Qed.

(** X21.  When [http.NewRequest] fails, [PostComment] and [Close] return
    its error as [could not create request: ...] and send nothing; [Lock]
    adds a header to the request before it looks at the error, so it does
    not return it but panics on the nil request. *)
Theorem Lock_panics_when_the_request_cannot_be_made
    (i : Issue) (comment : string) (sent : list Request) (e1 e2 e3 : string) :
  newRequestErr t "POST" (GetCommentsURL i) = Some e1 ->
  newRequestErr t "PATCH" (GetURL i) = Some e2 ->
  newRequestErr t "PUT" (GetURL i +:+ "/lock") = Some e3 ->
  PostComment t GetCommentsURL i comment sent
  = (Some ("could not create request: " +:+ e1), sent) /\
  Close t GetURL i sent = (Some ("could not create request: " +:+ e2), sent) /\
  Lock t GetURL i sent = (Panic NilDereference, sent).
Proof.
  intros H1 H2 H3. unfold PostComment, Close, Lock. cbv zeta.
  rewrite H1, H2. rewrite Sprintf_lock, H3.
  rewrite !Sprintf_create. repeat split.
Qed.

End HTTPFacts.

(** An issue whose API addresses hold a space. *)
Lemma Lock_panics_when_the_request_cannot_be_made_witness :
  GithubPkg.PostComment (MoreFixtures.answering 200)
    (fun _ => "https://api.github.com/repos/o/r/issues/7 /comments") Fixtures.active7 "hello" []
  = (Some "could not create request: invalid character in URL", []) /\
  GithubPkg.Close (MoreFixtures.answering 200)
    (fun _ => "https://api.github.com/repos/o/r/issues/7 ") Fixtures.active7 []
  = (Some "could not create request: invalid character in URL", []) /\
  GithubPkg.Lock (MoreFixtures.answering 200)
    (fun _ => "https://api.github.com/repos/o/r/issues/7 ") Fixtures.active7 []
  = (Panic NilDereference, []).
Proof.
  apply (Lock_panics_when_the_request_cannot_be_made (MoreFixtures.answering 200)
           (fun _ => "https://api.github.com/repos/o/r/issues/7 ")
           (fun _ => "https://api.github.com/repos/o/r/issues/7 /comments")
           Fixtures.active7 "hello" []
           "invalid character in URL" "invalid character in URL"
           "invalid character in URL"); reflexivity.
Defined.

Example Close_refused_with_404 :
  fst (GithubPkg.Close (MoreFixtures.answering 404)
         (fun _ => "https://api.github.com/repos/o/r/issues/7") Fixtures.active7 [])
  = Some "api error for payload map[state:closed]: {}".
Proof. reflexivity. Qed.

(** ** The repositories of the mode "migrate" *)

Section MigrateFilter.
Import GoStrings MainSetup.

Lemma filterOrgs_spec (url owner name : string) (baseRepos : list MainGo.Repository) :
  lastTwo url = Some (owner, name) ->
  forall os,
    filterOrgs url os baseRepos
    = Ret (if bool_decide (owner ∈ os)
           then (baseRepos ++ [MainGo.mkRepo owner name])%list
           else baseRepos).
Proof.
  intros Hl. destruct (lastTwo_fragments url owner name Hl) as [l Hs].
  destruct (indexZ_last_two l owner name) as [Ho Hn].
  induction os as [|o os IH].
  - reflexivity.
  - cbn [filterOrgs]. rewrite Hs, Hn, Ho. cbn [obind].
    destruct (String.eqb owner o) eqn:He.
    + apply String.eqb_eq in He. subst o.
      rewrite bool_decide_eq_true_2 by apply list_elem_of_here. reflexivity.
    + apply String.eqb_neq in He. rewrite IH.
      destruct (bool_decide (owner ∈ os)) eqn:Hd.
      * apply bool_decide_eq_true_1 in Hd.
        rewrite bool_decide_eq_true_2 by now apply list_elem_of_further.
        reflexivity.
      * apply bool_decide_eq_false_1 in Hd.
        rewrite bool_decide_eq_false_2; [reflexivity |].
        intros Hin. apply elem_of_cons in Hin as [Heq | Hin]; [now apply He | now apply Hd].
Qed.

Lemma processSteps_spec (steps : list Step) (pairs : list (string * string)) :
  Forall2 (fun stp p => exists url, sourceCodeURL stp = Some url /\ lastTwo url = Some p)
    steps pairs ->
  forall baseRepos,
    processSteps steps baseRepos
    = Ret (baseRepos ++
           map (fun p => MainGo.mkRepo (fst p) (snd p))
             (filter (fun p => fst p ∈ orgs) pairs))%list.
Proof.
  induction 1 as [|stp [owner name] steps pairs (url & Hu & Hl) _ IH]; intros baseRepos.
  - cbn. now rewrite app_nil_r.
  - cbn [processSteps]. rewrite Hu, (filterOrgs_spec url owner name baseRepos Hl orgs).
    cbn [obind]. rewrite IH, filter_cons. cbn [fst].
    destruct (decide (owner ∈ orgs)) as [Hin | Hout].
    + rewrite bool_decide_eq_true_2 by exact Hin. cbn [map fst snd].
      now rewrite <- app_assoc.
    + rewrite bool_decide_eq_false_2 by exact Hout. reflexivity.
Qed.

(** X22.  In the mode "migrate", when every step of the spec file has a
    source URL with an owner and a name as its last two fields, [main]
    adds to its repositories exactly those of the seven organisations, in
    the order of the steps and once for each step; the name is the last
    field as it stands, a trailing [.git] kept. *)
Theorem migrate_keeps_the_organisations_repositories
    (steps : list Step) (pairs : list (string * string))
    (baseRepos : list MainGo.Repository) :
  Forall2 (fun stp p => exists url, sourceCodeURL stp = Some url /\ lastTwo url = Some p)
    steps pairs ->
  processSteps steps baseRepos
  = Ret (baseRepos ++
         map (fun p => MainGo.mkRepo (fst p) (snd p))
           (filter (fun p => fst p ∈ orgs) pairs))%list.
Proof. intros H. exact (processSteps_spec steps pairs H baseRepos). Qed.

End MigrateFilter.

Lemma migrate_keeps_the_organisations_repositories_witness :
  MainSetup.processSteps MoreFixtures.specSteps []
  = Ret [MainGo.mkRepo "bitrise-io" "steps-script";
         MainGo.mkRepo "bitrise-steplib" "steps-git-clone"].
Proof.
  apply (migrate_keeps_the_organisations_repositories MoreFixtures.specSteps
           [("bitrise-io", "steps-script"); ("someone-else", "steps-other");
            ("bitrise-steplib", "steps-git-clone")] []).
  repeat constructor; eexists; split; reflexivity.
Defined.

Lemma repoOf_reads_owner_and_name_witness :
  GithubPkg.repoOf "https://github.com/bitrise-io/steps-script.git"
  = Ret ("bitrise-io", "steps-script") /\
  GithubPkg.repoOf "https://github.com/bitrise-io/steps-script"
  = Ret ("bitrise-io", "steps-script").
Proof.
  split.
  - apply (proj1 (repoOf_reads_owner_and_name "https://github.com" "bitrise-io"
                    "steps-script" eq_refl eq_refl)).
  - apply (proj2 (repoOf_reads_owner_and_name "https://github.com" "bitrise-io"
                    "steps-script" eq_refl eq_refl)).
    reflexivity.
Defined.

Lemma GetOpenIssues_collects_what_it_can_witness :
  GithubPkg.GetOpenIssues MoreFixtures.listing
    ["https://github.com/o/r.git"; "https://github.com/o/missing"; "https://github.com/o/s"]
    []
  = (Ret [Fixtures.active7; Fixtures.stale8],
     [ListByRepo "o" "r"; ListByRepo "o" "missing"; ListByRepo "o" "s"]).
Proof.
  apply (GetOpenIssues_collects_what_it_can MoreFixtures.listing
           ["https://github.com/o/r.git"; "https://github.com/o/missing";
            "https://github.com/o/s"]
           [("o", "r"); ("o", "missing"); ("o", "s")] []).
  - reflexivity.
  - repeat constructor.
Defined.

Lemma url_without_slash_panics_witness :
  GithubPkg.GetOpenIssuesLoop MoreFixtures.listing ["steps-script"] [] []
  = (Panic (IndexOutOfRange (-1) 1), []) /\
  MainSetup.filterOrgs "steps-script" MainSetup.orgs [] = Panic (IndexOutOfRange (-1) 1).
Proof.
  apply (url_without_slash_panics MoreFixtures.listing "steps-script" [] [] [] []).
  reflexivity.
Defined.
